(** * The LSTM data pipeline, trainer and predictor of [ml/]

    A shallow embedding of [ml/data.py], [ml/train_lstm.py] and
    [ml/predict_lstm.py], and the properties the specification states
    about them.

    Layout: the definitions come first (binary64 arithmetic, the Python
    and pandas primitives the code calls, then one module per source
    file), the lemmas and theorems follow. *)

From Stdlib Require Import ZArith Lia Bool String Ascii Sorting.Sorted Permutation.
From stdpp Require Import base list gmap strings.

Local Open Scope Z_scope.

(* ================================================================== *)
(** * Binary64 arithmetic *)
(* ================================================================== *)

(** Python's [float] and numpy's [float64] are IEEE-754 binary64 numbers.
    Every finite binary64 number is an integer multiple of 2^-1074 (the
    smallest subnormal), so a finite value is stored as that integer:
    [Fin z] stands for z * 2^-1074.  An operation is the exact result
    rounded to the nearest representable number, ties to even, as the
    standard defines it.  The two zeros are identified: the code never
    looks at the sign of a zero (its only division by a possibly zero
    value, in [apply_standardizer], replaces both infinities by 0). *)
Module Float64.

Inductive float : Type :=
  | Fin (z : Z)
  | PInf
  | NInf
  | NaN.

#[global] Instance float_eq_dec : EqDecision float.
Proof. solve_decision. Defined.

(** Exponent of the grid unit and the value 1.0 on the grid. *)
Definition one_u : Z := 2 ^ 1074.

(** [rne a b]: the integer nearest to a/b (b > 0), ties to even. *)
Definition rne (a b : Z) : Z :=
  let '(f, r) := Z.div_eucl a b in
  if 2 * r <? b then f
  else if b <? 2 * r then f + 1
  else if Z.even f then f else f + 1.

(** Exponent of the unit in the last place of a/b for a format with [p]
    significant bits whose subnormal spacing is 2^s grid units. *)
Definition quantum (p s a b : Z) : Z :=
  Z.max s (Z.log2 (a / b) - (p - 1)).

(** Magnitude of a/b >= 0 rounded to the format, before the overflow test. *)
Definition round_mag (p s a b : Z) : Z :=
  let e := quantum p s a b in
  rne a (b * 2 ^ e) * 2 ^ e.

(** [round_to p s M n d]: the rational n/d (d > 0, in grid units) rounded
    to the format; a magnitude that reaches [M] overflows to an infinity. *)
Definition round_to (p s M n d : Z) : float :=
  let r := round_mag p s (Z.abs n) d in
  if M <=? r then (if n <? 0 then NInf else PInf)
  else Fin (Z.sgn n * r).

(** binary64: 53 bits, spacing 2^-1074, overflow at 2^1024. *)
Definition round64 : Z -> Z -> float := round_to 53 0 (2 ^ 2098).
(** binary32: 24 bits, spacing 2^-149, overflow at 2^128. *)
Definition round32 : Z -> Z -> float := round_to 24 925 (2 ^ 1202).

(** A finite value is a binary64 number when rounding leaves it alone. *)
Definition is_binary64 (x : float) : Prop :=
  match x with
  | Fin z => round64 z 1 = Fin z
  | _ => True
  end.

(** The decimal literal n/d, and the conversion of an integer. *)
Definition lit (n d : Z) : float := round64 (n * one_u) d.
Definition of_Z (n : Z) : float := round64 (n * one_u) 1.

Definition fneg (x : float) : float :=
  match x with
  | Fin a => Fin (- a)
  | PInf => NInf
  | NInf => PInf
  | NaN => NaN
  end.

Definition fadd (x y : float) : float :=
  match x, y with
  | NaN, _ | _, NaN => NaN
  | PInf, NInf | NInf, PInf => NaN
  | PInf, _ | _, PInf => PInf
  | NInf, _ | _, NInf => NInf
  | Fin a, Fin b => round64 (a + b) 1
  end.

Definition fsub (x y : float) : float := fadd x (fneg y).

(** Sign of a float: -1, 0, 1 ([None] for NaN). *)
Definition fsign (x : float) : option Z :=
  match x with
  | Fin a => Some (Z.sgn a)
  | PInf => Some 1
  | NInf => Some (-1)
  | NaN => None
  end.

Definition signed_inf (s : Z) : float :=
  if s =? 0 then NaN else if s <? 0 then NInf else PInf.

Definition fmul (x y : float) : float :=
  match x, y with
  | Fin a, Fin b => round64 (a * b) one_u
  | _, _ =>
      match fsign x, fsign y with
      | Some sx, Some sy => signed_inf (sx * sy)
      | _, _ => NaN
      end
  end.

(** Division as numpy does it: a division by zero gives an infinity or
    NaN, it does not raise. *)
Definition fdiv (x y : float) : float :=
  match x, y with
  | NaN, _ | _, NaN => NaN
  | Fin a, Fin b =>
      if b =? 0 then signed_inf (Z.sgn a)
      else round64 (a * one_u * Z.sgn b) (Z.abs b)
  | Fin _, _ => Fin 0
  | _, Fin b => signed_inf (match fsign x with Some s => s | None => 0 end
                            * (if b <? 0 then -1 else 1))
  | _, _ => NaN
  end.

(** Correctly rounded square root. *)
Definition fsqrt (x : float) : float :=
  match x with
  | Fin a =>
      if a <? 0 then NaN
      else
        let W := a * one_u in
        let e := Z.max 0 (Z.log2 (Z.sqrt W) - 52) in
        let f := Z.sqrt (W / 4 ^ e) in
        let h := (2 * f + 1) ^ 2 * 4 ^ e in
        let k := if 4 * W <? h then f
                 else if h <? 4 * W then f + 1
                 else if Z.even f then f else f + 1 in
        Fin (k * 2 ^ e)
  | PInf => PInf
  | _ => NaN
  end.

(** Comparisons: every comparison with NaN is false. *)
Definition fltb (x y : float) : bool :=
  match x, y with
  | NaN, _ | _, NaN => false
  | Fin a, Fin b => a <? b
  | _, NInf => false
  | NInf, _ => true
  | PInf, _ => false
  | _, PInf => true
  end.

Definition feqb (x y : float) : bool :=
  match x, y with
  | Fin a, Fin b => a =? b
  | PInf, PInf | NInf, NInf => true
  | _, _ => false
  end.

Definition fleb (x y : float) : bool := fltb x y || feqb x y.
Definition fgtb (x y : float) : bool := fltb y x.
Definition fgeb (x y : float) : bool := fleb y x.

Definition is_nan (x : float) : bool :=
  match x with NaN => true | _ => false end.
Definition is_inf (x : float) : bool :=
  match x with PInf | NInf => true | _ => false end.

(** [astype(np.float32)]: rounding of a binary64 value to binary32. *)
Definition to_float32 (x : float) : float :=
  match x with
  | Fin a => round32 a 1
  | _ => x
  end.

End Float64.
Export Float64.

(* ================================================================== *)
(** * Python primitives *)
(* ================================================================== *)

(** The exceptions the modelled code can meet. *)
Inductive exn : Type :=
  | KeyError (key : string)
  | ValueError
  | OverflowError
  | IndexError
  | TypeError
  | ZeroDivisionError
  | FileNotFoundError
  | RuntimeError (msg : string).

(** A computation that returns a value or raises. *)
Inductive result (A : Type) : Type :=
  | Ok (a : A)
  | Raise (e : exn).
Arguments Ok {A} a.
Arguments Raise {A} e.

#[global] Instance result_ret : MRet result := @Ok.
#[global] Instance result_bind : MBind result := fun A B f m =>
  match m with
  | Ok a => f a
  | Raise e => Raise e
  end.

(** Left fold whose step may raise: a [for] loop over [l]. *)
Fixpoint foldM {A B : Type} (f : B -> A -> result B) (acc : B) (l : list A)
  : result B :=
  match l with
  | [] => Ok acc
  | x :: l' => acc' ← f acc x; foldM f acc' l'
  end.

Module Py.

(** [len]. *)
Definition len {A : Type} (l : list A) : Z := Z.of_nat (length l).

(** A slice bound: negative bounds count from the end, and every bound
    is clipped to the sequence. *)
Definition norm_bound (n i : Z) : Z :=
  if i <? 0 then Z.max 0 (i + n) else Z.min i n.

(** [l[lo:hi]]; an omitted bound is [None]. *)
Definition slice {A : Type} (l : list A) (lo hi : option Z) : list A :=
  let n := len l in
  let a := match lo with Some i => norm_bound n i | None => 0 end in
  let b := match hi with Some i => norm_bound n i | None => n end in
  take (Z.to_nat (b - a)) (drop (Z.to_nat a) l).

(** [l[i]]: a negative index counts from the end; out of range raises. *)
Definition index {A : Type} (l : list A) (i : Z) : result A :=
  let j := if i <? 0 then i + len l else i in
  if j <? 0 then Raise IndexError
  else match l !! Z.to_nat j with
       | Some x => Ok x
       | None => Raise IndexError
       end.

(** [range(a, b)]. *)
Definition range (a b : Z) : list Z :=
  map (fun i : nat => a + Z.of_nat i) (seq 0 (Z.to_nat (b - a))).

(** [int(x)] on a float: truncation towards zero. *)
Definition int (x : float) : result Z :=
  match x with
  | Fin z => Ok (Z.quot z one_u)
  | NaN => Raise ValueError
  | _ => Raise OverflowError
  end.

(** The conversion of an [int] operand in mixed arithmetic. *)
Definition float_of_int (n : Z) : result float :=
  match of_Z n with
  | Fin z => Ok (Fin z)
  | _ => Raise OverflowError
  end.

(** [x / n] for a float [x] and an int [n]. *)
Definition div_float_int (x : float) (n : Z) : result float :=
  if n =? 0 then Raise ZeroDivisionError
  else d ← float_of_int n; Ok (fdiv x d).

(** [a / b] for two ints: the correctly rounded quotient. *)
Definition div_int_int (a b : Z) : result float :=
  if b =? 0 then Raise ZeroDivisionError
  else match round64 (a * one_u * Z.sgn b) (Z.abs b) with
       | Fin z => Ok (Fin z)
       | _ => Raise OverflowError
       end.

End Py.

(* ================================================================== *)
(** * pandas and numpy primitives *)
(* ================================================================== *)

Module Pd.

(** [sort_values] on several columns is a stable sort; it is modelled as
    a stable insertion sort for the order [leb]. *)
Fixpoint insert_sorted {A : Type} (leb : A -> A -> bool) (x : A) (l : list A)
  : list A :=
  match l with
  | [] => [x]
  | y :: l' => if leb x y then x :: l else y :: insert_sorted leb x l'
  end.

Definition sort_values {A : Type} (leb : A -> A -> bool) (l : list A) : list A :=
  foldr (insert_sorted leb) [] l.

(** Missing keys (NaN, NaT) sort last ([na_position="last"]). *)
Definition na_last_leb {A : Type} (leb : A -> A -> bool) (a b : option A) : bool :=
  match a, b with
  | _, None => true
  | None, Some _ => false
  | Some x, Some y => leb x y
  end.

(** numpy's [nanmean] and [nanstd] (population standard deviation):
    NaN entries count as 0 in the sums and are left out of the count. *)
Definition nan_to_zero (x : float) : float := if is_nan x then Fin 0 else x.

Definition np_sum (xs : list float) : float := fold_left fadd xs (Fin 0).

Definition count_not_nan (xs : list float) : Z :=
  Py.len (filter (fun x => negb (is_nan x)) xs).

Definition nanmean (xs : list float) : float :=
  fdiv (np_sum (map nan_to_zero xs)) (of_Z (count_not_nan xs)).

Definition nanvar (xs : list float) : float :=
  let avg := nanmean xs in
  let dev := map (fun x => if is_nan x then Fin 0 else fsub x avg) xs in
  fdiv (np_sum (map (fun d => fmul d d) dev)) (of_Z (count_not_nan xs)).

Definition nanstd (xs : list float) : float := fsqrt (nanvar xs).

(** [np.stack]: the stacked arrays must have one shape. *)
Definition stack {A : Type} (xs : list (list A)) : result (list (list A)) :=
  match xs with
  | [] => Raise ValueError
  | x :: _ =>
      if forallb (fun y => length y =? length x)%nat xs then Ok xs
      else Raise ValueError
  end.

End Pd.

(* ================================================================== *)
(** * [ml/data.py] *)
(* ================================================================== *)

Module Data.

(** The ten feature columns. *)
Inductive Feature : Type :=
  | Score | Ts | avgTs
  | compVolPct | compSentPct | TVolComp | MVolComp
  | close | volume | ret1.

#[global] Instance Feature_eq_dec : EqDecision Feature.
Proof. solve_decision. Defined.

Definition FEATURES : list Feature :=
  [ Score; Ts; avgTs;
    compVolPct; compSentPct; TVolComp; MVolComp;
    close; volume; ret1 ].

(** The column name of a feature. *)
Definition name (c : Feature) : string :=
  match c with
  | Score => "Score" | Ts => "Ts" | avgTs => "avgTs"
  | compVolPct => "compVolPct" | compSentPct => "compSentPct"
  | TVolComp => "TVolComp" | MVolComp => "MVolComp"
  | close => "close" | volume => "volume" | ret1 => "ret1"
  end.

Definition LABEL : string := "y_up".

(** One row of a frame with the columns the code reads.  [D] is the type
    of the date cell and [V] of a feature cell; a blank ticker is [None]
    and a blank label is NaN. *)
Record Row (D V : Type) : Type := mkRow {
  ticker : option string;
  date : D;
  c_Score : V; c_Ts : V; c_avgTs : V;
  c_compVolPct : V; c_compSentPct : V; c_TVolComp : V; c_MVolComp : V;
  c_close : V; c_volume : V; c_ret1 : V;
  y_up : float
}.
Arguments mkRow {D V}.
Arguments ticker {D V}.
Arguments date {D V}.
Arguments y_up {D V}.

(** [row[c]] *)
Definition get {D V : Type} (c : Feature) (r : Row D V) : V :=
  match c with
  | Score => c_Score D V r | Ts => c_Ts D V r | avgTs => c_avgTs D V r
  | compVolPct => c_compVolPct D V r | compSentPct => c_compSentPct D V r
  | TVolComp => c_TVolComp D V r | MVolComp => c_MVolComp D V r
  | close => c_close D V r | volume => c_volume D V r | ret1 => c_ret1 D V r
  end.

(** The row with every feature cell [get c r] replaced by [f c (get c r)],
    and the date by [d]. *)
Definition map_row {D D' V V' : Type} (d : D') (f : Feature -> V -> V')
    (r : Row D V) : Row D' V' :=
  mkRow (ticker r) d
    (f Score (get Score r)) (f Ts (get Ts r)) (f avgTs (get avgTs r))
    (f compVolPct (get compVolPct r)) (f compSentPct (get compSentPct r))
    (f TVolComp (get TVolComp r)) (f MVolComp (get MVolComp r))
    (f close (get close r)) (f volume (get volume r)) (f ret1 (get ret1 r))
    (y_up r).

(** [df[c] = f(df[c])]: one column rewritten, cell by cell. *)
Definition set_column {D V : Type} (c : Feature) (f : V -> V)
    (df : list (Row D V)) : list (Row D V) :=
  map (fun r : Row D V =>
         map_row (date r) (fun c' v => if decide (c' = c) then f v else v) r)
      df.

(** A cell of a feature column as [read_csv] leaves it: a number, or
    text when the column did not parse as numeric. *)
Inductive cell : Type :=
  | CNum (x : float)
  | CStr (s : string).

(** A timestamp; [None] is NaT. *)
Definition Timestamp : Type := option Z.

(** The frame [read_csv] returns, and the frame the loader returns. *)
Definition RawFrame : Type := list (Row (option string) cell).
Definition Frame : Type := list (Row Timestamp float).

(** Order of [sort_values(["ticker","date"])]. *)
Definition key_leb {V : Type} (r1 r2 : Row Timestamp V) : bool :=
  if decide (ticker r1 = ticker r2)
  then Pd.na_last_leb Z.leb (date r1) (date r2)
  else Pd.na_last_leb String.leb (ticker r1) (ticker r2).

(** [Series.isin]: a blank ticker is in no list of names. *)
Definition isin (t : option string) (ts : list string) : bool :=
  match t with
  | Some t => bool_decide (t ∈ ts)
  | None => false
  end.

Section Loader.

(** [pd.to_datetime] on one date string ([None]: it does not parse, and
    pandas raises), and the numeric reading of a text cell by
    [pd.to_numeric] ([None]: no number). *)
Variable to_datetime : string -> option Z.
Variable to_numeric : string -> option float.

Definition parse_date (d : option string) : result Timestamp :=
  match d with
  | None => Ok None
  | Some s =>
      match to_datetime s with
      | Some t => Ok (Some t)
      | None => Raise ValueError
      end
  end.

(** [pd.to_numeric(.., errors="coerce")] on one cell. *)
Definition coerce (v : cell) : float :=
  match v with
  | CNum x => x
  | CStr s => match to_numeric s with Some x => x | None => NaN end
  end.

Definition load_dataset (csv : RawFrame) (tickers : option (list string))
  : result Frame :=
  let df := csv in
  (* need labels *)
  let df := filter (fun r => negb (is_nan (y_up r))) df in
  let df :=
    match tickers with
    | None | Some [] => df
    | Some ts =>
        filter (fun r => isin (ticker r) ts) df
    end in
  (* enforce sort per ticker by date *)
  df ← mapM (fun r => d ← parse_date (date r); Ok (map_row d (fun _ v => v) r)) df;
  let df := Pd.sort_values key_leb df in
  (* coerce features numeric *)
  Ok (map (fun r => map_row (date r) (fun _ v => coerce v) r) df).

End Loader.

(** [time_split]: the two cuts are absolute row positions. *)
Definition time_split {A : Type} (df : list A) (train_frac val_frac : float)
  : result (list A * list A * list A) :=
  n ← Py.float_of_int (Py.len df);
  cut1 ← Py.int (fmul n train_frac);
  cut2 ← Py.int (fmul n (fadd train_frac val_frac));
  Ok (Py.slice df None (Some cut1),
      Py.slice df (Some cut1) (Some cut2),
      Py.slice df (Some cut2) None).

(** A fitted statistics document: feature name to {"mean", "std"}. *)
Abbreviation Stats := (gmap string (gmap string float)).

Definition column {D V : Type} (c : Feature) (df : list (Row D V)) : list V :=
  map (get c) df.

Definition fit_standardizer (train_df : Frame) : Stats :=
  fold_left
    (fun (stats : Stats) c =>
       let x := map (fun v => if is_inf v then NaN else v) (column c train_df) in
       let mu := Pd.nanmean x in
       let sd := if fgtb (Pd.nanstd x) (lit 1 (10 ^ 12)) then Pd.nanstd x
                 else lit 1 1 in
       <[name c := {[ "mean" := mu; "std" := sd ]}]> stats)
    FEATURES ∅.

(** [d[k]] on a dictionary. *)
Definition getitem {V : Type} (d : gmap string V) (k : string) : result V :=
  match d !! k with
  | Some v => Ok v
  | None => Raise (KeyError k)
  end.

(** [.replace([inf, -inf], 0).fillna(0)] on one cell. *)
Definition clean (x : float) : float :=
  let x := if is_inf x then Fin 0 else x in
  if is_nan x then Fin 0 else x.

Definition apply_standardizer (df : Frame) (stats : Stats) : result Frame :=
  let out := df in
  foldM
    (fun out c =>
       e ← getitem stats (name c);
       mu ← getitem e "mean";
       e' ← getitem stats (name c);
       sd ← getitem e' "std";
       Ok (set_column c (fun v => clean (fdiv (fsub v mu) sd)) out))
    out FEATURES.

(** [df.groupby("ticker")]: one group per ticker present, in ascending
    order of the ticker; a group keeps its rows in frame order; rows with a
    blank ticker belong to no group. *)
Definition groupby_ticker {D V : Type} (df : list (Row D V))
  : list (string * list (Row D V)) :=
  let keys := Pd.sort_values String.leb (remove_dups (omap ticker df)) in
  map (fun k => (k, filter (fun r => bool_decide (ticker r = Some k)) df)) keys.

(** A window is a [seq_len] x F matrix of binary32 values. *)
Abbreviation Window := (list (list float)).

(** The feature matrix and the label vector of a group, as float32. *)
Definition feats_of (g : Frame) : list (list float) :=
  map (fun r => map (fun c => to_float32 (get c r)) FEATURES) g.
Definition labels_of (g : Frame) : list float :=
  map (fun r => to_float32 (y_up r)) g.

(** Build sequences per ticker: for each index t, take the window
    [t-seq_len+1 .. t]; the features at t go with the label at t. *)
Definition make_sequences (df : Frame) (seq_len : Z)
  : result (list Window * list float) :=
  '(X_all, y_all) ←
    foldM
      (fun '(X_all, y_all) '(tkr, g) =>
         let feats := feats_of g in
         let labels := labels_of g in
         foldM
           (fun '(X_all, y_all) t =>
              let X_all := X_all ++ [Py.slice feats (Some (t - seq_len + 1)) (Some (t + 1))] in
              y ← Py.index labels t;
              Ok (X_all, y_all ++ [y]))
           (X_all, y_all) (Py.range (seq_len - 1) (Py.len g)))
      ([], []) (groupby_ticker df);
  X ← match X_all with
      | _ :: _ => Pd.stack X_all
      | [] => if seq_len <? 0 then Raise ValueError else Ok []
      end;
  Ok (X, y_all).

End Data.

(* ================================================================== *)
(** * Files and the console *)
(* ================================================================== *)

(** A JSON value as [json.load] returns it. *)
#[warnings="-register-all"]
Inductive json : Type :=
  | JNull
  | JBool (b : bool)
  | JInt (z : Z)
  | JFloat (x : float)
  | JStr (s : string)
  | JList (l : list json).

(** The lines the two programs print. *)
Inductive line : Type :=
  | EpochLine (epoch : Z) (tr_loss tr_acc va_loss va_acc : float)
  | EarlyStopping
  | TestLine (te_loss te_acc : float)
  | NoSequences
  | Header
  | Prediction (prob : float) (pred : Z).

(** [DataLoader] without shuffling: consecutive batches of [n] items. *)
Fixpoint chunks {A : Type} (fuel n : nat) (l : list A) : list (list A) :=
  match fuel with
  | O => []
  | S fuel' =>
      match l with
      | [] => []
      | _ :: _ => take n l :: chunks fuel' n (drop n l)
      end
  end.

(* ================================================================== *)
(** * [ml/train_lstm.py] *)
(* ================================================================== *)

Module Train.
Import Data.

(** The parsed command line ([--csv] and [--outdir] name the frame and
    the directory that [main] receives as [csv] and as the [World]). *)
Record Args : Type := mkArgs {
  seq_len : Z;
  batch : Z;
  hidden : Z;
  layers : Z;
  dropout : float;
  epochs : Z;
  patience : Z;
  lr : float;
  tickers : option (list string)
}.

Definition not_enough : string :=
  "Not enough data after sequence building. Try reducing --seq-len or export more rows.".

Section Torch.

(** The model is opaque: [Torch] is everything torch holds for a run
    (parameters, optimizer state, random generator), [Params] is a
    [state_dict]. *)
Variable Torch Params : Type.
(** [set_seed(42)], then [LSTMClassifier(in_features, hidden, layers,
    dropout)] and [Adam(lr)]. *)
Variable new_model : Z -> Z -> Z -> float -> float -> Torch.
(** One optimisation step on a batch: new state, logits, loss. *)
Variable train_step : Torch -> list Window -> list float -> Torch * list float * float.
(** The forward pass and the loss on a batch, without gradients. *)
Variable eval_step : Torch -> list Window -> list float -> list float * float.
Variable sigmoid : float -> float.
(** The order in which a shuffling [DataLoader] visits its items. *)
Variable shuffle : Torch -> list (Window * float) -> Torch * list (Window * float).
Variable state_dict : Torch -> Params.
Variable load_state_dict : Torch -> Params -> Torch.

(** The files of [outdir] and the console. *)
Record World : Type := mkWorld {
  scaler_json : option Stats;
  model_pt : option Params;
  meta_json : option (gmap string json);
  stdout : list line
}.

(** A command: it changes the world and returns or raises. *)
Definition Cmd (A : Type) : Type := World -> World * result A.

Definition ret {A : Type} (a : A) : Cmd A := fun w => (w, Ok a).
Definition bind {A B : Type} (m : Cmd A) (k : A -> Cmd B) : Cmd B :=
  fun w => match m w with
           | (w', Ok a) => k a w'
           | (w', Raise e) => (w', Raise e)
           end.
Definition lift {A : Type} (r : result A) : Cmd A := fun w => (w, r).
Definition print (l : line) : Cmd unit :=
  fun w => (mkWorld (scaler_json w) (model_pt w) (meta_json w) (stdout w ++ [l]), Ok tt).
Definition save_stats (stats : Stats) : Cmd unit :=
  fun w => (mkWorld (Some stats) (model_pt w) (meta_json w) (stdout w), Ok tt).
Definition torch_save (p : Params) : Cmd unit :=
  fun w => (mkWorld (scaler_json w) (Some p) (meta_json w) (stdout w), Ok tt).
Definition torch_load : Cmd Params :=
  fun w => (w, match model_pt w with
               | Some p => Ok p
               | None => Raise FileNotFoundError
               end).
Definition dump_meta (meta : gmap string json) : Cmd unit :=
  fun w => (mkWorld (scaler_json w) (model_pt w) (Some meta) (stdout w), Ok tt).

Notation "x <- m ;; k" := (bind m (fun x => k))
  (at level 100, m at next level, right associativity).
Notation "m ;;; k" := (bind m (fun _ => k))
  (at level 100, right associativity).

(** [(probs >= 0.5).float()] and the number of predictions equal to the
    target. *)
Definition preds_of (logits : list float) : list float :=
  map (fun l => if fgeb (sigmoid l) (lit 1 2) then lit 1 1 else Fin 0) logits.
Definition count_correct (preds yb : list float) : Z :=
  Py.len (filter (fun py => feqb py.1 py.2) (zip preds yb)).

(** A [DataLoader]; a batch size below 1 is refused. *)
Record Loader : Type := mkLoader {
  dataset : list (Window * float);
  batch_size : nat;
  shuffled : bool
}.

Definition DataLoader (X : list Window) (y : list float) (batch_size : Z)
    (shuffled : bool) : result Loader :=
  if batch_size <=? 0 then Raise ValueError
  else Ok (mkLoader (zip X y) (Z.to_nat batch_size) shuffled).

(** [for xb, yb in loader]: the batches of one pass. *)
Definition iterate (model : Torch) (loader : Loader)
  : Torch * list (list (Window * float)) :=
  let '(model, data) :=
    if shuffled loader then shuffle model (dataset loader)
    else (model, dataset loader) in
  (model, chunks (length data) (batch_size loader) data).

Definition train_one (model : Torch) (loader : Loader)
  : result (Torch * (float * float)) :=
  let '(model, bs) := iterate model loader in
  let '(model, total, correct, loss_sum) :=
    fold_left
      (fun '(model, total, correct, loss_sum) b =>
         let xb := b.*1 in
         let yb := b.*2 in
         let '(model, logits, loss) := train_step model xb yb in
         let preds := preds_of logits in
         (model, total + Py.len yb, correct + count_correct preds yb,
          fadd loss_sum (fmul loss (of_Z (Py.len yb)))))
      bs (model, 0, 0, Fin 0) in
  l ← Py.div_float_int loss_sum total;
  a ← Py.div_int_int correct total;
  Ok (model, (l, a)).

Definition evaluate (model : Torch) (loader : Loader)
  : result (Torch * (float * float)) :=
  let '(model, bs) := iterate model loader in
  let '(total, correct, loss_sum) :=
    fold_left
      (fun '(total, correct, loss_sum) b =>
         let xb := b.*1 in
         let yb := b.*2 in
         let '(logits, loss) := eval_step model xb yb in
         let preds := preds_of logits in
         (total + Py.len yb, correct + count_correct preds yb,
          fadd loss_sum (fmul loss (of_Z (Py.len yb)))))
      bs (0, 0, Fin 0) in
  l ← Py.div_float_int loss_sum total;
  a ← Py.div_int_int correct total;
  Ok (model, (l, a)).

(** The epoch loop of [main], with early stopping on the validation
    accuracy.  [train] and [eval] are one call of [train_one] and of
    [evaluate] on the loaders of [main]; [es] lists the epochs still to
    run. *)
Fixpoint training_loop
    (train : Torch -> result (Torch * (float * float)))
    (eval : Torch -> result (Torch * (float * float)))
    (args_patience : Z) (es : list Z)
    (model : Torch) (best_val_acc : float) (patience_left : Z) : Cmd Torch :=
  match es with
  | [] => ret model
  | epoch :: es' =>
      r <- lift (train model) ;;
      let '(model, (tr_loss, tr_acc)) := r in
      r <- lift (eval model) ;;
      let '(model, (va_loss, va_acc)) := r in
      print (EpochLine epoch tr_loss tr_acc va_loss va_acc) ;;;
      if fgtb va_acc (fadd best_val_acc (lit 1 (10 ^ 4))) then
        let best_val_acc := va_acc in
        let patience_left := args_patience in
        torch_save (state_dict model) ;;;
        training_loop train eval args_patience es' model best_val_acc patience_left
      else
        let patience_left := patience_left - 1 in
        if patience_left <=? 0 then
          print EarlyStopping ;;;
          ret model
        else
          training_loop train eval args_patience es' model best_val_acc patience_left
  end.

Definition main (args : Args) (csv : RawFrame)
    (to_datetime : string -> option Z) (to_numeric : string -> option float)
  : Cmd unit :=
  df <- lift (load_dataset to_datetime to_numeric csv (tickers args)) ;;
  (* time-based split *)
  s <- lift (time_split df (lit 7 10) (lit 15 100)) ;;
  let '(df_train, df_val, df_test) := s in
  (* standardize on TRAIN only, apply to all *)
  let stats := fit_standardizer df_train in
  save_stats stats ;;;
  df_train <- lift (apply_standardizer df_train stats) ;;
  df_val <- lift (apply_standardizer df_val stats) ;;
  df_test <- lift (apply_standardizer df_test stats) ;;
  (* make sequences *)
  tr <- lift (make_sequences df_train (seq_len args)) ;;
  va <- lift (make_sequences df_val (seq_len args)) ;;
  te <- lift (make_sequences df_test (seq_len args)) ;;
  let '(Xtr, ytr) := tr in
  let '(Xva, yva) := va in
  let '(Xte, yte) := te in
  if (Py.len Xtr =? 0) || (Py.len Xva =? 0) then
    lift (Raise (RuntimeError not_enough))
  else
    (* loaders *)
    tr_dl <- lift (DataLoader Xtr ytr (batch args) true) ;;
    va_dl <- lift (DataLoader Xva yva (batch args) false) ;;
    te_dl <- lift (DataLoader Xte yte (batch args) false) ;;
    (* model *)
    let model := new_model (Py.len FEATURES) (hidden args) (layers args)
                   (dropout args) (lr args) in
    (* training loop with early stopping on val accuracy *)
    model <- training_loop (fun m => train_one m tr_dl) (fun m => evaluate m va_dl)
               (patience args) (Py.range 1 (epochs args + 1))
               model (Fin 0) (patience args) ;;
    (* load best and evaluate on test *)
    p <- torch_load ;;
    let model := load_state_dict model p in
    r <- lift (evaluate model te_dl) ;;
    let '(model, (te_loss, te_acc)) := r in
    print (TestLine te_loss te_acc) ;;;
    (* save meta *)
    dump_meta
      {[ "features" := JList (map (fun c => JStr (name c)) FEATURES);
         "label" := JStr LABEL;
         "seq_len" := JInt (seq_len args);
         "hidden" := JInt (hidden args);
         "layers" := JInt (layers args);
         "dropout" := JFloat (dropout args);
         "test_accuracy" := JFloat te_acc ]}.

End Torch.
End Train.

(* ================================================================== *)
(** * [ml/predict_lstm.py] *)
(* ================================================================== *)

Module Predict.
Import Data.

(** The parsed command line ([--csv] and [--modeldir] name the frame
    and the files that [main] receives). *)
Record Args : Type := mkArgs {
  seq_len : Z;
  tickers : option (list string)
}.

(** [meta.get(key, default)]. *)
Definition get_default (meta : gmap string json) (key : string) (default : json)
  : json :=
  match meta !! key with
  | Some v => v
  | None => default
  end.

(** A Python value used where an [int] is required ([bool] is an [int]). *)
Definition as_int (v : json) : result Z :=
  match v with
  | JInt z => Ok z
  | JBool b => Ok (if b then 1 else 0)
  | _ => Raise TypeError
  end.

Section Torch.

Variable Torch Params : Type.
(** [LSTMClassifier(in_features, hidden, layers, dropout)] on the values
    read from the metadata, and [load_state_dict]; both may refuse. *)
Variable LSTMClassifier : Z -> json -> json -> json -> result Torch.
Variable load_state_dict : Torch -> Params -> result Torch.
(** [model(X)] in evaluation mode. *)
Variable forward : Torch -> list Window -> list float.
Variable sigmoid : float -> float.

(** [open(path)] on a file that may be missing. *)
Definition open {A : Type} (f : option A) : result A :=
  match f with
  | Some a => Ok a
  | None => Raise FileNotFoundError
  end.

(** The window length the predictor uses. *)
Definition seq_len_used (args : Args) (meta : gmap string json) : json :=
  get_default meta "seq_len" (JInt (seq_len args)).

Definition main (args : Args)
    (meta_json : option (gmap string json)) (scaler_json : option Stats)
    (model_pt : option Params) (csv : RawFrame)
    (to_datetime : string -> option Z) (to_numeric : string -> option float)
  : result (list line) :=
  (* load meta & scaler *)
  meta ← open meta_json;
  stats ← open scaler_json;
  let seq_len := seq_len_used args meta in
  df ← load_dataset to_datetime to_numeric csv (tickers args);
  df ← apply_standardizer df stats;
  n ← as_int seq_len;
  '(X, y) ← make_sequences df n;
  if Py.len X =? 0 then Ok [NoSequences]
  else
    hidden ← getitem meta "hidden";
    layers ← getitem meta "layers";
    dropout ← getitem meta "dropout";
    model ← LSTMClassifier (Py.len FEATURES) hidden layers dropout;
    p ← open model_pt;
    model ← load_state_dict model p;
    let logits := forward model X in
    let probs := map sigmoid logits in
    let preds := map (fun p => if fgeb p (lit 1 2) then 1 else 0) probs in
    (* show last few *)
    out ← foldM
      (fun out i =>
         if i + Py.len probs <? 0 then Ok out
         else
           prob ← Py.index probs i;
           pred ← Py.index preds i;
           Ok (out ++ [Prediction prob pred]))
      [Header] (Py.range (-10) 0);
    Ok out.

End Torch.
End Predict.

(* ================================================================== *)
(** * Vocabulary of the statements *)
(* ================================================================== *)

(** The value of a finite float rounded down to an integer. *)
Definition floor (x : float) : option Z :=
  match x with
  | Fin z => Some (z / one_u)
  | _ => None
  end.

(** The grid integer of a finite float (0 for the others). *)
Definition grid (x : float) : Z :=
  match x with
  | Fin z => z
  | _ => 0
  end.

(** floor(N * x) in exact arithmetic, for a row count [N] and the number
    x = z * 2^-1074 that the finite float [Fin z] stands for. *)
Definition exact_floor (N z : Z) : Z := N * z / one_u.

Import Data.

(** The i-th window of a group for the window length [S], with the label
    that goes with it, and the windows of a group in order. *)
Definition window_at (g : Frame) (S : Z) (i : nat) : Window * float :=
  (take (Z.to_nat S) (drop i (feats_of g)),
   default NaN (labels_of g !! (Z.to_nat S - 1 + i)%nat)).

Definition group_sequences (g : Frame) (S : Z) : list (Window * float) :=
  map (window_at g S) (seq 0 (Z.to_nat (Py.len g - S + 1))).

(** The per-ticker group of the ticker [k]: the rows of the frame with
    that ticker, in the order of the frame. *)
Definition rows_of (k : string) (df : Frame) : Frame :=
  filter (fun r => bool_decide (ticker r = Some k)) df.

(** A row of ticker [t] at date [d] whose features all equal [x]. *)
Definition flat_row (t : string) (d : Z) (x y : float) : Row Timestamp float :=
  mkRow (Some t) (Some d) x x x x x x x x x x y.

(** Scenario A: two tickers of 50 rows each. *)
Definition scenario_A : Frame :=
  map (fun i : nat => flat_row "AAA" (Z.of_nat i) (Fin 0) (Fin 0)) (seq 0 50)
  ++ map (fun i : nat => flat_row "BBB" (Z.of_nat i) (Fin 0) (Fin 0)) (seq 0 50).

(** The rows of the source that the loader keeps: those with a label
    that pass the ticker filter, in the order of the source. *)
Definition kept (csv : RawFrame) (tickers : option (list string)) : RawFrame :=
  let df := filter (fun r => negb (is_nan (y_up r))) csv in
  match tickers with
  | None | Some [] => df
  | Some ts => filter (fun r => isin (ticker r) ts) df
  end.

(** A kept row as the loader returns it, and after the date column alone
    is parsed (an unparsable date is shown as NaT here; the loader raises). *)
Definition loaded (to_datetime : string -> option Z) (to_numeric : string -> option float)
    (r : Row (option string) cell) : Row Timestamp float :=
  map_row (date r ≫= to_datetime) (fun _ v => coerce to_numeric v) r.

Definition parsed (to_datetime : string -> option Z)
    (r : Row (option string) cell) : Row Timestamp cell :=
  map_row (date r ≫= to_datetime) (fun _ v => v) r.

(** Two rows compare equal on (ticker, date). *)
Definition same_key {V : Type} (r1 r2 : Row Timestamp V) : Prop :=
  ticker r1 = ticker r2 /\ date r1 = date r2.

#[global] Instance same_key_dec {V : Type} (r1 r2 : Row Timestamp V) :
  Decision (same_key r1 r2).
Proof. unfold same_key. apply _. Defined.

(** The order of the specification, spelled out.  A name is before
    another when it is a proper prefix of it or has the smaller character
    code at the first place where the two differ (the order of Python's
    [str]). *)
Fixpoint name_before (a b : string) : Prop :=
  match a, b with
  | _, EmptyString => False
  | EmptyString, String _ _ => True
  | String c a', String d b' =>
      (nat_of_ascii c < nat_of_ascii d)%nat \/ (c = d /\ name_before a' b')
  end.

(** Ticker ascending: a blank ticker comes after every name. *)
Definition ticker_before (t1 t2 : option string) : Prop :=
  match t1, t2 with
  | Some a, Some b => name_before a b
  | Some _, None => True
  | None, _ => False
  end.

(** Date ascending: a missing date comes after every date. *)
Definition date_not_after (d1 d2 : Timestamp) : Prop :=
  match d1, d2 with
  | Some a, Some b => a <= b
  | _, None => True
  | None, Some _ => False
  end.

(** (ticker ascending, date ascending): the ticker decides, and the date
    decides between rows of one ticker. *)
Definition in_key_order {V : Type} (r1 r2 : Row Timestamp V) : Prop :=
  ticker_before (ticker r1) (ticker r2) \/
  (ticker r1 = ticker r2 /\ date_not_after (date r1) (date r2)).



(** What [apply_standardizer] leaves in a cell: z, or 0 when z is infinite
    or missing. *)
Definition zero_if_bad (z : float) : float :=
  if is_inf z || is_nan z then Fin 0 else z.

(** A row standardized with the means and deviations [mean] and [std]. *)
Definition standardized (mean std : Feature -> float) (r : Row Timestamp float)
  : Row Timestamp float :=
  map_row (date r) (fun c v => zero_if_bad (fdiv (fsub v (mean c)) (std c))) r.

(** The statistics document holds [mean c] and [std c] for every feature. *)
Definition holds (stats : Stats) (mean std : Feature -> float) : Prop :=
  forall c, exists e, stats !! name c = Some e /\
                      e !! "mean" = Some (mean c) /\ e !! "std" = Some (std c).

(** A statistics document with the same mean and deviation everywhere. *)
Definition uniform_stats (mu sd : float) : Stats :=
  fold_left (fun (s : Stats) c => <[name c := {[ "mean" := mu; "std" := sd ]}]> s)
    FEATURES ∅.



(** The values of a column that are neither missing nor infinite. *)
Definition is_finite (v : float) : bool := negb (is_inf v || is_nan v).
Definition finite_values (xs : list float) : list float :=
  filter (fun v => is_finite v) xs.

(** Mean and (population) standard deviation of a list of values. *)
Definition mean_of (vs : list float) : float :=
  fdiv (Pd.np_sum vs) (of_Z (Py.len vs)).
Definition std_of (vs : list float) : float :=
  fsqrt (fdiv (Pd.np_sum (map (fun v => fmul (fsub v (mean_of vs)) (fsub v (mean_of vs))) vs))
              (of_Z (Py.len vs))).

(** The entry [fit_standardizer] records for a feature with values [vs]. *)
Definition fitted (vs : list float) : gmap string float :=
  {[ "mean" := mean_of vs;
     "std" := if fgtb (std_of vs) (lit 1 (10 ^ 12)) then std_of vs else lit 1 1 ]}.

(** The column as [fit_standardizer] reads it: infinities become NaN. *)
Definition inf_to_nan (col : list float) : list float :=
  map (fun v => if is_inf v then NaN else v) col.


(** A row whose feature [Score] is [x]; its other features are 0. *)
Definition score_row (d : Z) (x : float) : Row Timestamp float :=
  mkRow (Some "AAA") (Some d) x (Fin 0) (Fin 0) (Fin 0) (Fin 0) (Fin 0) (Fin 0)
    (Fin 0) (Fin 0) (Fin 0) (Fin 0).

(** Mean and deviation that [fit_standardizer] records for a feature. *)
Definition fitted_mean (train_df : Frame) (c : Feature) : float :=
  mean_of (finite_values (column c train_df)).
Definition fitted_std (train_df : Frame) (c : Feature) : float :=
  let s := std_of (finite_values (column c train_df)) in
  if fgtb s (lit 1 (10 ^ 12)) then s else lit 1 1.


(** ** Vocabulary for the training and the scoring program *)

Import Train.

Arguments mkWorld {Params}.
Arguments scaler_json {Params}.
Arguments model_pt {Params}.
Arguments meta_json {Params}.
Arguments stdout {Params}.
Arguments bind {Params A B}.
Arguments ret {Params A}.
Arguments lift {Params A}.
Arguments print {Params}.
Arguments torch_save {Params}.
Arguments torch_load {Params}.
Arguments save_stats {Params}.
Arguments dump_meta {Params}.
Arguments train_one {Torch}.
Arguments evaluate {Torch}.
Arguments training_loop {Torch Params}.
Arguments main {Torch Params}.
Arguments Predict.main {Torch Params}.

(** The epochs whose line a run printed, and the validation accuracies
    of these lines. *)
Definition epochs_of (out : list line) : list Z :=
  omap (fun l => match l with EpochLine e _ _ _ _ => Some e | _ => None end) out.
Definition val_accs_of (out : list line) : list float :=
  omap (fun l => match l with EpochLine _ _ _ _ va => Some va | _ => None end) out.

(** A scripted trainer: its state counts the epochs trained, and the
    evaluation after epoch k reports the k-th accuracy of [accs]. *)
Definition scripted_train (m : nat) : result (nat * (float * float)) :=
  Ok (S m, (Fin 0, Fin 0)).
Definition scripted_eval (accs : list float) (m : nat)
  : result (nat * (float * float)) :=
  Ok (m, (Fin 0, default NaN (accs !! (m - 1)%nat))).

(** Scenario C: the validation accuracies of four successive epochs. *)
Definition scenario_C : list float :=
  [lit 50 100; lit 51 100; lit 51 100; lit 51 100].

(** The exception of insufficient data is a [RuntimeError]. *)
Definition is_runtime_error (e : exn) : bool :=
  match e with RuntimeError _ => true | _ => false end.

(** The pipeline of [Train.main] up to the three calls of
    [make_sequences]: the statistics and the three sets of sequences. *)
Definition sequences (args : Args) (csv : RawFrame)
    (to_datetime : string -> option Z) (to_numeric : string -> option float)
  : result (Stats * (list Window * list float) * (list Window * list float)
            * (list Window * list float)) :=
  df ← load_dataset to_datetime to_numeric csv (tickers args);
  s ← time_split df (lit 7 10) (lit 15 100);
  let '(df_train, df_val, df_test) := s in
  let stats := fit_standardizer df_train in
  df_train ← apply_standardizer df_train stats;
  df_val ← apply_standardizer df_val stats;
  df_test ← apply_standardizer df_test stats;
  tr ← make_sequences df_train (seq_len args);
  va ← make_sequences df_val (seq_len args);
  te ← make_sequences df_test (seq_len args);
  Ok (stats, tr, va, te).

(** A command that never raises a [RuntimeError], and a command that
    leaves the statistics file alone. *)
Definition quiet {Params A : Type} (c : Cmd Params A) : Prop :=
  forall w e, (c w).2 = Raise e -> is_runtime_error e = false.
Definition keeps_scaler {Params A : Type} (c : Cmd Params A) : Prop :=
  forall w, scaler_json (c w).1 = scaler_json w.
Definition tame {Params A : Type} (c : Cmd Params A) : Prop :=
  quiet c /\ keeps_scaler c.

(** A source row of ticker AAA whose [Score] cell is [x]. *)
Definition raw_row (d : string) (x y : float) : Row (option string) cell :=
  Data.mkRow (Some "AAA") (Some d) (CNum x) (CNum (Fin 0)) (CNum (Fin 0)) (CNum (Fin 0))
    (CNum (Fin 0)) (CNum (Fin 0)) (CNum (Fin 0)) (CNum (Fin 0)) (CNum (Fin 0))
    (CNum (Fin 0)) y.

(** A date parser for the examples: the date is the length of its text. *)
Definition toy_datetime (s : string) : option Z := Some (Z.of_nat (String.length s)).
Definition no_numeric (s : string) : option float := None.

(** A trainer for the examples: a model without parameters that scores
    every window 0. *)
Definition toy_new_model : Z -> Z -> Z -> float -> float -> unit :=
  fun _ _ _ _ _ => tt.
Definition toy_train_step (m : unit) (xb : list Window) (yb : list float)
  : unit * list float * float :=
  (m, map (fun _ => Fin 0) xb, Fin 0).
Definition toy_eval_step (m : unit) (xb : list Window) (yb : list float)
  : list float * float :=
  (map (fun _ => Fin 0) xb, Fin 0).
Definition toy_sigmoid (x : float) : float := x.
Definition toy_shuffle (m : unit) (l : list (Window * float))
  : unit * list (Window * float) := (m, l).
Definition toy_state_dict (m : unit) : unit := tt.
Definition toy_load_state_dict (m : unit) (p : unit) : unit := tt.

Abbreviation toy_main args csv :=
  (main toy_new_model toy_train_step toy_eval_step toy_sigmoid toy_shuffle
     toy_state_dict toy_load_state_dict args csv toy_datetime no_numeric).

Definition toy_args (seq_len : Z) : Args :=
  Train.mkArgs seq_len 128 64 1 (lit 1 10) 30 5 (lit 1 1000) None.

(** Three rows of one ticker: too few for a window of 30 rows. *)
Definition tiny_csv : RawFrame :=
  [raw_row "bb" (Fin 0) (Fin 0); raw_row "a" (Fin 0) (Fin one_u);
   raw_row "ccc" (Fin 0) NaN].

(** A scoring model for the examples: it scores every window 0. *)
Definition flat_model : Z -> json -> json -> json -> result unit :=
  fun _ _ _ _ => Ok tt.
Definition flat_load (m : unit) (p : unit) : result unit := Ok m.
Definition flat_forward (m : unit) (X : list Window) : list float :=
  map (fun _ => Fin 0) X.

(** ** Vocabulary for the further properties *)

(** The mean and the deviation that [apply_standardizer] reads for a
    feature: [stats[c]["mean"], stats[c]["std"]]. *)
Definition entry (stats : Stats) (c : Feature) : result (float * float) :=
  e ← getitem stats (name c);
  mu ← getitem e "mean";
  e' ← getitem stats (name c);
  sd ← getitem e' "std";
  Ok (mu, sd).

(** The lines of one epoch. *)
Definition is_epoch_line (l : line) : bool :=
  match l with EpochLine _ _ _ _ _ => true | _ => false end.

(** A command that leaves the metadata file alone. *)
Definition keeps_meta {Params A : Type} (c : Cmd Params A) : Prop :=
  forall w, meta_json (c w).1 = meta_json w.

(** The metadata [main] writes for the arguments [args] and the test
    accuracy [te_acc]. *)
Definition meta_of (args : Args) (te_acc : float) : gmap string json :=
  {[ "features" := JList (map (fun c => JStr (name c)) FEATURES);
     "label" := JStr LABEL;
     "seq_len" := JInt (seq_len args);
     "hidden" := JInt (hidden args);
     "layers" := JInt (layers args);
     "dropout" := JFloat (dropout args);
     "test_accuracy" := JFloat te_acc ]}.

Section Tail.
Context {Torch Params : Type}.
Variable new_model : Z -> Z -> Z -> float -> float -> Torch.
Variable train_step : Torch -> list Window -> list float -> Torch * list float * float.
Variable eval_step : Torch -> list Window -> list float -> list float * float.
Variable sigmoid : float -> float.
Variable shuffle : Torch -> list (Window * float) -> Torch * list (Window * float).
Variable state_dict : Torch -> Params.
Variable load_state_dict : Torch -> Params -> Torch.

(** [main] from the loaders to the test evaluation and the metadata
    (train_lstm.py, lines 91 to 136), on the sequences of the three
    splits. *)
Definition train_and_test (args : Args)
    (Xtr : list Window) (ytr : list float) (Xva : list Window) (yva : list float)
    (Xte : list Window) (yte : list float) : Cmd Params unit :=
  bind (lift (DataLoader Xtr ytr (batch args) true)) (fun tr_dl =>
  bind (lift (DataLoader Xva yva (batch args) false)) (fun va_dl =>
  bind (lift (DataLoader Xte yte (batch args) false)) (fun te_dl =>
  let model := new_model (Py.len FEATURES) (hidden args) (layers args)
                 (dropout args) (lr args) in
  bind (training_loop state_dict
          (fun m => train_one train_step sigmoid shuffle m tr_dl)
          (fun m => evaluate eval_step sigmoid shuffle m va_dl)
          (patience args) (Py.range 1 (epochs args + 1))
          model (Fin 0) (patience args)) (fun model =>
  bind torch_load (fun p =>
  let model := load_state_dict model p in
  bind (lift (evaluate eval_step sigmoid shuffle model te_dl)) (fun r =>
  let '(model, (te_loss, te_acc)) := r in
  bind (print (TestLine te_loss te_acc)) (fun _ =>
  dump_meta (meta_of args te_acc)))))))).

End Tail.

(** A source row with the ticker [t], the date [d] and the label [y];
    its features are 0. *)
Definition raw_row_of (t : option string) (d : string) (y : float)
  : Row (option string) cell :=
  Data.mkRow t (Some d) (CNum (Fin 0)) (CNum (Fin 0)) (CNum (Fin 0)) (CNum (Fin 0))
    (CNum (Fin 0)) (CNum (Fin 0)) (CNum (Fin 0)) (CNum (Fin 0)) (CNum (Fin 0))
    (CNum (Fin 0)) y.

(** Arguments for the examples: window length and number of epochs. *)
Definition toy_args_epochs (seq_len epochs : Z) : Args :=
  Train.mkArgs seq_len 128 64 1 (lit 1 10) epochs 5 (lit 1 1000) None.

(** Seven rows of one ticker, in date order, with the label 0. *)
Definition week_csv : RawFrame :=
  map (fun d => raw_row_of (Some "AAA") d (Fin 0))
    ["a"; "bb"; "ccc"; "dddd"; "eeeee"; "ffffff"; "ggggggg"].



(** A computation that returned. *)
Definition is_ok {A : Type} (r : result A) : bool :=
  match r with Ok _ => true | Raise _ => false end.

(** The value a computation returned, or [d] when it raised. *)
Definition ok_or {A : Type} (d : A) (r : result A) : A :=
  match r with Ok a => a | Raise _ => d end.

(** Metadata for the examples: a window of one row. *)
Definition toy_meta : gmap string json :=
  {[ "seq_len" := JInt 1; "hidden" := JInt 64; "layers" := JInt 1;
     "dropout" := JFloat (Fin 0) ]}.

(** The lines the predictor prints for the probabilities [probs]: the
    header, then the last ten probabilities at most, oldest first, each
    with its class. *)
Definition shown (probs : list float) : list line :=
  Header :: map (fun p => Prediction p (if fgeb p (lit 1 2) then 1 else 0))
              (drop (length probs - 10) probs).

Section Scoring.
Context {Torch Params : Type}.
Variable LSTMClassifier : Z -> json -> json -> json -> result Torch.
Variable load_state_dict : Torch -> Params -> result Torch.
Variable forward : Torch -> list Window -> list float.
Variable sigmoid : float -> float.

(** The scoring run whose windows are built with the window length [v]:
    the frame of the tickers asked for is loaded, standardized with the
    stored statistics and cut into windows of [v] rows; the model of the
    metadata scores the windows.  The argument [--seq-len] is no part of
    it. *)
Definition predict_with (v : json) (tickers : option (list string))
    (meta : gmap string json) (scaler_json : option Stats)
    (model_pt : option Params) (csv : RawFrame)
    (to_datetime : string -> option Z) (to_numeric : string -> option float)
  : result (list line) :=
  stats ← Predict.open scaler_json;
  df ← load_dataset to_datetime to_numeric csv tickers;
  df ← apply_standardizer df stats;
  S ← Predict.as_int v;
  '(X, y) ← make_sequences df S;
  if Py.len X =? 0 then Ok [NoSequences]
  else
    hidden ← getitem meta "hidden";
    layers ← getitem meta "layers";
    dropout ← getitem meta "dropout";
    model ← LSTMClassifier (Py.len FEATURES) hidden layers dropout;
    p ← Predict.open model_pt;
    model ← load_state_dict model p;
    Ok (shown (map sigmoid (forward model X))).
End Scoring.

(** * The [--tickers] argument

    Strings of the command line: a string is the list of its characters,
    a character is a code point below 256. *)
Module Str.

(** [str.isspace] on one character: the white space below 256 is
    U+0009 to U+000D, U+001C to U+0020, U+0085 and U+00A0. *)
Definition isspace (a : ascii) : bool :=
  let n := N_of_ascii a in
  (((9 <=? n) && (n <=? 13)) || ((28 <=? n) && (n <=? 32))
   || (n =? 133) || (n =? 160))%N.

Fixpoint lstrip (s : string) : string :=
  match s with
  | EmptyString => EmptyString
  | String a s' => if isspace a then lstrip s' else s
  end.

Fixpoint rstrip (s : string) : string :=
  match s with
  | EmptyString => EmptyString
  | String a s' =>
      match rstrip s' with
      | EmptyString => if isspace a then EmptyString else String a EmptyString
      | r => String a r
      end
  end.

(** [s.strip()] *)
Definition strip (s : string) : string := rstrip (lstrip s).

(** [s.split(sep)] for a separator of one character. *)
Fixpoint split (sep : ascii) (s : string) : list string :=
  match s with
  | EmptyString => [EmptyString]
  | String a s' =>
      if Ascii.eqb a sep then EmptyString :: split sep s'
      else match split sep s' with
           | h :: t => String a h :: t
           | [] => [String a EmptyString]
           end
  end.

(** [sep.join(l)] *)
Fixpoint join (sep : ascii) (l : list string) : string :=
  match l with
  | [] => EmptyString
  | [x] => x
  | x :: l' => String.append x (String sep (join sep l'))
  end.

(** [c in s] *)
Fixpoint mem (c : ascii) (s : string) : bool :=
  match s with
  | EmptyString => false
  | String a s' => Ascii.eqb a c || mem c s'
  end.

(** Every character of [s] passes the test [p]. *)
Fixpoint all (p : ascii -> bool) (s : string) : bool :=
  match s with
  | EmptyString => true
  | String a s' => p a && all p s'
  end.

End Str.

(** The list of tickers both programs build from [--tickers]:
    [[t.strip() for t in args.tickers.split(",") if t.strip()]
     if args.tickers else None]. *)
Definition parse_tickers (tickers : string) : option (list string) :=
  if decide (tickers = "") then None
  else Some (map Str.strip
               (filter (fun t => Str.strip t <> "") (Str.split "," tickers))).
(* ================================================================== *)
(** * Facts about rounding *)
(* ================================================================== *)

(** The arithmetic is not to be unfolded by simplification. *)
Arguments one_u : simpl never.
Arguments round64 : simpl never.
Arguments round32 : simpl never.
Arguments lit : simpl never.
Arguments of_Z : simpl never.

Section Rounding.

Lemma rne_eq a b :
  rne a b = if 2 * (a mod b) <? b then a / b
            else if b <? 2 * (a mod b) then a / b + 1
            else if Z.even (a / b) then a / b else a / b + 1.
Proof.
  unfold rne, Z.div, Z.modulo. destruct (Z.div_eucl a b). reflexivity.
Qed.

(** [rne a b] lies between the integers that bound a/b. *)
Lemma rne_int_le a b m : 0 < b -> a <= m * b -> rne a b <= m.
Proof.
  intros Hb H. rewrite rne_eq.
  pose proof (Z.div_mod a b ltac:(lia)) as E.
  pose proof (Z.mod_pos_bound a b Hb) as R.
  set (f := a / b) in *. set (r := a mod b) in *.
  assert (f <= m) by nia.
  destruct (2 * r <? b) eqn:E1; [lia|].
  assert (f < m \/ (f = m /\ r = 0)) as [?|[-> ->]] by nia.
  - destruct (b <? 2 * r), (Z.even f); lia.
  - lia.
Qed.

Lemma rne_int_ge a b m : 0 < b -> m * b <= a -> m <= rne a b.
Proof.
  intros Hb H. rewrite rne_eq.
  pose proof (Z.div_mod a b ltac:(lia)) as E.
  pose proof (Z.mod_pos_bound a b Hb) as R.
  set (f := a / b) in *. set (r := a mod b) in *.
  assert (m <= f) by nia.
  destruct (2 * r <? b), (b <? 2 * r), (Z.even f); lia.
Qed.

Lemma rne_exact m b : 0 < b -> rne (m * b) b = m.
Proof.
  intros Hb. apply Z.le_antisymm.
  - apply rne_int_le; lia.
  - apply rne_int_ge; lia.
Qed.

(** The rounded integer is within one half of a/b, and at exactly one
    half it is even. *)
Lemma rne_upper a b : 0 < b ->
  2 * b * rne a b <= 2 * a + b /\
  (2 * b * rne a b = 2 * a + b -> Z.even (rne a b) = true).
Proof.
  intros Hb. rewrite rne_eq.
  pose proof (Z.div_mod a b ltac:(lia)) as E.
  pose proof (Z.mod_pos_bound a b Hb) as R.
  set (f := a / b) in *. set (r := a mod b) in *.
  destruct (2 * r <? b) eqn:E1; [split; [nia|intros; nia]|].
  destruct (b <? 2 * r) eqn:E2; [split; [nia|intros; nia]|].
  destruct (Z.even f) eqn:E3; [split; [nia|intros; nia]|].
  split; [nia|]. intros _. rewrite Z.even_add, E3. reflexivity.
Qed.

Lemma rne_lower a b : 0 < b ->
  2 * a <= 2 * b * rne a b + b /\
  (2 * a = 2 * b * rne a b + b -> Z.even (rne a b) = true).
Proof.
  intros Hb. rewrite rne_eq.
  pose proof (Z.div_mod a b ltac:(lia)) as E.
  pose proof (Z.mod_pos_bound a b Hb) as R.
  set (f := a / b) in *. set (r := a mod b) in *.
  destruct (2 * r <? b) eqn:E1; [split; [nia|intros; nia]|].
  destruct (b <? 2 * r) eqn:E2; [split; [nia|intros; nia]|].
  destruct (Z.even f) eqn:E3; [split; [nia|intros; auto]|].
  split; [nia|]. intros; nia.
Qed.

(** Rounding to the nearest integer is monotone: a/b <= a'/b' is written
    a * b' <= a' * b. *)
Lemma rne_mono a b a' b' :
  0 < b -> 0 < b' -> a * b' <= a' * b -> rne a b <= rne a' b'.
Proof.
  intros Hb Hb' H.
  destruct (rne_upper a b Hb) as [U Ue].
  destruct (rne_lower a' b' Hb') as [L Le].
  set (k := rne a b) in *. set (k' := rne a' b') in *.
  destruct (Z_le_gt_dec k k') as [|G]; [assumption|exfalso].
  assert (K1 : (2 * k - 1) * (b * b') <= 2 * (a * b')) by nia.
  assert (K2 : 2 * (a' * b) <= (2 * k' + 1) * (b * b')) by nia.
  assert (Hbb : 0 < b * b') by nia.
  assert (Hk : k = k' + 1) by nia.
  assert (T1 : 2 * b * k = 2 * a + b) by nia.
  assert (T2 : 2 * a' = 2 * b' * k' + b') by nia.
  specialize (Ue T1). specialize (Le T2).
  rewrite Hk, Z.even_add, Le in Ue. discriminate.
Qed.

Lemma div_le_cross a b a' b' :
  0 < b -> 0 < b' -> a * b' <= a' * b -> a / b <= a' / b'.
Proof.
  intros Hb Hb' H.
  apply Z.div_le_lower_bound; [assumption|].
  pose proof (Z.mul_div_le a b Hb).
  nia.
Qed.

Lemma quantum_ge p s a b : s <= quantum p s a b.
Proof. unfold quantum; lia. Qed.

Lemma quantum_mono p s a b a' b' :
  0 < b -> 0 < b' -> a * b' <= a' * b ->
  quantum p s a b <= quantum p s a' b'.
Proof.
  intros Hb Hb' H. unfold quantum.
  pose proof (div_le_cross a b a' b' Hb Hb' H) as Hd.
  pose proof (Z.log2_le_mono (a / b) (a' / b') Hd). lia.
Qed.

(** a/b lies below the top of the binade its quantum belongs to ... *)
Lemma quantum_upper p s a b :
  0 <= a -> 0 < b -> 0 <= s -> 0 < p -> a < b * 2 ^ (quantum p s a b + p).
Proof.
  intros Ha Hb Hs Hp.
  set (e := quantum p s a b).
  assert (He : Z.log2 (a / b) + 1 <= e + p) by (unfold e, quantum; lia).
  assert (Hq : a / b < 2 ^ (e + p)).
  { destruct (Z.eq_dec (a / b) 0) as [->|Hn].
    - apply Z.pow_pos_nonneg; unfold e, quantum; lia.
    - assert (Hpos : 0 < a / b) by (pose proof (Z.div_pos a b Ha Hb); lia).
      pose proof (Z.log2_spec (a / b) Hpos) as [_ Hlt].
      eapply Z.lt_le_trans; [exact Hlt|].
      apply Z.pow_le_mono_r; lia. }
  destruct (Z_lt_le_dec a (b * 2 ^ (e + p))) as [|Hc]; [assumption|].
  apply Z.div_le_lower_bound in Hc; [lia|assumption].
Qed.

(** ... and, above the subnormal range, at or above its bottom. *)
Lemma quantum_lower p s a b :
  0 <= a -> 0 < b -> 0 <= s -> 0 < p -> s < quantum p s a b ->
  b * 2 ^ (quantum p s a b + p - 1) <= a.
Proof.
  intros Ha Hb Hs Hp Hlt.
  unfold quantum in *.
  assert (E : Z.max s (Z.log2 (a / b) - (p - 1)) = Z.log2 (a / b) - (p - 1)) by lia.
  rewrite E in *.
  replace (Z.log2 (a / b) - (p - 1) + p - 1) with (Z.log2 (a / b)) by lia.
  assert (Hl : 0 < Z.log2 (a / b)) by lia.
  assert (Hpos : 0 < a / b).
  { destruct (Z_lt_le_dec 0 (a / b)) as [|Hc]; [assumption|].
    rewrite (Z.log2_nonpos _ Hc) in Hl. lia. }
  pose proof (Z.log2_spec (a / b) Hpos) as [Hle _].
  pose proof (Z.mul_div_le a b Hb). nia.
Qed.

(** Rounding to a format is monotone on the non-negative rationals. *)
Lemma round_mag_mono p s a b a' b' :
  0 < p -> 0 <= s -> 0 <= a -> 0 < b -> 0 < b' -> a * b' <= a' * b ->
  round_mag p s a b <= round_mag p s a' b'.
Proof.
  intros Hp Hs Ha Hb Hb' H.
  assert (Ha' : 0 <= a') by nia.
  pose proof (quantum_mono p s a b a' b' Hb Hb' H) as Hq.
  pose proof (quantum_ge p s a b) as Hge.
  unfold round_mag.
  set (e := quantum p s a b) in *. set (e' := quantum p s a' b') in *.
  assert (P : 0 < 2 ^ e) by (apply Z.pow_pos_nonneg; lia).
  assert (P' : 0 < 2 ^ e') by (apply Z.pow_pos_nonneg; lia).
  destruct (Z.eq_dec e e') as [<-|Hne].
  - apply Z.mul_le_mono_nonneg_r; [lia|].
    apply rne_mono; nia.
  - assert (Hlt : e + 1 <= e') by lia.
    pose proof (quantum_upper p s a b Ha Hb Hs Hp) as U. fold e in U.
    pose proof (quantum_lower p s a' b' Ha' Hb' Hs Hp ltac:(fold e'; lia)) as L.
    fold e' in L.
    assert (U1 : rne a (b * 2 ^ e) <= 2 ^ p).
    { apply rne_int_le; [nia|]. rewrite Z.pow_add_r in U by lia. nia. }
    assert (L1 : 2 ^ (p - 1) <= rne a' (b' * 2 ^ e')).
    { apply rne_int_ge; [nia|].
      replace (e' + p - 1) with (e' + (p - 1)) in L by lia.
      rewrite Z.pow_add_r in L by lia. nia. }
    assert (2 ^ p * 2 ^ e <= 2 ^ (p - 1) * 2 ^ e').
    { rewrite <- !Z.pow_add_r by lia. apply Z.pow_le_mono_r; lia. }
    assert (0 < 2 ^ (p - 1)) by (apply Z.pow_pos_nonneg; lia).
    assert (0 < 2 ^ p) by (apply Z.pow_pos_nonneg; lia).
    nia.
Qed.

(** Rounding depends on the rational, not on the fraction that names it. *)
Lemma round_mag_scale p s a b c :
  0 <= s -> 0 < b -> 0 < c -> round_mag p s (a * c) (b * c) = round_mag p s a b.
Proof.
  intros Hs Hb Hc. unfold round_mag, quantum.
  rewrite Z.div_mul_cancel_r by lia.
  set (e := Z.max s _).
  f_equal.
  assert (P : 0 < 2 ^ e) by (apply Z.pow_pos_nonneg; unfold e; lia).
  apply Z.le_antisymm; apply rne_mono; nia.
Qed.

(** A multiple of its own quantum is left alone. *)
Lemma round_mag_exact p s a :
  0 <= s -> (2 ^ quantum p s a 1 | a) -> round_mag p s a 1 = a.
Proof.
  intros Hs [m Hm]. unfold round_mag.
  set (e := quantum p s a 1) in *.
  assert (P : 0 < 2 ^ e)
    by (apply Z.pow_pos_nonneg; pose proof (quantum_ge p s a 1); lia).
  rewrite Z.mul_1_l. rewrite Hm at 1. rewrite rne_exact by assumption. lia.
Qed.

Lemma round_mag_pow2 p s k :
  0 < p -> 0 <= s -> s <= k -> round_mag p s (2 ^ k) 1 = 2 ^ k.
Proof.
  intros Hp Hs Hk. apply round_mag_exact; [assumption|].
  unfold quantum. rewrite Z.div_1_r, Z.log2_pow2 by lia.
  set (e := Z.max s (k - (p - 1))).
  exists (2 ^ (k - e)). rewrite <- Z.pow_add_r by lia. f_equal. lia.
Qed.

Lemma round_mag_0 p s b : 0 < b -> 0 <= s -> round_mag p s 0 b = 0.
Proof.
  intros Hb Hs.
  replace 0 with (0 * b) at 1 by lia. replace b with (1 * b) at 2 by lia.
  rewrite round_mag_scale by lia.
  apply round_mag_exact; [assumption|]. apply Z.divide_0_r.
Qed.

Lemma round_mag_nonneg p s a b :
  0 < p -> 0 <= s -> 0 <= a -> 0 < b -> 0 <= round_mag p s a b.
Proof.
  intros. rewrite <- (round_mag_0 p s b) by assumption.
  apply round_mag_mono; lia.
Qed.

Lemma round_mag_le_pow2 p s a b k :
  0 < p -> 0 <= s -> s <= k -> 0 <= a -> 0 < b -> a <= b * 2 ^ k ->
  round_mag p s a b <= 2 ^ k.
Proof.
  intros. rewrite <- (round_mag_pow2 p s k) by assumption.
  apply round_mag_mono; lia.
Qed.

(** An integer of at most 53 bits, scaled by a power of two, is a
    binary64 magnitude. *)
Lemma round_mag_53 m j :
  0 <= m <= 2 ^ 53 -> 0 <= j -> round_mag 53 0 (m * 2 ^ j) 1 = m * 2 ^ j.
Proof.
  intros Hm Hj. apply round_mag_exact; [lia|].
  unfold quantum. rewrite Z.div_1_r.
  destruct (Z.eq_dec m 0) as [->|Hn]; [apply Z.divide_0_r|].
  assert (L : Z.log2 (m * 2 ^ j) = Z.log2 m + j)
    by (rewrite Z.log2_mul_pow2; lia).
  rewrite L.
  destruct (Z.eq_dec m (2 ^ 53)) as [->|Hn'].
  - rewrite Z.log2_pow2 by lia.
    replace (Z.max 0 (53 + j - (53 - 1))) with (j + 1) by lia.
    exists (2 ^ 52). rewrite <- Z.pow_add_r, <- Z.pow_add_r by lia.
    f_equal. lia.
  - assert (Z.log2 m < 53) by (apply Z.log2_lt_pow2; lia).
    set (e := Z.max 0 _).
    assert (0 <= e <= j) by (unfold e; pose proof (Z.log2_nonneg m); lia).
    exists (m * 2 ^ (j - e)).
    rewrite <- Z.mul_assoc, <- Z.pow_add_r by lia. do 2 f_equal. lia.
Qed.

(** [round64] on a non-negative rational. *)
Lemma round64_nonneg n d :
  0 <= n -> 0 < d ->
  round64 n d = if 2 ^ 2098 <=? round_mag 53 0 n d then PInf
                else Fin (round_mag 53 0 n d).
Proof.
  intros Hn Hd. unfold round64, round_to.
  rewrite Z.abs_eq by assumption.
  destruct (Z.eq_dec n 0) as [->|Hne].
  - rewrite round_mag_0 by lia. reflexivity.
  - replace (n <? 0) with false by lia. rewrite Z.sgn_pos by lia.
    rewrite Z.mul_1_l. reflexivity.
Qed.

(** Below 2^k (k < 2098) the result is finite and below 2^k. *)
Lemma round64_fin n d k :
  0 <= n -> 0 < d -> 0 <= k < 2098 -> n <= d * 2 ^ k ->
  round64 n d = Fin (round_mag 53 0 n d) /\ 0 <= round_mag 53 0 n d <= 2 ^ k.
Proof.
  intros Hn Hd Hk H.
  pose proof (round_mag_le_pow2 53 0 n d k ltac:(lia) ltac:(lia) ltac:(lia) Hn Hd H).
  pose proof (round_mag_nonneg 53 0 n d ltac:(lia) ltac:(lia) Hn Hd).
  rewrite round64_nonneg by assumption.
  assert (2 ^ k < 2 ^ 2098) by (apply Z.pow_lt_mono_r; lia).
  replace (2 ^ 2098 <=? round_mag 53 0 n d) with false by lia.
  split; [reflexivity|lia].
Qed.

Lemma one_u_pos : 0 < one_u.
Proof. unfold one_u. apply Z.pow_pos_nonneg; lia. Qed.

End Rounding.

(* ================================================================== *)
(** * [time_split] *)
(* ================================================================== *)

Import Data.

Section Slices.
Context {A : Type}.
Implicit Types l : list A.

Lemma slice_to l c : 0 <= c -> Py.slice l None (Some c) = take (Z.to_nat c) l.
Proof.
  intros Hc. unfold Py.slice, Py.norm_bound, Py.len.
  replace (c <? 0) with false by lia.
  rewrite Z.sub_0_r. change (Z.to_nat 0) with 0%nat. rewrite drop_0.
  destruct (Z_le_gt_dec c (Z.of_nat (length l))).
  - rewrite Z.min_l by lia. reflexivity.
  - rewrite Z.min_r by lia. rewrite Nat2Z.id.
    rewrite !take_ge by lia. reflexivity.
Qed.

Lemma slice_from l c : 0 <= c -> Py.slice l (Some c) None = drop (Z.to_nat c) l.
Proof.
  intros Hc. unfold Py.slice, Py.norm_bound, Py.len.
  replace (c <? 0) with false by lia.
  destruct (Z_le_gt_dec c (Z.of_nat (length l))).
  - rewrite Z.min_l by lia. apply take_ge. rewrite length_drop. lia.
  - rewrite Z.min_r by lia. rewrite Z.sub_diag.
    rewrite (drop_ge l (Z.to_nat c)) by lia. reflexivity.
Qed.

Lemma slice_mid l c1 c2 :
  0 <= c1 <= c2 ->
  Py.slice l (Some c1) (Some c2) = drop (Z.to_nat c1) (take (Z.to_nat c2) l).
Proof.
  intros Hc. unfold Py.slice, Py.norm_bound, Py.len.
  replace (c1 <? 0) with false by lia. replace (c2 <? 0) with false by lia.
  set (n := length l).
  rewrite take_drop_commute.
  destruct (Z_le_gt_dec c2 (Z.of_nat n)).
  - rewrite !Z.min_l by lia. do 2 f_equal. lia.
  - rewrite (Z.min_r c2) by lia.
    rewrite (take_ge l (Z.to_nat c2)) by (fold n; lia).
    destruct (Z_le_gt_dec c1 (Z.of_nat n)).
    + rewrite Z.min_l by lia.
      replace (Z.to_nat c1 + Z.to_nat (Z.of_nat n - c1))%nat with n by lia.
      rewrite take_ge by (fold n; lia). reflexivity.
    + rewrite Z.min_r by lia. rewrite Z.sub_diag, Nat.add_0_r, Nat2Z.id.
      rewrite take_ge by (fold n; lia).
      rewrite !drop_ge by (fold n; lia). reflexivity.
Qed.

Lemma three_slices l (c1 c2 : nat) :
  (c1 <= c2)%nat -> take c1 l ++ drop c1 (take c2 l) ++ drop c2 l = l.
Proof.
  intros H.
  replace (take c1 l) with (take c1 (take c2 l))
    by (rewrite take_take; f_equal; lia).
  rewrite app_assoc, take_drop, take_drop. reflexivity.
Qed.
End Slices.

Lemma of_Z_len (N : Z) :
  0 <= N < 2 ^ 63 ->
  exists nf, of_Z N = Fin nf /\ (0 <= nf /\ nf <= 2 ^ 1137).
Proof.
  intros HN. unfold of_Z.
  pose proof one_u_pos as Hu.
  assert (H0 : 0 <= N * one_u) by (apply Z.mul_nonneg_nonneg; lia).
  assert (H1 : N * one_u <= 1 * 2 ^ 1137).
  { replace 1137 with (63 + 1074) by lia.
    rewrite Z.pow_add_r by lia. fold one_u.
    rewrite Z.mul_1_l. apply Z.mul_le_mono_nonneg_r; lia. }
  destruct (round64_fin (N * one_u) 1 1137 H0 ltac:(lia) ltac:(lia) H1) as [E B].
  eauto.
Qed.

(** A product with a factor in [0, 1] stays finite, and is monotone in
    that factor. *)
Lemma fmul_frac nf t t' :
  0 <= nf <= 2 ^ 1137 -> 0 <= t <= t' -> t' <= one_u ->
  exists p p', fmul (Fin nf) (Fin t) = Fin p /\
               fmul (Fin nf) (Fin t') = Fin p' /\
               (0 <= p /\ p <= p').
Proof.
  intros Hn Ht Ht'. pose proof one_u_pos as Hu. simpl fmul.
  assert (M : forall x, 0 <= x <= one_u ->
    0 <= nf * x /\ nf * x <= one_u * 2 ^ 1137).
  { intros x Hx. split; [apply Z.mul_nonneg_nonneg; lia|].
    rewrite (Z.mul_comm one_u). apply Z.mul_le_mono_nonneg; lia. }
  destruct (M t ltac:(lia)) as [A1 A2]. destruct (M t' ltac:(lia)) as [A1' A2'].
  destruct (round64_fin (nf * t) one_u 1137 A1 Hu ltac:(lia) A2) as [E B].
  destruct (round64_fin (nf * t') one_u 1137 A1' Hu ltac:(lia) A2') as [E' B'].
  eexists _, _. split; [exact E|]. split; [exact E'|].
  split; [lia|]. apply round_mag_mono; try lia.
  apply Z.mul_le_mono_nonneg_r; [lia|].
  apply Z.mul_le_mono_nonneg_l; lia.
Qed.

(** The float sum of two non-negative numbers whose exact sum is at most
    1 is finite, at most 1 and not below its first operand. *)
Lemma fadd_frac t v :
  is_binary64 (Fin t) -> 0 <= t -> 0 <= v -> t + v <= one_u ->
  exists s, fadd (Fin t) (Fin v) = Fin s /\ (t <= s /\ s <= one_u).
Proof.
  intros Ht H0 Hv Hs. simpl fadd.
  assert (Hk : t + v <= 1 * 2 ^ 1074) by (fold one_u; lia).
  destruct (round64_fin (t + v) 1 1074 ltac:(lia) ltac:(lia) ltac:(lia) Hk) as [E B].
  exists (round_mag 53 0 (t + v) 1). split; [exact E|].
  fold one_u in B. split; [|lia].
  assert (Hk' : t <= 1 * 2 ^ 1074) by (fold one_u; lia).
  destruct (round64_fin t 1 1074 H0 ltac:(lia) ltac:(lia) Hk') as [Et _].
  simpl in Ht. rewrite Et in Ht. injection Ht as Ht. rewrite <- Ht at 1.
  apply round_mag_mono; lia.
Qed.

Lemma int_nonneg p : 0 <= p -> Py.int (Fin p) = Ok (p / one_u).
Proof.
  intros Hp. simpl. rewrite Z.quot_div_nonneg; [reflexivity|assumption|apply one_u_pos].
Qed.

(** The split for well-formed fractions. *)
Lemma time_split_wellformed {A : Type} (df : list A) (t v : Z) :
  Py.len df < 2 ^ 63 ->
  is_binary64 (Fin t) ->
  0 < t < one_u -> 0 < v < one_u -> t + v < one_u ->
  exists cut1 cut2 : nat,
    floor (fmul (of_Z (Py.len df)) (Fin t)) = Some (Z.of_nat cut1) /\
    floor (fmul (of_Z (Py.len df)) (fadd (Fin t) (Fin v))) = Some (Z.of_nat cut2) /\
    time_split df (Fin t) (Fin v)
      = Ok (take cut1 df, drop cut1 (take cut2 df), drop cut2 df) /\
    (cut1 <= cut2)%nat /\
    (Py.len df <= 2 ^ 53 -> (cut2 <= length df)%nat) /\
    take cut1 df ++ drop cut1 (take cut2 df) ++ drop cut2 df = df /\
    (length (take cut1 df) + length (drop cut1 (take cut2 df))
       + length (drop cut2 df) = length df)%nat.
Proof.
  intros HN Hb Ht Hv Hs.
  pose proof one_u_pos as Hu.
  assert (HN0 : 0 <= Py.len df) by (unfold Py.len; lia).
  destruct (of_Z_len (Py.len df) ltac:(lia)) as (nf & Enf & Bnf).
  destruct (fadd_frac t v Hb ltac:(lia) ltac:(lia) ltac:(lia)) as (s & Es & Bs).
  destruct (fmul_frac nf t s Bnf ltac:(lia) ltac:(lia)) as (p & p' & Ep & Ep' & Bp).
  assert (Hc1 : 0 <= p / one_u) by (apply Z.div_pos; lia).
  assert (Hc12 : p / one_u <= p' / one_u) by (apply Z.div_le_mono; lia).
  exists (Z.to_nat (p / one_u)), (Z.to_nat (p' / one_u)).
  rewrite Enf, Es, Ep, Ep'. simpl floor. rewrite !Z2Nat.id by lia.
  assert (Hle : (Z.to_nat (p / one_u) <= Z.to_nat (p' / one_u))%nat) by lia.
  split; [reflexivity|]. split; [reflexivity|].
  split.
  { unfold time_split, Py.float_of_int. rewrite Enf.
    unfold mbind, result_bind. rewrite Ep, Es, Ep'.
    rewrite !int_nonneg by lia.
    rewrite slice_to, slice_mid, slice_from by lia. reflexivity. }
  split; [exact Hle|].
  split.
  { intros H53.
    assert (Enf' : nf = Py.len df * one_u).
    { unfold of_Z in Enf.
      assert (K : Py.len df * one_u <= 1 * 2 ^ 1137).
      { destruct Bnf. replace 1137 with (63 + 1074) by lia.
        rewrite Z.pow_add_r by lia. fold one_u.
        rewrite Z.mul_1_l. apply Z.mul_le_mono_nonneg_r; lia. }
      destruct (round64_fin (Py.len df * one_u) 1 1137
                  ltac:(apply Z.mul_nonneg_nonneg; lia) ltac:(lia) ltac:(lia) K) as [E _].
      rewrite E in Enf. injection Enf as <-.
      unfold one_u. apply round_mag_53; lia. }
    assert (Hp' : p' <= nf).
    { simpl fmul in Ep'.
      assert (K : nf * s <= one_u * 2 ^ 1137).
      { rewrite (Z.mul_comm one_u). apply Z.mul_le_mono_nonneg; lia. }
      destruct (round64_fin (nf * s) one_u 1137
                  ltac:(apply Z.mul_nonneg_nonneg; lia) Hu ltac:(lia) K) as [E _].
      rewrite E in Ep'. injection Ep' as <-.
      transitivity (round_mag 53 0 (nf * one_u) (1 * one_u)).
      - apply round_mag_mono; try lia.
        + apply Z.mul_nonneg_nonneg; lia.
        + rewrite Z.mul_1_l. 
          apply Z.mul_le_mono_nonneg_r; [lia|].
          apply Z.mul_le_mono_nonneg_l; lia.
      - rewrite round_mag_scale by lia.
        rewrite Enf'. unfold one_u. rewrite round_mag_53; lia. }
    assert (p' / one_u <= Py.len df).
    { apply Z.div_le_upper_bound; [lia|]. rewrite Z.mul_comm. lia. }
    unfold Py.len in *. lia. }
  split; [apply three_slices; exact Hle|].
  rewrite length_drop, !length_take, length_drop. lia.
Qed.

(* ================================================================== *)
(** * [make_sequences] *)
(* ================================================================== *)

Section MakeSequences.

Lemma length_feats_of g : length (feats_of g) = length g.
Proof. apply length_map. Qed.
Lemma length_labels_of g : length (labels_of g) = length g.
Proof. apply length_map. Qed.

Lemma slice_window {A} (l : list A) (S : Z) (i : nat) :
  0 < S -> Z.of_nat i + S <= Py.len l ->
  Py.slice l (Some (S - 1 + Z.of_nat i - S + 1)) (Some (S - 1 + Z.of_nat i + 1))
  = take (Z.to_nat S) (drop i l).
Proof.
  intros HS Hi. unfold Py.slice, Py.norm_bound.
  replace (S - 1 + Z.of_nat i - S + 1) with (Z.of_nat i) by lia.
  replace (Z.of_nat i <? 0) with false by lia.
  replace (S - 1 + Z.of_nat i + 1 <? 0) with false by lia.
  rewrite !Z.min_l by lia.
  f_equal; [lia|]. f_equal. lia.
Qed.

Lemma index_label (l : list float) (S : Z) (i : nat) :
  0 < S -> Z.of_nat i + S <= Py.len l ->
  Py.index l (S - 1 + Z.of_nat i)
  = Ok (default NaN (l !! (Z.to_nat S - 1 + i)%nat)).
Proof.
  intros HS Hi. unfold Py.index.
  assert (E0 : (S - 1 + Z.of_nat i <? 0) = false) by lia.
  cbv zeta. rewrite E0. cbv iota. rewrite E0.
  replace (Z.to_nat (S - 1 + Z.of_nat i)) with (Z.to_nat S - 1 + i)%nat by lia.
  destruct (l !! (Z.to_nat S - 1 + i)%nat) eqn:E; [reflexivity|].
  apply lookup_ge_None in E. unfold Py.len in Hi. lia.
Qed.

(** The inner loop over [t] adds the windows of the group, in order. *)
Lemma inner_loop (g : Frame) (S : Z) (n k : nat) (X_all : list Window) (y_all : list float) :
  0 < S -> ((0 < n)%nat -> Z.of_nat (k + n) + S <= Py.len g + 1) ->
  foldM
    (fun '(X_all, y_all) t =>
       let X_all := X_all ++ [Py.slice (feats_of g) (Some (t - S + 1)) (Some (t + 1))] in
       y ← Py.index (labels_of g) t;
       Ok (X_all, y_all ++ [y]))
    (X_all, y_all)
    (map (fun i : nat => S - 1 + Z.of_nat i) (seq k n))
  = Ok (X_all ++ (map (window_at g S) (seq k n)).*1,
        y_all ++ (map (window_at g S) (seq k n)).*2).
Proof.
  intros HS. revert k X_all y_all.
  induction n as [|n IH]; intros k X_all y_all Hk.
  - simpl. rewrite !app_nil_r. reflexivity.
  - specialize (Hk ltac:(lia)). simpl seq. simpl map. simpl foldM.
    rewrite slice_window by (rewrite ?length_feats_of; unfold Py.len in *; rewrite ?length_feats_of; lia).
    rewrite index_label by (unfold Py.len in *; rewrite ?length_labels_of; lia).
    simpl mbind. unfold mbind, result_bind.
    rewrite IH by lia.
    unfold window_at at 3 6. simpl.
    rewrite <- !app_assoc. reflexivity.
Qed.

Lemma length_group_sequences g S :
  Py.len (group_sequences g S) = Z.max 0 (Py.len g - S + 1).
Proof.
  unfold group_sequences, Py.len. rewrite length_map, length_seq. lia.
Qed.

Lemma range_shift (S L : Z) :
  Py.range (S - 1) L
  = map (fun i : nat => S - 1 + Z.of_nat i) (seq 0 (Z.to_nat (L - S + 1))).
Proof. unfold Py.range. do 3 f_equal. lia. Qed.

(** The loop over the groups adds the windows of each group, in order. *)
Lemma outer_loop (S : Z) (gs : list (string * Frame))
    (X_all : list Window) (y_all : list float) :
  0 < S ->
  foldM
    (fun '(X_all, y_all) '(tkr, g) =>
       let feats := feats_of g in
       let labels := labels_of g in
       foldM
         (fun '(X_all, y_all) t =>
            let X_all := X_all ++ [Py.slice feats (Some (t - S + 1)) (Some (t + 1))] in
            y ← Py.index labels t;
            Ok (X_all, y_all ++ [y]))
         (X_all, y_all) (Py.range (S - 1) (Py.len g)))
    (X_all, y_all) gs
  = Ok (X_all ++ (concat (map (fun g => group_sequences g.2 S) gs)).*1,
        y_all ++ (concat (map (fun g => group_sequences g.2 S) gs)).*2).
Proof.
  intros HS. revert X_all y_all.
  induction gs as [|[tkr g] gs IH]; intros X_all y_all.
  - simpl. rewrite !app_nil_r. reflexivity.
  - simpl foldM. cbv zeta. rewrite range_shift.
    rewrite inner_loop by (unfold Py.len; lia).
    unfold mbind, result_bind. rewrite IH.
    simpl map. simpl concat. fold (group_sequences g S).
    rewrite !fmap_app, !app_assoc. reflexivity.
Qed.

Lemma window_at_length g S i w y :
  0 < S -> group_sequences g S !! i = Some (w, y) -> length w = Z.to_nat S.
Proof.
  intros HS H. unfold group_sequences in H.
  apply list_lookup_fmap_Some in H as (j & Hj & E).
  apply lookup_seq in E as [-> Hlt]. simpl in Hlt.
  unfold window_at in Hj. injection Hj as Hw _. subst w.
  rewrite length_take, length_drop, length_feats_of.
  unfold Py.len in Hlt. lia.
Qed.

Lemma stack_uniform {A} (xs : list (list A)) (n : nat) :
  xs <> [] -> Forall (fun x => length x = n) xs -> Pd.stack xs = Ok xs.
Proof.
  intros Hne Hall. destruct xs as [|x xs]; [congruence|].
  unfold Pd.stack.
  assert (E : forallb (fun y => (length y =? length x)%nat) (x :: xs) = true).
  { apply forallb_forall. intros y Hy.
    apply Nat.eqb_eq.
    rewrite Forall_forall in Hall.
    rewrite (Hall y), (Hall x); [reflexivity|left|apply list_elem_of_In; exact Hy]. }
  rewrite E. reflexivity.
Qed.

Lemma group_sequences_lookup g S i w y :
  0 < S -> group_sequences g S !! i = Some (w, y) ->
  w = take (Z.to_nat S) (drop i (feats_of g)) /\
  length w = Z.to_nat S /\
  (forall k : nat, (k < Z.to_nat S)%nat -> w !! k = feats_of g !! (i + k)%nat) /\
  labels_of g !! (Z.to_nat S - 1 + i)%nat = Some y.
Proof.
  intros HS H.
  pose proof (window_at_length g S i w y HS H) as Hlen.
  unfold group_sequences in H.
  apply list_lookup_fmap_Some in H as (j & Hj & E).
  apply lookup_seq in E as [-> Hlt]. simpl in Hlt. simpl in Hj.
  unfold window_at in Hj. injection Hj as Hw Hy.
  split; [congruence|]. split; [exact Hlen|]. split.
  - intros k Hk. subst w. rewrite lookup_take_lt by lia.
    rewrite lookup_drop. reflexivity.
  - destruct (labels_of g !! (Z.to_nat S - 1 + i)%nat) eqn:E.
    + simpl in Hy. congruence.
    + apply lookup_ge_None in E. rewrite length_labels_of in E.
      unfold Py.len in Hlt. lia.
Qed.

(** For a positive window length [make_sequences] returns the windows of
    the groups, group after group. *)
Lemma make_sequences_positive (df : Frame) (S : Z) :
  0 < S ->
  make_sequences df S
  = Ok ((concat (map (fun g : string * Frame => group_sequences g.2 S)
                   (groupby_ticker df))).*1,
        (concat (map (fun g : string * Frame => group_sequences g.2 S)
                   (groupby_ticker df))).*2).
Proof.
  intros HS. unfold make_sequences.
  lazymatch goal with
  | |- context [foldM ?f ([], []) (groupby_ticker df)] =>
      rewrite (outer_loop S (groupby_ticker df) [] [] HS
               : foldM f ([], []) (groupby_ticker df) = _)
  end.
  unfold mbind, result_bind. rewrite !app_nil_l.
  set (ws := concat _).
  destruct (ws.*1) as [|x xs] eqn:E; [replace (S <? 0) with false by lia; reflexivity|].
  rewrite <- E.
  rewrite (stack_uniform (ws.*1) (Z.to_nat S)); [reflexivity|congruence|].
  apply Forall_fmap, Forall_forall. intros [w y] Hin. simpl.
  unfold ws in Hin. apply list_elem_of_In, in_concat in Hin as (l & Hl & Hwl).
  apply list_elem_of_In, list_elem_of_fmap in Hl as (g & -> & _).
  apply list_elem_of_In, list_elem_of_lookup in Hwl as [i Hi].
  eapply window_at_length; eassumption.
Qed.

End MakeSequences.

(** Scenario A, evaluated. *)
Example scenario_A_counts :
  map (fun g : string * Frame => length g.2) (groupby_ticker scenario_A) = [50; 50]%nat /\
  match make_sequences scenario_A 10 with
  | Ok (X, y) => length X = 82%nat /\ length y = 82%nat
  | Raise _ => False
  end.
Proof. vm_compute. repeat split. Qed.

(* ================================================================== *)
(** * [load_dataset] *)
(* ================================================================== *)


Section StableSort.
Context {A : Type} (leb : A -> A -> bool).
Hypothesis leb_total : forall x y, leb x y = true \/ leb y x = true.
Hypothesis leb_trans : forall x y z, leb x y = true -> leb y z = true -> leb x z = true.

Lemma insert_sorted_perm x l : Permutation (Pd.insert_sorted leb x l) (x :: l).
Proof.
  induction l as [|y l IH]; simpl; [reflexivity|].
  destruct (leb x y); [reflexivity|].
  rewrite IH. apply perm_swap.
Qed.

Lemma sort_values_perm l : Permutation (Pd.sort_values leb l) l.
Proof.
  induction l as [|x l IH]; simpl; [reflexivity|].
  rewrite insert_sorted_perm. constructor. exact IH.
Qed.

Lemma insert_sorted_sorted x l :
  StronglySorted (fun a b => leb a b = true) l ->
  StronglySorted (fun a b => leb a b = true) (Pd.insert_sorted leb x l).
Proof.
  induction 1 as [|y l Hs IH Hy]; simpl.
  - repeat constructor.
  - destruct (leb x y) eqn:E.
    + constructor; [constructor; assumption|].
      constructor; [exact E|].
      eapply Forall_impl; [exact Hy|]. intros z Hz. eapply leb_trans; eassumption.
    + constructor; [exact IH|].
      assert (Hyx : leb y x = true) by (destruct (leb_total x y); congruence).
      rewrite (insert_sorted_perm x l). constructor; assumption.
Qed.

Lemma sort_values_sorted l :
  StronglySorted (fun a b => leb a b = true) (Pd.sort_values leb l).
Proof.
  induction l as [|x l IH]; simpl; [constructor|].
  apply insert_sorted_sorted, IH.
Qed.

(** Stability: the rows of a class whose members are below one another
    keep their order. *)
Lemma insert_sorted_filter (P : A -> Prop) `{forall x, Decision (P x)} x l :
  (forall a b, P a -> P b -> leb a b = true) ->
  filter P (Pd.insert_sorted leb x l) = filter P (x :: l).
Proof.
  intros HP. induction l as [|y l IH]; simpl; [reflexivity|].
  destruct (leb x y) eqn:E; [reflexivity|].
  rewrite (filter_cons P y), IH, !filter_cons.
  destruct (decide (P x)) as [Hx|Hx], (decide (P y)) as [Hy|Hy]; try reflexivity.
  rewrite (HP x y Hx Hy) in E. discriminate.
Qed.

Lemma sort_values_stable (P : A -> Prop) `{forall x, Decision (P x)} l :
  (forall a b, P a -> P b -> leb a b = true) ->
  filter P (Pd.sort_values leb l) = filter P l.
Proof.
  intros HP. induction l as [|x l IH]; simpl; [reflexivity|].
  rewrite insert_sorted_filter by exact HP.
  rewrite !filter_cons, IH. reflexivity.
Qed.
End StableSort.

Section KeyOrder.

Lemma na_last_total {A} (leb : A -> A -> bool) :
  (forall x y, leb x y = true \/ leb y x = true) ->
  forall a b, Pd.na_last_leb leb a b = true \/ Pd.na_last_leb leb b a = true.
Proof. intros T [x|] [y|]; simpl; auto. Qed.

Lemma na_last_trans {A} (leb : A -> A -> bool) :
  (forall x y z, leb x y = true -> leb y z = true -> leb x z = true) ->
  forall a b c, Pd.na_last_leb leb a b = true -> Pd.na_last_leb leb b c = true ->
                Pd.na_last_leb leb a c = true.
Proof. intros T [x|] [y|] [z|]; simpl; eauto; discriminate. Qed.

Lemma na_last_antisym {A} (leb : A -> A -> bool) :
  (forall x y, leb x y = true -> leb y x = true -> x = y) ->
  forall a b, Pd.na_last_leb leb a b = true -> Pd.na_last_leb leb b a = true -> a = b.
Proof.
  intros T [x|] [y|]; simpl; intros H1 H2; try discriminate; try reflexivity.
  f_equal. auto.
Qed.

Lemma na_last_refl {A} (leb : A -> A -> bool) :
  (forall x, leb x x = true) -> forall a, Pd.na_last_leb leb a a = true.
Proof. intros R [x|]; simpl; auto. Qed.

Lemma string_leb_trans x y z :
  String.leb x y = true -> String.leb y z = true -> String.leb x z = true.
Proof.
  intros H1 H2.
  apply Is_true_true. apply Is_true_true in H1, H2.
  exact (transitivity (R := String.le) H1 H2).
Qed.

Lemma string_leb_antisym x y :
  String.leb x y = true -> String.leb y x = true -> x = y.
Proof. apply String.leb_antisym. Qed.

Context {V : Type}.
Implicit Types r : Row Timestamp V.

Lemma key_leb_total r1 r2 : key_leb r1 r2 = true \/ key_leb r2 r1 = true.
Proof.
  unfold key_leb.
  destruct (decide (ticker r1 = ticker r2)) as [E|N].
  - rewrite decide_True by congruence.
    apply na_last_total. intros x y. rewrite !Z.leb_le. lia.
  - rewrite decide_False by congruence.
    apply na_last_total, String.leb_total.
Qed.

Lemma key_leb_trans r1 r2 r3 :
  key_leb r1 r2 = true -> key_leb r2 r3 = true -> key_leb r1 r3 = true.
Proof.
  assert (Zt : forall x y z, (x <=? y) = true -> (y <=? z) = true -> (x <=? z) = true)
    by (intros x y z; rewrite !Z.leb_le; lia).
  unfold key_leb.
  destruct (decide (ticker r1 = ticker r2)) as [E12|N12],
           (decide (ticker r2 = ticker r3)) as [E23|N23]; intros H1 H2.
  - rewrite decide_True by congruence. eapply na_last_trans; eassumption.
  - rewrite decide_False by congruence. rewrite E12. exact H2.
  - rewrite decide_False by congruence. rewrite <- E23. exact H1.
  - pose proof (na_last_trans _ string_leb_trans _ _ _ H1 H2) as H13.
    destruct (decide (ticker r1 = ticker r3)) as [E13|N13]; [|exact H13].
    exfalso. apply N12.
    apply (na_last_antisym _ string_leb_antisym); [exact H1|].
    rewrite E13. exact H2.
Qed.

Lemma same_key_leb r1 r2 r0 : same_key r0 r1 -> same_key r0 r2 -> key_leb r1 r2 = true.
Proof.
  intros [T1 D1] [T2 D2]. unfold key_leb.
  rewrite decide_True by congruence.
  rewrite <- D1, <- D2. apply na_last_refl. intros x. apply Z.leb_refl.
Qed.

End KeyOrder.

Section SpecOrder.

Lemma ascii_compare_lt c d :
  Ascii.compare c d = Lt -> (nat_of_ascii c < nat_of_ascii d)%nat.
Proof.
  unfold Ascii.compare, nat_of_ascii. rewrite N.compare_lt_iff. lia.
Qed.

Lemma compare_name_before a b : String.compare a b = Lt -> name_before a b.
Proof.
  revert b. induction a as [|c a IH]; intros [|d b]; simpl; try discriminate; auto.
  destruct (Ascii.compare c d) eqn:E; try discriminate.
  - apply Ascii.compare_eq_iff in E as ->. auto.
  - intros _. left. apply ascii_compare_lt, E.
Qed.

Lemma leb_name_before a b : String.leb a b = true -> a <> b -> name_before a b.
Proof.
  unfold String.leb. intros H N. apply compare_name_before.
  destruct (String.compare a b) eqn:E; [|reflexivity|discriminate].
  apply String.compare_eq_iff in E. contradiction.
Qed.

Lemma key_leb_in_key_order {V : Type} (r1 r2 : Row Timestamp V) :
  key_leb r1 r2 = true -> in_key_order r1 r2.
Proof.
  unfold key_leb, in_key_order.
  destruct (decide (ticker r1 = ticker r2)) as [E|N]; intros H.
  - right. split; [exact E|].
    destruct (date r1), (date r2); simpl in *; try discriminate; auto.
    apply Z.leb_le, H.
  - left. destruct (ticker r1) as [a|], (ticker r2) as [b|]; simpl in *;
      try discriminate; auto.
    apply leb_name_before; [exact H|congruence].
Qed.

Lemma name_before_asym a b : name_before a b -> name_before b a -> False.
Proof.
  revert b. induction a as [|c a IH]; intros [|d b]; simpl; try tauto.
  intros [H1|[-> H1]] [H2|[E2 H2]]; try lia; eauto.
  subst. lia.
Qed.

(** Two rows that are in order both ways have the same key. *)
Lemma in_key_order_antisym {V : Type} (r1 r2 : Row Timestamp V) :
  in_key_order r1 r2 -> in_key_order r2 r1 -> same_key r1 r2.
Proof.
  unfold in_key_order, same_key.
  intros [H1|[E1 H1]] [H2|[E2 H2]].
  - destruct (ticker r1), (ticker r2); simpl in *; try tauto.
    destruct (name_before_asym _ _ H1 H2).
  - rewrite E2 in H1. destruct (ticker r1); simpl in *; try tauto.
    destruct (name_before_asym _ _ H1 H1).
  - rewrite E1 in H2. destruct (ticker r2); simpl in *; try tauto.
    destruct (name_before_asym _ _ H2 H2).
  - split; [exact E1|].
    destruct (date r1), (date r2); simpl in *; try tauto. f_equal. lia.
Qed.
End SpecOrder.

Lemma StronglySorted_lookup {A : Type} (R : A -> A -> Prop) (l : list A)
    (i j : nat) (x y : A) :
  StronglySorted R l -> (i < j)%nat -> l !! i = Some x -> l !! j = Some y -> R x y.
Proof.
  intros Hs. revert i j. induction Hs as [|a l Hs IH Ha]; intros i j Hij H1 H2.
  - discriminate.
  - destruct j as [|j]; [lia|]. destruct i as [|i]; simpl in H1, H2.
    + injection H1 as <-. rewrite Forall_forall in Ha. apply Ha.
      eapply list_elem_of_lookup_2, H2.
    + apply (IH i j); [lia|assumption|assumption].
Qed.

Section LoadDataset.
Variable to_datetime : string -> option Z.
Variable to_numeric : string -> option float.


Lemma parse_dates (l : RawFrame) :
  match mapM (fun r => d ← parse_date to_datetime (date r);
                       Ok (map_row d (fun _ (v : cell) => v) r)) l with
  | Ok df => df = map (parsed to_datetime) l
  | Raise e => e = ValueError /\
               exists r s, r ∈ l /\ date r = Some s /\ to_datetime s = None
  end.
Proof.
  induction l as [|r l IH]; [reflexivity|].
  simpl mapM.
  destruct (date r) as [s|] eqn:Ed; simpl.
  - destruct (to_datetime s) as [t|] eqn:Et.
    + simpl. destruct (mapM _ l) as [df|e].
      * simpl. rewrite IH. unfold parsed at 2. rewrite Ed. simpl. rewrite Et. reflexivity.
      * simpl. destruct IH as [-> (r' & s' & Hin & H1 & H2)].
        split; [reflexivity|]. exists r', s'. split; [apply list_elem_of_further; exact Hin|auto].
    + simpl. split; [reflexivity|]. exists r, s. split; [apply list_elem_of_here|auto].
  - simpl. destruct (mapM _ l) as [df|e].
    + simpl. rewrite IH. unfold parsed at 2. rewrite Ed. reflexivity.
    + simpl. destruct IH as [-> (r' & s' & Hin & H1 & H2)].
      split; [reflexivity|]. exists r', s'. split; [apply list_elem_of_further; exact Hin|auto].
Qed.

Lemma StronglySorted_map {A B} (R : A -> A -> Prop) (R' : B -> B -> Prop) (f : A -> B) l :
  (forall a b, R a b -> R' (f a) (f b)) ->
  StronglySorted R l -> StronglySorted R' (map f l).
Proof.
  intros HR. induction 1 as [|x l Hs IH Hx]; simpl; constructor; [exact IH|].
  apply Forall_fmap. eapply Forall_impl; [exact Hx|]. intros y. apply HR.
Qed.

Lemma filter_map_comm {A B} (P : B -> Prop) `{forall x, Decision (P x)}
    (Q : A -> Prop) `{forall x, Decision (Q x)} (f : A -> B) l :
  (forall a, Q a <-> P (f a)) ->
  filter P (map f l) = map f (filter Q l).
Proof.
  intros HPQ. induction l as [|x l IH]; [reflexivity|].
  simpl map. rewrite !filter_cons, IH.
  destruct (decide (P (f x))) as [Hp|Hp], (decide (Q x)) as [Hq|Hq];
    try reflexivity; exfalso; [apply Hq|apply Hp]; apply HPQ; assumption.
Qed.

(** C6. For every source, the frame the loader returns is sorted by
    (ticker ascending, date ascending): of two rows of the frame the
    earlier one has the smaller ticker, or the same ticker and a date
    that is not later (blank tickers and missing dates last).  The frame
    holds exactly the kept rows, and the rows that compare equal on
    (ticker, date) keep the relative order they have in the source.  The
    loader raises only when the date of a kept row does not parse. *)
Theorem load_dataset_sorted (csv : RawFrame) (tickers : option (list string)) :
  match load_dataset to_datetime to_numeric csv tickers with
  | Ok df =>
      StronglySorted in_key_order df /\
      (forall (i j : nat) r1 r2, (i < j)%nat ->
         df !! i = Some r1 -> df !! j = Some r2 -> in_key_order r1 r2) /\
      Permutation df (map (loaded to_datetime to_numeric) (kept csv tickers)) /\
      forall r0 : Row Timestamp float,
        filter (same_key r0) df
        = filter (same_key r0) (map (loaded to_datetime to_numeric) (kept csv tickers))
  | Raise e =>
      e = ValueError /\
      exists r s, r ∈ kept csv tickers /\ date r = Some s /\ to_datetime s = None
  end.
Proof.
  unfold load_dataset. fold (kept csv tickers).
  pose proof (parse_dates (kept csv tickers)) as HP.
  destruct (mapM _ (kept csv tickers)) as [df|e]; [|exact HP].
  subst df. simpl.
  set (l := map (parsed to_datetime) (kept csv tickers)).
  set (c := fun r : Row Timestamp cell =>
              map_row (date r) (fun _ v => coerce to_numeric v) r).
  assert (Hl : map c l = map (loaded to_datetime to_numeric) (kept csv tickers)).
  { unfold l. rewrite map_map. reflexivity. }
  assert (Hs : StronglySorted in_key_order (map c (Pd.sort_values key_leb l))).
  { apply (StronglySorted_map (fun r1 r2 => key_leb r1 r2 = true)).
    - intros a b H. apply (key_leb_in_key_order (c a) (c b)). exact H.
    - apply sort_values_sorted; [apply key_leb_total|apply key_leb_trans]. }
  split; [exact Hs|]. split; [|split].
  - intros i j r1 r2 Hij H1 H2. exact (StronglySorted_lookup _ _ i j r1 r2 Hs Hij H1 H2).
  - rewrite <- Hl. apply Permutation_map, sort_values_perm.
  - intros r0. rewrite <- Hl.
    set (r0' := map_row (date r0) (fun _ (_ : float) => CStr "") r0).
    rewrite !(filter_map_comm (same_key r0) (same_key r0') c)
      by (intros a; reflexivity).
    f_equal. apply sort_values_stable.
    intros a b. apply same_key_leb.
Qed.
End LoadDataset.

(* ================================================================== *)
(** * [make_sequences]: the per-ticker groups *)
(* ================================================================== *)

Section Groups.

Lemma StronglySorted_strict {A : Type} (R : A -> A -> Prop) (l : list A) :
  StronglySorted R l -> NoDup l -> StronglySorted (fun a b => R a b /\ a <> b) l.
Proof.
  induction 1 as [|x l Hs IH Hx]; intros Hd; constructor.
  - apply IH. apply NoDup_cons in Hd as [_ Hd]. exact Hd.
  - apply NoDup_cons in Hd as [Hn _].
    rewrite Forall_forall in Hx. apply Forall_forall. intros y Hy.
    split; [apply Hx, Hy|]. intros ->. contradiction.
Qed.

Lemma StronglySorted_impl {A : Type} (R R' : A -> A -> Prop) (l : list A) :
  (forall a b, R a b -> R' a b) -> StronglySorted R l -> StronglySorted R' l.
Proof.
  intros HR. induction 1 as [|x l Hs IH Hx]; constructor; [exact IH|].
  eapply Forall_impl; [exact Hx|]. intros y. apply HR.
Qed.

(** The keys of [groupby]: the tickers of the frame, each once, in
    ascending order. *)
Lemma groupby_ticker_keys (df : Frame) :
  exists keys : list string,
    groupby_ticker df = map (fun k => (k, rows_of k df)) keys /\
    (forall k, k ∈ keys <-> exists r, r ∈ df /\ ticker r = Some k) /\
    StronglySorted name_before keys.
Proof.
  exists (Pd.sort_values String.leb (remove_dups (omap ticker df))).
  split; [reflexivity|]. split.
  - intros k. rewrite (sort_values_perm String.leb), elem_of_remove_dups.
    rewrite list_elem_of_omap. split; intros (r & H1 & H2); eauto.
  - apply (StronglySorted_impl (fun a b => String.leb a b = true /\ a <> b)).
    + intros a b [H1 H2]. apply leb_name_before; assumption.
    + apply StronglySorted_strict.
      * apply sort_values_sorted; [apply String.leb_total|].
        intros x y z. apply string_leb_trans.
      * rewrite (sort_values_perm String.leb). apply NoDup_remove_dups.
Qed.

(** C2. For every frame and every window length S > 0, [make_sequences]
    returns the sequences of the per-ticker groups, group after group:
    there is one group for each ticker of the frame, the groups come by
    ascending ticker, and the group of a ticker holds the rows of the
    frame with that ticker, in frame order.  A group of L rows contributes
    exactly max(0, L-S+1) sequences; its i-th sequence (from 0) has as
    window the ten feature values of the rows i .. i+S-1 of the group
    (cast to float32, as the code does) and as label the label of the
    group's row S-1+i.  A frame of two tickers with 50 rows each gives,
    for S = 10, 41 sequences per ticker, 82 in all. *)
Theorem make_sequences_spec (df : Frame) (S : Z) :
  0 < S ->
  exists (keys : list string) (seqs : list (list (Window * float))),
    (forall k, k ∈ keys <-> exists r, r ∈ df /\ ticker r = Some k) /\
    StronglySorted name_before keys /\
    make_sequences df S = Ok ((concat seqs).*1, (concat seqs).*2) /\
    Forall2
      (fun (k : string) ws =>
         Py.len ws = Z.max 0 (Py.len (rows_of k df) - S + 1) /\
         forall (i : nat) w y, ws !! i = Some (w, y) ->
           length w = Z.to_nat S /\
           (forall j : nat, (j < Z.to_nat S)%nat ->
              exists r, rows_of k df !! (i + j)%nat = Some r /\
                        w !! j = Some (map (fun c => to_float32 (get c r)) FEATURES)) /\
           (exists r, rows_of k df !! (Z.to_nat S - 1 + i)%nat = Some r /\
                      y = to_float32 (y_up r)))
      keys seqs /\
    (S = 10 ->
     forall a b : string, a <> b ->
       (forall r k, r ∈ df -> ticker r = Some k -> k = a \/ k = b) ->
       length (rows_of a df) = 50%nat -> length (rows_of b df) = 50%nat ->
       map length seqs = [41; 41]%nat /\ length (concat seqs) = 82%nat).
Proof.
  intros HS.
  destruct (groupby_ticker_keys df) as (keys & Hg & Hk & Hs).
  exists keys, (map (fun k => group_sequences (rows_of k df) S) keys).
  split; [exact Hk|]. split; [exact Hs|]. split; [|split].
  - rewrite (make_sequences_positive df S HS), Hg, map_map. reflexivity.
  - apply Forall2_fmap_r, Forall_Forall2_diag, Forall_forall.
    intros k _. split; [apply length_group_sequences|].
    intros i w y Hi.
    destruct (group_sequences_lookup _ S i w y HS Hi) as (_ & Hlen & Hw & Hy).
    split; [exact Hlen|]. split.
    + intros j Hj.
      destruct (lookup_lt_is_Some_2 w j ltac:(lia)) as [x Hx].
      pose proof Hx as Hx'. rewrite (Hw j Hj) in Hx'.
      unfold feats_of in Hx'. apply list_lookup_fmap_Some in Hx' as (r & -> & Hr).
      exists r. split; [exact Hr|exact Hx].
    + unfold labels_of in Hy. apply list_lookup_fmap_Some in Hy as (r & -> & Hr).
      exists r. split; [exact Hr|reflexivity].
  - intros -> a b Hab Hdf Ha Hb.
    assert (L : forall k, k ∈ keys ->
                length (group_sequences (rows_of k df) 10) = 41%nat).
    { intros k Hin. apply Hk in Hin as (r & Hr & Ht).
      assert (E : length (rows_of k df) = 50%nat)
        by (destruct (Hdf r k Hr Ht) as [->| ->]; assumption).
      unfold group_sequences, Py.len. rewrite length_map, length_seq, E. reflexivity. }
    assert (In_a : a ∈ keys).
    { destruct (rows_of a df) as [|r l] eqn:E; [discriminate Ha|].
      assert (Hr : r ∈ rows_of a df) by (rewrite E; left).
      apply list_elem_of_filter in Hr as [Hr1 Hr2].
      apply Hk. exists r. split; [exact Hr2|]. apply bool_decide_unpack in Hr1. exact Hr1. }
    assert (In_b : b ∈ keys).
    { destruct (rows_of b df) as [|r l] eqn:E; [discriminate Hb|].
      assert (Hr : r ∈ rows_of b df) by (rewrite E; left).
      apply list_elem_of_filter in Hr as [Hr1 Hr2].
      apply Hk. exists r. split; [exact Hr2|]. apply bool_decide_unpack in Hr1. exact Hr1. }
    assert (Hsub : forall k, k ∈ keys -> k = a \/ k = b).
    { intros k Hin. apply Hk in Hin as (r & Hr & Ht). eapply Hdf; eassumption. }
    assert (Hnd : NoDup keys).
    { clear -Hs. induction Hs as [|x l Hs IH Hx]; constructor; [|exact IH].
      intros Hin. rewrite Forall_forall in Hx.
      exact (name_before_asym x x (Hx x Hin) (Hx x Hin)). }
    assert (Hlen : length keys = 2%nat).
    { assert (P : keys ≡ₚ [a; b]).
      { apply NoDup_Permutation; [exact Hnd| |].
        - apply NoDup_cons_2; [|apply NoDup_singleton].
          intros Hin. apply list_elem_of_singleton in Hin. contradiction.
        - intros k. rewrite !elem_of_cons. split.
          + intros Hin. destruct (Hsub k Hin) as [->| ->]; auto.
          + intros [->|[->|Hin]]; [exact In_a|exact In_b|inversion Hin]. }
      rewrite P. reflexivity. }
    destruct keys as [|k1 [|k2 [|k3 keys]]]; try discriminate Hlen.
    simpl. rewrite app_nil_r, length_app.
    rewrite !L by (rewrite !elem_of_cons; auto). split; reflexivity.
Qed.
End Groups.

Lemma make_sequences_spec_witness :
  exists (keys : list string) (seqs : list (list (Window * float))),
    (forall k, k ∈ keys <-> exists r, r ∈ scenario_A /\ ticker r = Some k) /\
    StronglySorted name_before keys /\
    make_sequences scenario_A 10 = Ok ((concat seqs).*1, (concat seqs).*2) /\
    map length seqs = [41; 41]%nat /\ length (concat seqs) = 82%nat.
Proof.
  destruct (make_sequences_spec scenario_A 10 eq_refl)
    as (keys & seqs & Hk & Hs & E & _ & HA).
  exists keys, seqs. split; [exact Hk|]. split; [exact Hs|]. split; [exact E|].
  apply (HA eq_refl "AAA"%string "BBB"%string).
  - discriminate.
  - intros r k Hr Ht. unfold scenario_A in Hr.
    apply elem_of_app in Hr as [Hr|Hr];
      apply list_elem_of_fmap in Hr as (i & -> & _); simpl in Ht;
      injection Ht as <-; auto.
  - vm_compute. reflexivity.
  - vm_compute. reflexivity.
Defined.

(* ================================================================== *)
(** * [apply_standardizer] *)
(* ================================================================== *)

Section Apply.

Lemma clean_zero_if_bad z : clean z = zero_if_bad z.
Proof. destruct z; reflexivity. Qed.

Lemma zero_if_bad_finite z :
  is_inf (zero_if_bad z) = false /\ is_nan (zero_if_bad z) = false.
Proof. destruct z; split; reflexivity. Qed.



Lemma apply_step (stats : Stats) mean std c (out : Frame) :
  holds stats mean std ->
  (e ← getitem stats (name c);
   mu ← getitem e "mean";
   e' ← getitem stats (name c);
   sd ← getitem e' "std";
   Ok (set_column c (fun v => clean (fdiv (fsub v mu) sd)) out))
  = Ok (set_column c (fun v => zero_if_bad (fdiv (fsub v (mean c)) (std c))) out).
Proof.
  intros H. destruct (H c) as (e & E1 & E2 & E3).
  unfold getitem. rewrite E1. simpl. rewrite E2. simpl. rewrite E3. simpl.
  f_equal. unfold set_column. apply map_ext. intros r.
  destruct r. unfold map_row. simpl. f_equal; destruct (decide _); try reflexivity; apply clean_zero_if_bad.
Qed.

Lemma apply_standardizer_map (df : Frame) (stats : Stats) mean std :
  holds stats mean std ->
  apply_standardizer df stats = Ok (map (standardized mean std) df).
Proof.
  intros H. unfold apply_standardizer, FEATURES.
  cbn [foldM].
  repeat (rewrite (apply_step stats mean std) by exact H; unfold mbind at 1, result_bind at 1; cbv beta iota).
  f_equal. unfold set_column. rewrite !map_map. apply map_ext.
  intros r. destruct r. reflexivity.
Qed.
End Apply.


(** A document built feature by feature holds the entry of each feature. *)
Lemma lookup_fold_insert (f : Feature -> gmap string float) (init : Stats) c :
  fold_left (fun (s : Stats) c => <[name c := f c]> s) FEATURES init !! name c
  = Some (f c).
Proof.
  unfold FEATURES. cbn [fold_left].
  destruct c; cbn [name];
    repeat (rewrite lookup_insert_ne by discriminate);
    apply lookup_insert_eq.
Qed.

Lemma lookup_entry (mu sd : float) :
  ({[ "mean" := mu; "std" := sd ]} : gmap string float) !! "mean" = Some mu /\
  ({[ "mean" := mu; "std" := sd ]} : gmap string float) !! "std" = Some sd.
Proof.
  split.
  - apply lookup_insert_eq.
  - rewrite lookup_insert_ne by discriminate. apply lookup_singleton_eq.
Qed.

Lemma holds_uniform_stats mu sd :
  holds (uniform_stats mu sd) (fun _ => mu) (fun _ => sd).
Proof.
  intros c. exists {[ "mean" := mu; "std" := sd ]}.
  split; [|apply lookup_entry].
  unfold uniform_stats.
  apply (lookup_fold_insert (fun _ => {[ "mean" := mu; "std" := sd ]})).
Qed.


(* ================================================================== *)
(** * [fit_standardizer] *)
(* ================================================================== *)


Section Idempotence.

Lemma rne_nonneg a b : 0 <= a -> 0 < b -> 0 <= rne a b.
Proof. intros Ha Hb. apply rne_int_ge; lia. Qed.

(** Rounding a rounded magnitude changes nothing. *)
Lemma round_mag_idem p s a b :
  0 < p -> 0 <= s -> 0 <= a -> 0 < b ->
  round_mag p s (round_mag p s a b) 1 = round_mag p s a b.
Proof.
  intros Hp Hs Ha Hb.
  apply round_mag_exact; [assumption|].
  unfold round_mag at 2. unfold round_mag at 1.
  set (e := quantum p s a b).
  pose proof (quantum_ge p s a b) as He. fold e in He.
  assert (P : 0 < 2 ^ e) by (apply Z.pow_pos_nonneg; lia).
  set (k := rne a (b * 2 ^ e)).
  assert (Hk0 : 0 <= k) by (apply rne_nonneg; nia).
  assert (Hk1 : k <= 2 ^ p).
  { apply rne_int_le; [nia|].
    pose proof (quantum_upper p s a b Ha Hb Hs Hp) as U. fold e in U.
    rewrite Z.pow_add_r in U by lia. nia. }
  unfold quantum. rewrite Z.div_1_r.
  destruct (Z.eq_dec k 0) as [->|Hn].
  { rewrite Z.mul_0_l. apply Z.divide_0_r. }
  assert (L : Z.log2 (k * 2 ^ e) = Z.log2 k + e)
    by (rewrite Z.log2_mul_pow2; lia).
  rewrite L.
  destruct (Z.eq_dec k (2 ^ p)) as [Ek|Hn'].
  - rewrite Ek, Z.log2_pow2 by lia.
    replace (Z.max s (p + e - (p - 1))) with (e + 1) by lia.
    exists (2 ^ (p - 1)). rewrite <- !Z.pow_add_r by lia. f_equal. lia.
  - assert (Z.log2 k < p) by (apply Z.log2_lt_pow2; lia).
    set (e' := Z.max s _).
    assert (s <= e' <= e) by (unfold e'; lia).
    exists (k * 2 ^ (e - e')).
    rewrite <- Z.mul_assoc, <- Z.pow_add_r by lia. do 2 f_equal. lia.
Qed.

(** Every result of [round64] is a binary64 number. *)
Lemma round64_binary64 n d : 0 < d -> is_binary64 (round64 n d).
Proof.
  intros Hd. unfold round64 at 1, round_to.
  set (r := round_mag 53 0 (Z.abs n) d).
  assert (Hr : 0 <= r) by (apply round_mag_nonneg; lia).
  destruct (2 ^ 2098 <=? r) eqn:EM; [destruct (n <? 0); exact I|].
  simpl. unfold round64, round_to.
  assert (Habs : Z.abs (Z.sgn n * r) = r).
  { destruct (Z.eq_dec n 0) as [->|Hn].
    - subst r. simpl Z.abs. rewrite round_mag_0 by lia. reflexivity.
    - destruct (Z.sgn_spec n) as [[? ->]|[[? ->]|[? ->]]]; lia. }
  assert (Hid : round_mag 53 0 r 1 = r)
    by (unfold r; apply round_mag_idem; lia).
  rewrite Habs. cbv zeta. rewrite !Hid, EM. f_equal.
  destruct (Z.eq_dec r 0) as [->|Hr0]; [lia|].
  destruct (Z.sgn_spec n) as [[? ->]|[[? ->]|[? ->]]].
  - rewrite Z.mul_1_l, (Z.sgn_pos r) by lia. lia.
  - reflexivity.
  - replace (-1 * r) with (- r) by lia.
    rewrite Z.sgn_opp, (Z.sgn_pos r) by lia. lia.
Qed.

Lemma is_binary64_fadd x y : is_binary64 (fadd x y).
Proof.
  destruct x, y; try exact I. simpl fadd. apply round64_binary64. lia.
Qed.

Lemma fadd_0_r x : is_binary64 x -> fadd x (Fin 0) = x.
Proof.
  destruct x; intros H; try reflexivity.
  simpl fadd. rewrite Z.add_0_r. exact H.
Qed.

Lemma is_binary64_0 : is_binary64 (Fin 0).
Proof. vm_compute. reflexivity. Qed.

Lemma fmul_0_0 : fmul (Fin 0) (Fin 0) = Fin 0.
Proof. vm_compute. reflexivity. Qed.

End Idempotence.

Section Fit.

Lemma count_finite col :
  Pd.count_not_nan (inf_to_nan col) = Py.len (finite_values col).
Proof.
  unfold Pd.count_not_nan, Py.len, finite_values, inf_to_nan. f_equal.
  induction col as [|v col IH]; [reflexivity|].
  simpl map. rewrite !filter_cons.
  destruct v; simpl; rewrite ?IH; reflexivity.
Qed.

Lemma sum_finite col acc :
  is_binary64 acc ->
  fold_left fadd (map Pd.nan_to_zero (inf_to_nan col)) acc
  = fold_left fadd (finite_values col) acc.
Proof.
  revert acc. induction col as [|v col IH]; intros acc Hacc; [reflexivity|].
  unfold finite_values. rewrite filter_cons. fold (finite_values col).
  simpl map. simpl fold_left.
  destruct v as [a| | |]; cbn [is_inf is_nan is_finite Pd.nan_to_zero negb orb decide].
  - simpl. apply IH, is_binary64_fadd.
  - simpl. rewrite fadd_0_r by exact Hacc. apply IH, Hacc.
  - simpl. rewrite fadd_0_r by exact Hacc. apply IH, Hacc.
  - simpl. rewrite fadd_0_r by exact Hacc. apply IH, Hacc.
Qed.

Lemma sum_sq_finite (avg : float) col acc :
  is_binary64 acc ->
  fold_left fadd
    (map (fun d => fmul d d)
       (map (fun x => if is_nan x then Fin 0 else fsub x avg) (inf_to_nan col))) acc
  = fold_left fadd
      (map (fun v => fmul (fsub v avg) (fsub v avg)) (finite_values col)) acc.
Proof.
  revert acc. induction col as [|v col IH]; intros acc Hacc; [reflexivity|].
  unfold finite_values. rewrite filter_cons. fold (finite_values col).
  simpl map. simpl fold_left.
  destruct v as [a| | |]; cbn [is_inf is_nan is_finite negb orb].
  - cbn -[fmul fadd fsub]. apply IH, is_binary64_fadd.
  - cbn -[fmul fadd fsub]. rewrite fmul_0_0, fadd_0_r by exact Hacc. apply IH, Hacc.
  - cbn -[fmul fadd fsub]. rewrite fmul_0_0, fadd_0_r by exact Hacc. apply IH, Hacc.
  - cbn -[fmul fadd fsub]. rewrite fmul_0_0, fadd_0_r by exact Hacc. apply IH, Hacc.
Qed.

Lemma nanmean_finite col : Pd.nanmean (inf_to_nan col) = mean_of (finite_values col).
Proof.
  unfold Pd.nanmean, mean_of, Pd.np_sum.
  rewrite count_finite, sum_finite by apply is_binary64_0. reflexivity.
Qed.

Lemma nanstd_finite col : Pd.nanstd (inf_to_nan col) = std_of (finite_values col).
Proof.
  unfold Pd.nanstd, Pd.nanvar, std_of, Pd.np_sum.
  rewrite count_finite, nanmean_finite, sum_sq_finite by apply is_binary64_0.
  reflexivity.
Qed.

(** [fit_standardizer] records, for each feature, the mean and the
    deviation of the finite values of its column. *)
Lemma fit_standardizer_lookup (train_df : Frame) c :
  fit_standardizer train_df !! name c
  = Some (fitted (finite_values (column c train_df))).
Proof.
  unfold fit_standardizer.
  rewrite (lookup_fold_insert
    (fun c => let x := inf_to_nan (column c train_df) in
              {[ "mean" := Pd.nanmean x;
                 "std" := if fgtb (Pd.nanstd x) (lit 1 (10 ^ 12)) then Pd.nanstd x
                          else lit 1 1 ]})).
  cbv zeta. rewrite nanmean_finite, nanstd_finite. reflexivity.
Qed.
End Fit.


Section Constant.

Lemma round64_scale a b c :
  0 <= a -> 0 < b -> 0 < c -> round64 (a * c) (b * c) = round64 a b.
Proof.
  intros Ha Hb Hc.
  rewrite !round64_nonneg by nia.
  rewrite round_mag_scale by lia. reflexivity.
Qed.

(** An integer of at most 53 bits is a binary64 number. *)
Lemma of_Z_exact n : 0 <= n <= 2 ^ 53 -> of_Z n = Fin (n * one_u).
Proof.
  intros Hn. unfold of_Z. pose proof one_u_pos as Hu.
  assert (K : n * one_u <= 1 * 2 ^ 1137).
  { replace 1137 with (63 + 1074) by lia. rewrite Z.pow_add_r by lia. fold one_u.
    rewrite Z.mul_1_l. apply Z.mul_le_mono_nonneg_r; lia. }
  destruct (round64_fin (n * one_u) 1 1137
              ltac:(apply Z.mul_nonneg_nonneg; lia) ltac:(lia) ltac:(lia) K) as [E _].
  rewrite E. f_equal. unfold one_u. apply round_mag_53; lia.
Qed.













End Constant.

Section ScenarioB.

Lemma holds_fit (train_df : Frame) :
  holds (fit_standardizer train_df) (fitted_mean train_df) (fitted_std train_df).
Proof.
  intros c. exists (fitted (finite_values (column c train_df))).
  split; [apply fit_standardizer_lookup|].
  unfold fitted, fitted_mean, fitted_std. cbv zeta. apply lookup_entry.
Qed.




End ScenarioB.

(* ================================================================== *)
(** * [time_split]: the cuts and the exact floors *)
(* ================================================================== *)

Section Cuts.

(** A sum below 1 is rounded by at most 2^-54. *)
Lemma round_mag_error (a : Z) :
  0 <= a < one_u ->
  2 * a - 2 ^ 1021 <= 2 * round_mag 53 0 a 1 /\
  2 * round_mag 53 0 a 1 <= 2 * a + 2 ^ 1021.
Proof.
  intros Ha. unfold round_mag.
  set (e := quantum 53 0 a 1).
  assert (He : 0 <= e <= 1021).
  { unfold e, quantum. rewrite Z.div_1_r.
    destruct (Z.eq_dec a 0) as [->|Hn]; [simpl; lia|].
    assert (Z.log2 a < 1074) by (apply Z.log2_lt_pow2; [lia|apply Ha]).
    pose proof (Z.log2_nonneg a). lia. }
  assert (P : 0 < 2 ^ e) by (apply Z.pow_pos_nonneg; lia).
  assert (Q : 2 ^ e <= 2 ^ 1021) by (apply Z.pow_le_mono_r; lia).
  destruct (rne_upper a (1 * 2 ^ e) ltac:(lia)) as [U _].
  destruct (rne_lower a (1 * 2 ^ e) ltac:(lia)) as [L _].
  set (r := rne a (1 * 2 ^ e)) in *. nia.
Qed.

(** The product of a row count and a fraction lies between the binary64
    numbers that bound the exact product: [a] and [b] count halves. *)
Lemma fmul_between (N s a b : Z) :
  0 <= N <= 2 ^ 53 -> 0 <= s <= one_u ->
  0 <= a <= 2 ^ 53 -> 0 <= b <= 2 ^ 53 ->
  a * 2 ^ 1073 <= N * s -> N * s <= b * 2 ^ 1073 ->
  exists z, fmul (of_Z N) (Fin s) = Fin z /\
            a * 2 ^ 1073 <= z /\ z <= b * 2 ^ 1073.
Proof.
  intros HN Hs Ha Hb Hlo Hhi. pose proof one_u_pos as Hu.
  rewrite of_Z_exact by lia. cbn [fmul].
  replace (N * one_u * s) with (N * s * one_u) by ring.
  assert (HNs : 0 <= N * s) by (apply Z.mul_nonneg_nonneg; lia).
  assert (Hsc : round64 (N * s * one_u) one_u = round64 (N * s) 1).
  { rewrite <- (round64_scale (N * s) 1 one_u) by lia. rewrite Z.mul_1_l. reflexivity. }
  rewrite Hsc.
  assert (K : N * s <= 1 * 2 ^ 1137).
  { replace 1137 with (63 + 1074) by lia. rewrite Z.pow_add_r by lia. fold one_u.
    rewrite Z.mul_1_l. apply Z.mul_le_mono_nonneg; lia. }
  destruct (round64_fin (N * s) 1 1137 HNs ltac:(lia) ltac:(lia) K) as [E _].
  rewrite E. eexists. split; [reflexivity|]. split.
  - rewrite <- (round_mag_53 a 1073) by lia. apply round_mag_mono; lia.
  - rewrite <- (round_mag_53 b 1073) by lia. apply round_mag_mono; lia.
Qed.

Lemma one_u_halves : one_u = 2 * 2 ^ 1073.
Proof. unfold one_u. replace 1074 with (1 + 1073) by lia. rewrite Z.pow_add_r by lia. reflexivity. Qed.

(** The first cut: the exact floor, or one more. *)
Lemma cut1_exact (N t : Z) :
  0 <= N < 2 ^ 52 -> 0 <= t < one_u ->
  exists z, fmul (of_Z N) (Fin t) = Fin z /\
            exact_floor N t <= z / one_u <= exact_floor N t + 1.
Proof.
  intros HN Ht. pose proof one_u_pos as Hu. pose proof one_u_halves as EU.
  assert (HP : 0 < 2 ^ 1073) by (apply Z.pow_pos_nonneg; lia).
  assert (H52 : 2 * 2 ^ 52 = 2 ^ 53) by reflexivity.
  unfold exact_floor. set (k := N * t / one_u).
  assert (HNt : 0 <= N * t) by (apply Z.mul_nonneg_nonneg; lia).
  assert (Hk0 : 0 <= k) by (apply Z.div_pos; lia).
  assert (Hk1 : k * one_u <= N * t) by (rewrite Z.mul_comm; apply Z.mul_div_le; lia).
  assert (Hk2 : N * t < (k + 1) * one_u).
  { pose proof (Z.mod_pos_bound (N * t) one_u Hu).
    pose proof (Z.div_mod (N * t) one_u ltac:(lia)). fold k in H0. lia. }
  assert (HkN : k <= N) by nia.
  destruct (fmul_between N t (2 * k) (2 * (k + 1)) ltac:(lia) ltac:(lia)
              ltac:(lia) ltac:(lia)) as (z & Ez & Lo & Hi).
  - rewrite <- Z.mul_assoc, (Z.mul_comm k), Z.mul_assoc, <- EU, Z.mul_comm. exact Hk1.
  - replace (2 * (k + 1) * 2 ^ 1073) with ((k + 1) * one_u) by (rewrite EU; ring). lia.
  - exists z. split; [exact Ez|]. split.
    + apply Z.div_le_lower_bound; [exact Hu|]. rewrite EU. lia.
    + replace (2 * (k + 1) * 2 ^ 1073) with ((k + 1) * one_u) in Hi by (rewrite EU; ring).
      replace ((k + 1) * one_u) with (0 + (k + 1) * one_u) in Hi by ring.
      assert (z / one_u <= (0 + (k + 1) * one_u) / one_u)
        by (apply Z.div_le_mono; lia).
      rewrite Z.div_add in H by lia. rewrite Z.div_0_l in H by lia. lia.
Qed.

(** The second cut: within one of the exact floor (the sum of the two
    fractions is rounded first, then the product). *)
Lemma cut2_exact (N t v : Z) :
  0 <= N < 2 ^ 52 -> 0 <= t -> 0 <= v -> t + v < one_u ->
  exists s z, fadd (Fin t) (Fin v) = Fin s /\
              fmul (of_Z N) (Fin s) = Fin z /\
              exact_floor N (t + v) - 1 <= z / one_u <= exact_floor N (t + v) + 1.
Proof.
  intros HN Ht Hv Hs. pose proof one_u_pos as Hu. pose proof one_u_halves as EU.
  assert (HP : 0 < 2 ^ 1073) by (apply Z.pow_pos_nonneg; lia).
  assert (H52 : 2 * 2 ^ 52 = 2 ^ 53) by reflexivity.
  cbn [fadd].
  assert (Hk : t + v <= 1 * 2 ^ 1074) by (fold one_u; lia).
  destruct (round64_fin (t + v) 1 1074 ltac:(lia) ltac:(lia) ltac:(lia) Hk) as [E B].
  fold one_u in B.
  destruct (round_mag_error (t + v) ltac:(lia)) as [E1 E2].
  set (s := round_mag 53 0 (t + v) 1) in *.
  unfold exact_floor. set (K := N * (t + v) / one_u).
  assert (HNt : 0 <= N * (t + v)) by (apply Z.mul_nonneg_nonneg; lia).
  assert (HK0 : 0 <= K) by (apply Z.div_pos; lia).
  assert (HK1 : K * one_u <= N * (t + v)) by (rewrite Z.mul_comm; apply Z.mul_div_le; lia).
  assert (HK2 : N * (t + v) < (K + 1) * one_u).
  { pose proof (Z.mod_pos_bound (N * (t + v)) one_u Hu).
    pose proof (Z.div_mod (N * (t + v)) one_u ltac:(lia)). fold K in H0. lia. }
  assert (HKN : K < N \/ N = 0) by nia.
  assert (P1021 : 2 ^ 52 * 2 ^ 1021 = 2 ^ 1073) by (rewrite <- Z.pow_add_r by lia; reflexivity).
  assert (P0 : 0 < 2 ^ 1021) by (apply Z.pow_pos_nonneg; lia).
  (* N * s is within a quarter of N * (t + v) *)
  assert (M0 : N * 2 ^ 1021 <= 2 ^ 52 * 2 ^ 1021)
    by (apply Z.mul_le_mono_nonneg_r; lia).
  assert (M1 : N * (2 * s) <= N * (2 * (t + v) + 2 ^ 1021))
    by (apply Z.mul_le_mono_nonneg_l; lia).
  assert (M2 : N * (2 * (t + v) - 2 ^ 1021) <= N * (2 * s))
    by (apply Z.mul_le_mono_nonneg_l; lia).
  assert (D1 : 2 * (N * s) <= 2 * (N * (t + v)) + 2 ^ 1073) by lia.
  assert (D2 : 2 * (N * (t + v)) - 2 ^ 1073 <= 2 * (N * s)) by lia.
  destruct (fmul_between N s (Z.max 0 (2 * K - 1)) (2 * K + 3) ltac:(lia) ltac:(lia)
              ltac:(lia) ltac:(lia)) as (z & Ez & Lo & Hi).
  - destruct (Z.max_spec 0 (2 * K - 1)) as [[_ ->]|[_ ->]].
    + rewrite EU in HK1. nia.
    + rewrite Z.mul_0_l. apply Z.mul_nonneg_nonneg; lia.
  - rewrite EU in HK2. nia.
  - exists s, z. split; [exact E|]. split; [exact Ez|]. split.
    + apply Z.div_le_lower_bound; [exact Hu|]. rewrite EU.
      destruct (Z.max_spec 0 (2 * K - 1)) as [[_ M]|[_ M]]; rewrite M in Lo; nia.
    + assert (z < (K + 2) * one_u) by (rewrite EU; nia).
      assert (z / one_u < K + 2) by (apply Z.div_lt_upper_bound; lia).
      lia.
Qed.

(** C3 (amended).  For a frame of N rows (N below 2^52) and binary64
    fractions train_frac and val_frac in (0,1) whose sum is below 1,
    [time_split] returns train = rows[0:cut1), val = rows[cut1:cut2) and
    test = rows[cut2:N) with 0 <= cut1 <= cut2 <= N.  The cuts are the
    integer parts of the binary64 products N * train_frac and
    N * (train_frac + val_frac), functions of N and the fractions alone;
    they are not always the exact floors: cut1 is floor(N * train_frac)
    or one more, and cut2 is within one of
    floor(N * (train_frac + val_frac)).  The three slices in order make up
    the frame again, and their lengths sum to N. *)
Theorem time_split_cuts {A : Type} (df : list A) (t v : Z) :
  Py.len df < 2 ^ 52 ->
  is_binary64 (Fin t) ->
  0 < t < one_u -> 0 < v < one_u -> t + v < one_u ->
  exists cut1 cut2 : nat,
    time_split df (Fin t) (Fin v)
      = Ok (take cut1 df, drop cut1 (take cut2 df), drop cut2 df) /\
    (cut1 <= cut2 <= length df)%nat /\
    floor (fmul (of_Z (Py.len df)) (Fin t)) = Some (Z.of_nat cut1) /\
    floor (fmul (of_Z (Py.len df)) (fadd (Fin t) (Fin v))) = Some (Z.of_nat cut2) /\
    (exact_floor (Py.len df) t <= Z.of_nat cut1 <= exact_floor (Py.len df) t + 1) /\
    (exact_floor (Py.len df) (t + v) - 1 <= Z.of_nat cut2
       <= exact_floor (Py.len df) (t + v) + 1) /\
    take cut1 df ++ drop cut1 (take cut2 df) ++ drop cut2 df = df /\
    (length (take cut1 df) + length (drop cut1 (take cut2 df))
       + length (drop cut2 df) = length df)%nat.
Proof.
  intros HN Hb Ht Hv Hs.
  assert (H63 : Py.len df < 2 ^ 63).
  { assert (2 ^ 52 < 2 ^ 63) by (apply Z.pow_lt_mono_r; lia). lia. }
  assert (H53 : Py.len df <= 2 ^ 53).
  { assert (2 ^ 52 <= 2 ^ 53) by (apply Z.pow_le_mono_r; lia). lia. }
  assert (HN0 : 0 <= Py.len df < 2 ^ 52) by (unfold Py.len in *; lia).
  destruct (time_split_wellformed df t v H63 Hb Ht Hv Hs)
    as (c1 & c2 & F1 & F2 & Hts & Hle & Hc2 & Happ & Hlen).
  exists c1, c2.
  split; [exact Hts|]. split; [split; [exact Hle|exact (Hc2 H53)]|].
  split; [exact F1|]. split; [exact F2|].
  destruct (cut1_exact (Py.len df) t HN0 ltac:(lia)) as (z1 & Ez1 & B1).
  destruct (cut2_exact (Py.len df) t v HN0 ltac:(lia) ltac:(lia) Hs)
    as (s & z2 & Es & Ez2 & B2).
  rewrite Ez1 in F1. rewrite Es, Ez2 in F2. cbn [floor] in F1, F2.
  apply (inj Some) in F1. apply (inj Some) in F2.
  rewrite F1 in B1. rewrite F2 in B2.
  split; [exact B1|]. split; [exact B2|]. split; [exact Happ|exact Hlen].
Qed.
End Cuts.

Lemma time_split_cuts_witness :
  let df := seq 0 10 in
  let t := grid (lit 7 10) in
  let v := grid (lit 15 100) in
  exists cut1 cut2 : nat,
    time_split df (Fin t) (Fin v)
      = Ok (take cut1 df, drop cut1 (take cut2 df), drop cut2 df) /\
    (cut1 <= cut2 <= length df)%nat /\
    floor (fmul (of_Z (Py.len df)) (Fin t)) = Some (Z.of_nat cut1) /\
    floor (fmul (of_Z (Py.len df)) (fadd (Fin t) (Fin v))) = Some (Z.of_nat cut2) /\
    (exact_floor (Py.len df) t <= Z.of_nat cut1 <= exact_floor (Py.len df) t + 1) /\
    (exact_floor (Py.len df) (t + v) - 1 <= Z.of_nat cut2
       <= exact_floor (Py.len df) (t + v) + 1) /\
    take cut1 df ++ drop cut1 (take cut2 df) ++ drop cut2 df = df /\
    (length (take cut1 df) + length (drop cut1 (take cut2 df))
       + length (drop cut2 df) = length df)%nat.
Proof.
  intros df t v.
  apply (time_split_cuts df t v).
  - vm_compute. reflexivity.
  - vm_compute. reflexivity.
  - vm_compute. split; reflexivity.
  - vm_compute. split; reflexivity.
  - vm_compute. reflexivity.
Defined.

(** The cuts are not the exact floors.  Ten rows with the fractions 0.7
    and 0.15: the product 10 * 0.7 is rounded up to 7.0, so the train
    split holds 7 rows, while the exact floor of 10 times the binary64
    number 0.7 is 6.  Ninety rows: 90 * 0.7 is 62.99999999999999 in
    binary64, so the train split holds 62 rows, while floor(90 * 7/10) is
    63. *)
Lemma time_split_counterexample :
  lit 7 10 = Fin (grid (lit 7 10)) /\
  time_split (seq 0 10) (lit 7 10) (lit 15 100) = Ok (seq 0 7, seq 7 1, seq 8 2) /\
  exact_floor 10 (grid (lit 7 10)) = 6 /\
  time_split (seq 0 90) (lit 7 10) (lit 15 100) = Ok (seq 0 62, seq 62 14, seq 76 14) /\
  exact_floor 90 (grid (lit 7 10)) = 62 /\
  90 * 7 / 10 = 63.
Proof. vm_compute. repeat split. Qed.

(* ================================================================== *)
(** * Configuration errors *)
(* ================================================================== *)


Section NoValidation.

Lemma int_raises x e : Py.int x = Raise e -> e = ValueError \/ e = OverflowError.
Proof. destruct x; simpl; intros H; inversion H; auto. Qed.

Lemma float_of_int_raises n e : Py.float_of_int n = Raise e -> e = OverflowError.
Proof. unfold Py.float_of_int. destruct (of_Z n); intros H; inversion H; auto. Qed.

(** [time_split] raises only what [int()] and the conversion of [len]
    raise. *)
Lemma time_split_raises {A : Type} (df : list A) tf vf e :
  time_split df tf vf = Raise e -> e = ValueError \/ e = OverflowError.
Proof.
  unfold time_split.
  destruct (Py.float_of_int (Py.len df)) as [n|e0] eqn:E0; cbn [mbind result_bind].
  - destruct (Py.int (fmul n tf)) as [c1|e1] eqn:E1; cbn [mbind result_bind].
    + destruct (Py.int (fmul n (fadd tf vf))) as [c2|e2] eqn:E2; cbn [mbind result_bind].
      * discriminate.
      * intros H. injection H as <-. eapply int_raises, E2.
    + intros H. injection H as <-. eapply int_raises, E1.
  - intros H. injection H as <-. right. eapply float_of_int_raises, E0.
Qed.

Lemma foldM_raises {A B : Type} (E : exn -> Prop) (f : B -> A -> result B) l acc e :
  (forall acc x e, f acc x = Raise e -> E e) ->
  foldM f acc l = Raise e -> E e.
Proof.
  intros Hf. revert acc. induction l as [|x l IH]; intros acc; simpl.
  - discriminate.
  - destruct (f acc x) as [acc'|e'] eqn:Ef; cbn [mbind result_bind].
    + apply IH.
    + intros H. injection H as <-. eapply Hf, Ef.
Qed.

Lemma index_raises {A : Type} (l : list A) i e : Py.index l i = Raise e -> e = IndexError.
Proof.
  unfold Py.index. cbv zeta.
  destruct (_ <? 0); [intros H; inversion H; auto|].
  destruct (l !! _); intros H; inversion H; auto.
Qed.

Lemma stack_raises {A : Type} (xs : list (list A)) e : Pd.stack xs = Raise e -> e = ValueError.
Proof.
  unfold Pd.stack. destruct xs; [intros H; inversion H; auto|].
  destruct (forallb _ _); intros H; inversion H; auto.
Qed.

(** [make_sequences] raises only for a window length below 1, and then
    only what the indexing of the labels and [np.stack] raise. *)
Lemma make_sequences_raises (df : Frame) (S : Z) e :
  make_sequences df S = Raise e -> S <= 0 /\ (e = IndexError \/ e = ValueError).
Proof.
  intros H. split.
  { destruct (Z_le_gt_dec S 0) as [|Hpos]; [assumption|].
    rewrite make_sequences_positive in H by lia. discriminate. }
  revert H. unfold make_sequences.
  match goal with |- context [foldM ?f ?a ?l] =>
    destruct (foldM f a l) as [[X_all y_all]|e0] eqn:E0 end; cbn [mbind result_bind].
  - destruct X_all as [|x X_all].
    + destruct (S <? 0); cbn [mbind result_bind]; intros H; inversion H; auto.
    + destruct (Pd.stack (x :: X_all)) eqn:Es; cbn [mbind result_bind];
        intros H; inversion H; subst. right. eapply stack_raises, Es.
  - intros H. injection H as <-. left.
    eapply (foldM_raises (fun e => e = IndexError)); [|exact E0].
    intros [X y] [tkr g] e' He'. cbv zeta in He'.
    eapply (foldM_raises (fun e => e = IndexError)); [|exact He'].
    intros [X' y'] t e'' He''. cbv zeta in He''.
    destruct (Py.index (labels_of g) t) eqn:Ei; cbn [mbind result_bind] in He''.
    + discriminate.
    + injection He'' as <-. eapply index_raises, Ei.
Qed.
End NoValidation.

(** C9 (amended). Nothing is validated and no configuration error exists:
    [time_split] raises only the ValueError or OverflowError of [int()]
    on a product that is NaN or infinite, and with well-formed fractions
    it has no failure condition at all; [make_sequences] raises only for
    a window length below 1, and then only the IndexError of the label
    indexing or the ValueError of [np.stack]. *)
Theorem no_config_validation :
  (forall (A : Type) (df : list A) (tf vf : float) (e : exn),
     time_split df tf vf = Raise e -> e = ValueError \/ e = OverflowError) /\
  (forall (A : Type) (df : list A) (t v : Z),
     Py.len df < 2 ^ 63 -> is_binary64 (Fin t) ->
     0 < t < one_u -> 0 < v < one_u -> t + v < one_u ->
     exists parts, time_split df (Fin t) (Fin v) = Ok parts) /\
  (forall (df : Frame) (S : Z) (e : exn),
     make_sequences df S = Raise e ->
     S <= 0 /\ (e = IndexError \/ e = ValueError)).
Proof.
  split; [|split].
  - intros A df tf vf e. apply time_split_raises.
  - intros A df t v HN Hb Ht Hv Hs.
    destruct (time_split_wellformed df t v HN Hb Ht Hv Hs) as (c1 & c2 & _ & _ & H & _).
    eexists. exact H.
  - apply make_sequences_raises.
Qed.

(** Ill-formed configurations are not refused: a train fraction of 1.5, a
    pair of fractions whose sum is 1.2 and a negative fraction all give
    three slices, and a window length of 0 gives L + 1 empty windows. *)
Lemma no_config_error_counterexample :
  time_split [1; 2; 3; 4]%nat (lit 15 10) (lit 15 100)
    = Ok ([1; 2; 3; 4]%nat, [], []) /\
  time_split [1; 2; 3; 4]%nat (lit 7 10) (lit 5 10)
    = Ok ([1; 2]%nat, [3; 4]%nat, []) /\
  time_split [1; 2; 3; 4]%nat (lit (-5) 10) (lit 15 100)
    = Ok ([1; 2]%nat, [3]%nat, [4]%nat) /\
  make_sequences [score_row 1 (Fin 0); score_row 2 (Fin 0)] 0
    = Ok ([[]; []; []], [Fin 0; Fin 0; Fin 0]).
Proof. vm_compute. repeat split. Qed.

(** * The training loop: early stopping *)

Section EarlyStopping.

Lemma range_cons a b : a < b -> Py.range a b = a :: Py.range (a + 1) b.
Proof.
  intros H. unfold Py.range.
  replace (Z.to_nat (b - a)) with (S (Z.to_nat (b - (a + 1)))) by lia.
  cbn [seq map]. f_equal; [lia|].
  rewrite <- seq_shift, map_map. apply map_ext. intros i. lia.
Qed.

Lemma improves_1 : fgtb (lit 50 100) (fadd (Fin 0) (lit 1 (10 ^ 4))) = true.
Proof. vm_compute. reflexivity. Qed.
Lemma improves_2 : fgtb (lit 51 100) (fadd (lit 50 100) (lit 1 (10 ^ 4))) = true.
Proof. vm_compute. reflexivity. Qed.
Lemma improves_not : fgtb (lit 51 100) (fadd (lit 51 100) (lit 1 (10 ^ 4))) = false.
Proof. vm_compute. reflexivity. Qed.

Context {Torch Params : Type}.
Variable state_dict : Torch -> Params.
Variables train eval : Torch -> result (Torch * (float * float)).

(** One epoch that improves, and one that does not. *)
Lemma loop_improves epoch es m m1 m1' tl ta vl va best left args_patience
    (w : World Params) :
  train m = Ok (m1, (tl, ta)) -> eval m1 = Ok (m1', (vl, va)) ->
  fgtb va (fadd best (lit 1 (10 ^ 4))) = true ->
  training_loop state_dict train eval args_patience (epoch :: es) m best left w
  = training_loop state_dict train eval args_patience es m1' va args_patience
      (mkWorld (scaler_json w) (Some (state_dict m1')) (meta_json w)
         (stdout w ++ [EpochLine epoch tl ta vl va])).
Proof.
  intros Ht He Hi. cbn [training_loop]. unfold bind at 1, lift at 1. rewrite Ht.
  unfold bind at 1, lift at 1. rewrite He.
  unfold bind at 1, print at 1. rewrite Hi.
  unfold bind at 1, torch_save at 1. reflexivity.
Qed.

Lemma loop_waits epoch es m m1 m1' tl ta vl va best left args_patience
    (w : World Params) :
  train m = Ok (m1, (tl, ta)) -> eval m1 = Ok (m1', (vl, va)) ->
  fgtb va (fadd best (lit 1 (10 ^ 4))) = false -> 0 < left - 1 ->
  training_loop state_dict train eval args_patience (epoch :: es) m best left w
  = training_loop state_dict train eval args_patience es m1' best (left - 1)
      (mkWorld (scaler_json w) (model_pt w) (meta_json w)
         (stdout w ++ [EpochLine epoch tl ta vl va])).
Proof.
  intros Ht He Hi Hl. cbn [training_loop]. unfold bind at 1, lift at 1. rewrite Ht.
  unfold bind at 1, lift at 1. rewrite He.
  unfold bind at 1, print at 1. rewrite Hi.
  replace (left - 1 <=? 0) with false by lia. reflexivity.
Qed.

Lemma loop_stops epoch es m m1 m1' tl ta vl va best left args_patience
    (w : World Params) :
  train m = Ok (m1, (tl, ta)) -> eval m1 = Ok (m1', (vl, va)) ->
  fgtb va (fadd best (lit 1 (10 ^ 4))) = false -> left - 1 <= 0 ->
  training_loop state_dict train eval args_patience (epoch :: es) m best left w
  = (mkWorld (scaler_json w) (model_pt w) (meta_json w)
       (stdout w ++ [EpochLine epoch tl ta vl va; EarlyStopping]), Ok m1').
Proof.
  intros Ht He Hi Hl. cbn [training_loop]. unfold bind at 1, lift at 1. rewrite Ht.
  unfold bind at 1, lift at 1. rewrite He.
  unfold bind at 1, print at 1. rewrite Hi.
  replace (left - 1 <=? 0) with true by lia.
  unfold bind, print, ret. cbn [stdout scaler_json model_pt meta_json].
  rewrite <- app_assoc. reflexivity.
Qed.

(** C1 (amended).  Scenario C on the loop of [main]: with patience 2 and
    validation accuracies 0.50, 0.51, 0.51, 0.51 in the first four epochs,
    under the test [va_acc > best_val_acc + 1e-4], the loop stops after
    epoch 4.  Epochs 1 and 2 improve (0.51 > 0.50 + 1e-4) and save the
    model; epochs 3 and 4 are the two epochs without improvement; the loop
    prints the four epoch lines and the line of early stopping, runs no
    fifth epoch, and the saved model is that of epoch 2. *)
Theorem scenario_C_stops_after_epoch_4 (epochs : Z) (w : World Params)
    (m0 m1 m1' m2 m2' m3 m3' m4 m4' : Torch)
    (tl1 ta1 vl1 tl2 ta2 vl2 tl3 ta3 vl3 tl4 ta4 vl4 : float) :
  4 <= epochs ->
  train m0 = Ok (m1, (tl1, ta1)) -> eval m1 = Ok (m1', (vl1, lit 50 100)) ->
  train m1' = Ok (m2, (tl2, ta2)) -> eval m2 = Ok (m2', (vl2, lit 51 100)) ->
  train m2' = Ok (m3, (tl3, ta3)) -> eval m3 = Ok (m3', (vl3, lit 51 100)) ->
  train m3' = Ok (m4, (tl4, ta4)) -> eval m4 = Ok (m4', (vl4, lit 51 100)) ->
  training_loop state_dict train eval 2 (Py.range 1 (epochs + 1)) m0 (Fin 0) 2 w
  = (mkWorld (scaler_json w) (Some (state_dict m2')) (meta_json w)
       (stdout w ++ [EpochLine 1 tl1 ta1 vl1 (lit 50 100);
                     EpochLine 2 tl2 ta2 vl2 (lit 51 100);
                     EpochLine 3 tl3 ta3 vl3 (lit 51 100);
                     EpochLine 4 tl4 ta4 vl4 (lit 51 100);
                     EarlyStopping]),
     Ok m4').
Proof.
  intros He T1 E1 T2 E2 T3 E3 T4 E4.
  rewrite (range_cons 1), (range_cons (1 + 1)), (range_cons (1 + 1 + 1)),
    (range_cons (1 + 1 + 1 + 1)) by lia.
  rewrite (loop_improves _ _ _ _ _ _ _ _ _ _ _ _ _ T1 E1 improves_1).
  rewrite (loop_improves _ _ _ _ _ _ _ _ _ _ _ _ _ T2 E2 improves_2).
  rewrite (loop_waits _ _ _ _ _ _ _ _ _ _ _ _ _ T3 E3 improves_not) by lia.
  rewrite (loop_stops _ _ _ _ _ _ _ _ _ _ _ _ _ T4 E4 improves_not) by lia.
  cbn [stdout scaler_json model_pt meta_json].
  rewrite <- !app_assoc. reflexivity.
Qed.
End EarlyStopping.

Lemma scenario_C_stops_after_epoch_4_witness :
  training_loop (fun m : nat => m) scripted_train (scripted_eval scenario_C)
    2 (Py.range 1 (30 + 1)) 0%nat (Fin 0) 2 (mkWorld None None None [])
  = (mkWorld None (Some 2%nat) None
       ([] ++ [EpochLine 1 (Fin 0) (Fin 0) (Fin 0) (lit 50 100);
               EpochLine 2 (Fin 0) (Fin 0) (Fin 0) (lit 51 100);
               EpochLine 3 (Fin 0) (Fin 0) (Fin 0) (lit 51 100);
               EpochLine 4 (Fin 0) (Fin 0) (Fin 0) (lit 51 100);
               EarlyStopping]),
     Ok 4%nat).
Proof.
  apply (scenario_C_stops_after_epoch_4 (fun m : nat => m) scripted_train
           (scripted_eval scenario_C) 30 (mkWorld None None None [])
           0%nat 1%nat 1%nat 2%nat 2%nat 3%nat 3%nat 4%nat 4%nat);
    [lia|reflexivity..].
Defined.

(** Scenario C on the code: with patience 2 and the accuracies 0.50, 0.51,
    0.51, 0.51 the loop runs epoch 4 and stops there, not after epoch 3. *)
Lemma scenario_C_counterexample :
  let run :=
    training_loop (fun m : nat => m) scripted_train (scripted_eval scenario_C)
      2 (Py.range 1 (30 + 1)) 0%nat (Fin 0) 2 (mkWorld None None None []) in
  val_accs_of (stdout run.1) = scenario_C /\
  epochs_of (stdout run.1) = [1; 2; 3; 4] /\
  last (stdout run.1) = Some EarlyStopping /\
  run.2 = Ok 4%nat.
Proof. vm_compute. repeat split. Qed.

(** * The training program: the exception of insufficient data *)

Section Commands.
Context {Params : Type}.

Lemma tame_bind {A B : Type} (m : Cmd Params A) (k : A -> Cmd Params B) :
  tame m -> (forall a, tame (k a)) -> tame (bind m k).
Proof.
  intros [Qm Km] Hk. split.
  - intros w e. unfold bind. specialize (Qm w). specialize (Km w).
    destruct (m w) as [w' [a|e']]; simpl in *.
    + apply (Hk a).
    + intros H. injection H as <-. apply Qm. reflexivity.
  - intros w. unfold bind. specialize (Km w).
    destruct (m w) as [w' [a|e']]; simpl in *.
    + rewrite <- Km. apply (Hk a).
    + exact Km.
Qed.

Lemma tame_lift {A : Type} (r : result A) :
  (forall e, r = Raise e -> is_runtime_error e = false) -> tame (lift (Params := Params) r).
Proof.
  intros H. split.
  - intros w e. unfold lift. simpl. apply H.
  - intros w. reflexivity.
Qed.

Lemma tame_ret {A : Type} (a : A) : tame (ret (Params := Params) a).
Proof. split; [intros w e; discriminate|intros w; reflexivity]. Qed.

Lemma tame_print l : tame (print (Params := Params) l).
Proof. split; [intros w e; discriminate|intros w; reflexivity]. Qed.

Lemma tame_torch_save p : tame (torch_save (Params := Params) p).
Proof. split; [intros w e; discriminate|intros w; reflexivity]. Qed.

Lemma tame_dump_meta m : tame (dump_meta (Params := Params) m).
Proof. split; [intros w e; discriminate|intros w; reflexivity]. Qed.

Lemma tame_torch_load : tame (torch_load (Params := Params)).
Proof.
  split; [|intros w; reflexivity].
  intros w e. unfold torch_load. simpl. destruct (model_pt w); intros H; inversion H.
  reflexivity.
Qed.
End Commands.

Section Stages.

Lemma div_float_int_quiet x n e :
  Py.div_float_int x n = Raise e -> is_runtime_error e = false.
Proof.
  unfold Py.div_float_int, Py.float_of_int.
  destruct (n =? 0); [intros H; inversion H; reflexivity|].
  destruct (of_Z n); cbn [mbind result_bind]; intros H; inversion H; reflexivity.
Qed.

Lemma div_int_int_quiet a b e :
  Py.div_int_int a b = Raise e -> is_runtime_error e = false.
Proof.
  unfold Py.div_int_int.
  destruct (b =? 0); [intros H; inversion H; reflexivity|].
  destruct (round64 _ _); intros H; inversion H; reflexivity.
Qed.

Lemma DataLoader_quiet X y b s e :
  DataLoader X y b s = Raise e -> is_runtime_error e = false.
Proof.
  unfold DataLoader. destruct (b <=? 0); intros H; inversion H; reflexivity.
Qed.

Lemma load_dataset_quiet td tn csv tickers e :
  load_dataset td tn csv tickers = Raise e -> is_runtime_error e = false.
Proof.
  unfold load_dataset. fold (kept csv tickers).
  pose proof (parse_dates td (kept csv tickers)) as HP.
  destruct (mapM _ (kept csv tickers)) as [df|e0]; cbn [mbind result_bind].
  - discriminate.
  - intros H. injection H as <-. destruct HP as [-> _]. reflexivity.
Qed.

Lemma time_split_quiet {A : Type} (df : list A) tf vf e :
  time_split df tf vf = Raise e -> is_runtime_error e = false.
Proof. intros H. apply time_split_raises in H as [->| ->]; reflexivity. Qed.

Lemma make_sequences_quiet df S e :
  make_sequences df S = Raise e -> is_runtime_error e = false.
Proof. intros H. apply make_sequences_raises in H as [_ [->| ->]]; reflexivity. Qed.

Lemma getitem_quiet {V : Type} (d : gmap string V) k e :
  getitem d k = Raise e -> is_runtime_error e = false.
Proof. unfold getitem. destruct (d !! k); intros H; inversion H; reflexivity. Qed.

Lemma apply_standardizer_quiet df stats e :
  apply_standardizer df stats = Raise e -> is_runtime_error e = false.
Proof.
  unfold apply_standardizer.
  apply (foldM_raises (fun e => is_runtime_error e = false)).
  intros out c e'.
  destruct (getitem stats (name c)) as [en|e1] eqn:E1; cbn [mbind result_bind];
    [|intros H; injection H as <-; eapply getitem_quiet, E1].
  destruct (getitem en "mean") as [mu|e2] eqn:E2; cbn [mbind result_bind];
    [|intros H; injection H as <-; eapply getitem_quiet, E2].
  destruct (getitem en "std") as [sd|e3] eqn:E3; cbn [mbind result_bind];
    [discriminate|intros H; injection H as <-; eapply getitem_quiet, E3].
Qed.

Context {Torch Params : Type}.
Variable new_model : Z -> Z -> Z -> float -> float -> Torch.
Variable train_step : Torch -> list Window -> list float -> Torch * list float * float.
Variable eval_step : Torch -> list Window -> list float -> list float * float.
Variable sigmoid : float -> float.
Variable shuffle : Torch -> list (Window * float) -> Torch * list (Window * float).
Variable state_dict : Torch -> Params.
Variable load_state_dict : Torch -> Params -> Torch.

Lemma train_one_quiet m loader e :
  train_one train_step sigmoid shuffle m loader = Raise e ->
  is_runtime_error e = false.
Proof.
  unfold train_one.
  destruct (iterate _ _ _ _) as [m' bs].
  destruct (fold_left _ _ _) as [[[m'' total] correct] loss_sum].
  destruct (Py.div_float_int loss_sum total) as [l|e1] eqn:E1; cbn [mbind result_bind];
    [|intros H; injection H as <-; eapply div_float_int_quiet, E1].
  destruct (Py.div_int_int correct total) as [a|e2] eqn:E2; cbn [mbind result_bind];
    [discriminate|intros H; injection H as <-; eapply div_int_int_quiet, E2].
Qed.

Lemma evaluate_quiet m loader e :
  evaluate eval_step sigmoid shuffle m loader = Raise e ->
  is_runtime_error e = false.
Proof.
  unfold evaluate.
  destruct (iterate _ _ _ _) as [m' bs].
  destruct (fold_left _ _ _) as [[total correct] loss_sum].
  destruct (Py.div_float_int loss_sum total) as [l|e1] eqn:E1; cbn [mbind result_bind];
    [|intros H; injection H as <-; eapply div_float_int_quiet, E1].
  destruct (Py.div_int_int correct total) as [a|e2] eqn:E2; cbn [mbind result_bind];
    [discriminate|intros H; injection H as <-; eapply div_int_int_quiet, E2].
Qed.

(** The epoch loop never raises the exception of insufficient data and
    never writes the statistics file. *)
Lemma tame_training_loop (train eval : Torch -> result (Torch * (float * float)))
    args_patience es m best left :
  (forall m e, train m = Raise e -> is_runtime_error e = false) ->
  (forall m e, eval m = Raise e -> is_runtime_error e = false) ->
  tame (training_loop state_dict train eval args_patience es m best left).
Proof.
  intros Ht He. revert m best left.
  induction es as [|epoch es IH]; intros m best left; cbn [training_loop].
  - apply tame_ret.
  - apply tame_bind; [apply tame_lift, Ht|]. intros [m1 [tl ta]].
    apply tame_bind; [apply tame_lift, He|]. intros [m2 [vl va]].
    apply tame_bind; [apply tame_print|]. intros _.
    destruct (fgtb va _).
    + apply tame_bind; [apply tame_torch_save|]. intros _. apply IH.
    + destruct (left - 1 <=? 0).
      * apply tame_bind; [apply tame_print|]. intros _. apply tame_ret.
      * apply IH.
Qed.
End Stages.

Section Main.
Context {Torch Params : Type}.
Variable new_model : Z -> Z -> Z -> float -> float -> Torch.
Variable train_step : Torch -> list Window -> list float -> Torch * list float * float.
Variable eval_step : Torch -> list Window -> list float -> list float * float.
Variable sigmoid : float -> float.
Variable shuffle : Torch -> list (Window * float) -> Torch * list (Window * float).
Variable state_dict : Torch -> Params.
Variable load_state_dict : Torch -> Params -> Torch.
Variable to_datetime : string -> option Z.
Variable to_numeric : string -> option float.

Abbreviation run_main args csv :=
  (main new_model train_step eval_step sigmoid shuffle state_dict load_state_dict
     args csv to_datetime to_numeric).

Lemma bind_lift {A B : Type} (r : result A) (k : A -> Cmd Params B) w :
  bind (lift r) k w = match r with Ok a => k a w | Raise e => (w, Raise e) end.
Proof. unfold bind, lift. destruct r; reflexivity. Qed.

Lemma bind_save_stats {B : Type} (s : Stats) (k : unit -> Cmd Params B) w :
  bind (save_stats s) k w
  = k tt (mkWorld (Some s) (model_pt w) (meta_json w) (stdout w)).
Proof. reflexivity. Qed.

(** [main] in terms of its pipeline: it raises the exception of
    insufficient data exactly at the test on the numbers of sequences,
    having written the statistics file and nothing else. *)
Lemma main_cases (args : Args) (csv : RawFrame) (w : World Params) :
  match sequences args csv to_datetime to_numeric with
  | Ok (stats, (Xtr, ytr), (Xva, yva), te) =>
      if (Py.len Xtr =? 0) || (Py.len Xva =? 0)
      then run_main args csv w
           = (mkWorld (Some stats) (model_pt w) (meta_json w) (stdout w),
              Raise (RuntimeError not_enough))
      else forall e, (run_main args csv w).2 = Raise e -> is_runtime_error e = false
  | Raise e => (run_main args csv w).2 = Raise e /\ is_runtime_error e = false
  end.
Proof.
  unfold main, sequences.
  rewrite bind_lift.
  destruct (load_dataset _ _ _ _) as [df|e] eqn:El; cbn [mbind result_bind];
    [|split; [reflexivity|eapply load_dataset_quiet, El]].
  rewrite bind_lift.
  destruct (time_split df _ _) as [[[df_train df_val] df_test]|e] eqn:Es;
    cbn [mbind result_bind];
    [|split; [reflexivity|eapply time_split_quiet, Es]].
  rewrite bind_save_stats.
  set (w1 := mkWorld _ _ _ _).
  rewrite bind_lift.
  destruct (apply_standardizer df_train _) as [tr'|e] eqn:E1; cbn [mbind result_bind];
    [|split; [reflexivity|eapply apply_standardizer_quiet, E1]].
  rewrite bind_lift.
  destruct (apply_standardizer df_val _) as [va'|e] eqn:E2; cbn [mbind result_bind];
    [|split; [reflexivity|eapply apply_standardizer_quiet, E2]].
  rewrite bind_lift.
  destruct (apply_standardizer df_test _) as [te'|e] eqn:E3; cbn [mbind result_bind];
    [|split; [reflexivity|eapply apply_standardizer_quiet, E3]].
  rewrite bind_lift.
  destruct (make_sequences tr' _) as [[Xtr ytr]|e] eqn:E4; cbn [mbind result_bind];
    [|split; [reflexivity|eapply make_sequences_quiet, E4]].
  rewrite bind_lift.
  destruct (make_sequences va' _) as [[Xva yva]|e] eqn:E5; cbn [mbind result_bind];
    [|split; [reflexivity|eapply make_sequences_quiet, E5]].
  rewrite bind_lift.
  destruct (make_sequences te' _) as [[Xte yte]|e] eqn:E6; cbn [mbind result_bind];
    [|split; [reflexivity|eapply make_sequences_quiet, E6]].
  destruct ((Py.len Xtr =? 0) || (Py.len Xva =? 0)); [reflexivity|].
  match goal with |- forall e, (?c w1).2 = Raise e -> _ =>
    assert (Hc : tame c); [|intros e; apply (proj1 Hc w1 e)] end.
  apply tame_bind; [apply tame_lift; intros e; apply DataLoader_quiet|]. intros tr_dl.
  apply tame_bind; [apply tame_lift; intros e; apply DataLoader_quiet|]. intros va_dl.
  apply tame_bind; [apply tame_lift; intros e; apply DataLoader_quiet|]. intros te_dl.
  cbv zeta.
  apply tame_bind.
  { apply tame_training_loop; intros m e; [apply train_one_quiet|apply evaluate_quiet]. }
  intros model.
  apply tame_bind; [apply tame_torch_load|]. intros p.
  apply tame_bind; [apply tame_lift; intros e; apply evaluate_quiet|].
  intros [m [te_loss te_acc]].
  apply tame_bind; [apply tame_print|]. intros _. apply tame_dump_meta.
Qed.

Lemma keeps_bind {A B : Type} (m : Cmd Params A) (k : A -> Cmd Params B) :
  keeps_scaler m -> (forall a, keeps_scaler (k a)) -> keeps_scaler (bind m k).
Proof.
  intros Km Hk w. unfold bind. specialize (Km w).
  destruct (m w) as [w' [a|e']]; simpl in *.
  - rewrite <- Km. apply (Hk a).
  - exact Km.
Qed.

Lemma keeps_lift {A : Type} (r : result A) : keeps_scaler (lift (Params := Params) r).
Proof. intros w. reflexivity. Qed.

(** Once written, the statistics file is what [main] leaves. *)
Lemma main_scaler (args : Args) (csv : RawFrame) (w : World Params) df tr va te :
  load_dataset to_datetime to_numeric csv (tickers args) = Ok df ->
  time_split df (lit 7 10) (lit 15 100) = Ok (tr, va, te) ->
  scaler_json (run_main args csv w).1 = Some (fit_standardizer tr).
Proof.
  intros El Es. unfold main.
  rewrite bind_lift, El. rewrite bind_lift, Es. rewrite bind_save_stats.
  set (w1 := mkWorld _ _ _ _).
  match goal with |- scaler_json (?c w1).1 = _ =>
    assert (Hc : keeps_scaler c); [|rewrite (Hc w1); reflexivity] end.
  apply keeps_bind; [apply keeps_lift|]. intros tr'.
  apply keeps_bind; [apply keeps_lift|]. intros va'.
  apply keeps_bind; [apply keeps_lift|]. intros te'.
  apply keeps_bind; [apply keeps_lift|]. intros [Xtr ytr].
  apply keeps_bind; [apply keeps_lift|]. intros [Xva yva].
  apply keeps_bind; [apply keeps_lift|]. intros [Xte yte].
  destruct ((Py.len Xtr =? 0) || (Py.len Xva =? 0)); [apply keeps_lift|].
  apply keeps_bind; [apply keeps_lift|]. intros tr_dl.
  apply keeps_bind; [apply keeps_lift|]. intros va_dl.
  apply keeps_bind; [apply keeps_lift|]. intros te_dl.
  cbv zeta.
  apply keeps_bind.
  { apply tame_training_loop; intros m e; [apply train_one_quiet|apply evaluate_quiet]. }
  intros model.
  apply keeps_bind; [apply tame_torch_load|]. intros p.
  apply keeps_bind; [apply keeps_lift|].
  intros [m [te_loss te_acc]].
  apply keeps_bind; [apply tame_print|]. intros _. apply tame_dump_meta.
Qed.

(** C8.  [main] raises the exception of insufficient data (the
    [RuntimeError] with the message [not_enough]) if and only if the
    pipeline reaches the sequences and the train sequences or the
    validation sequences are none; when it raises it, nothing was printed
    and no model or metadata was written: no epoch has run. *)
Theorem insufficient_data_iff (args : Args) (csv : RawFrame) (w : World Params) :
  let run := run_main args csv w in
  (run.2 = Raise (RuntimeError not_enough) <->
   exists stats Xtr ytr Xva yva te,
     sequences args csv to_datetime to_numeric
       = Ok (stats, (Xtr, ytr), (Xva, yva), te) /\
     (Xtr = [] \/ Xva = [])) /\
  (run.2 = Raise (RuntimeError not_enough) ->
   stdout run.1 = stdout w /\ model_pt run.1 = model_pt w /\
   meta_json run.1 = meta_json w).
Proof.
  intros run. subst run.
  pose proof (main_cases args csv w) as H.
  destruct (sequences args csv to_datetime to_numeric)
    as [[[[stats [Xtr ytr]] [Xva yva]] te]|e0].
  - destruct ((Py.len Xtr =? 0) || (Py.len Xva =? 0)) eqn:Ec.
    + rewrite H. cbn [fst snd stdout model_pt meta_json]. split; [|auto]. split; [|auto].
      intros _. exists stats, Xtr, ytr, Xva, yva, te. split; [reflexivity|].
      apply orb_true_iff in Ec as [Ec|Ec]; [left|right];
        apply Z.eqb_eq in Ec; unfold Py.len in Ec;
        apply length_zero_iff_nil; lia.
    + split; [split|].
      * intros Hr. apply H in Hr. discriminate.
      * intros (stats' & Xtr' & ytr' & Xva' & yva' & te' & E & Hor).
        injection E as <- <- <- <- <- <-.
        apply orb_false_iff in Ec as [E1 E2].
        destruct Hor as [-> | ->]; discriminate.
      * intros Hr. apply H in Hr. discriminate.
  - destruct H as [Hr He]. split; [split|].
    + intros Hr'. rewrite Hr in Hr'. injection Hr' as ->. discriminate.
    + intros (? & ? & ? & ? & ? & ? & E & _). discriminate.
    + intros Hr'. rewrite Hr in Hr'. injection Hr' as ->. discriminate.
Qed.
End Main.

(** Three rows and windows of 30 rows: [main] raises the exception, with
    nothing printed and no model written. *)
Example tiny_csv_not_enough :
  let run := toy_main (toy_args 30) tiny_csv (mkWorld None None None []) in
  run.2 = Raise (RuntimeError not_enough) /\ stdout run.1 = [] /\
  model_pt run.1 = None /\ meta_json run.1 = None.
Proof. vm_compute. repeat split. Qed.

(** * The statistics come from the train split *)

Section TrainOnly.

Lemma slice_prefix {A : Type} (l : list A) c :
  Py.slice l None (Some c) = take (Z.to_nat (Py.norm_bound (Py.len l) c)) l /\
  (Z.to_nat (Py.norm_bound (Py.len l) c) <= length l)%nat.
Proof.
  unfold Py.slice. rewrite Z.sub_0_r. change (Z.to_nat 0) with 0%nat. rewrite drop_0.
  split; [reflexivity|].
  unfold Py.norm_bound, Py.len. destruct (Z.ltb_spec c 0); lia.
Qed.

(** The train split depends on the number of rows and on the first rows
    only. *)
Lemma time_split_same_train {A : Type} (df1 df2 : list A) tf vf tr va te :
  time_split df1 tf vf = Ok (tr, va, te) ->
  length df2 = length df1 -> take (length tr) df2 = tr ->
  exists va2 te2, time_split df2 tf vf = Ok (tr, va2, te2).
Proof.
  unfold time_split. intros H Hlen Htake.
  assert (HL : Py.len df2 = Py.len df1) by (unfold Py.len; lia).
  rewrite HL.
  destruct (Py.float_of_int (Py.len df1)) as [n|]; cbn [mbind result_bind] in *;
    [|discriminate].
  destruct (Py.int (fmul n tf)) as [c1|]; cbn [mbind result_bind] in *; [|discriminate].
  destruct (Py.int (fmul n (fadd tf vf))) as [c2|]; cbn [mbind result_bind] in *;
    [|discriminate].
  injection H as Htr _ _.
  eexists _, _. do 3 f_equal.
  destruct (slice_prefix df1 c1) as [E1 B1]. destruct (slice_prefix df2 c1) as [E2 _].
  rewrite E2, HL. rewrite <- Htake. f_equal.
  rewrite <- Htr, E1, length_take. lia.
Qed.

Context {Torch Params : Type}.
Variable new_model : Z -> Z -> Z -> float -> float -> Torch.
Variable train_step : Torch -> list Window -> list float -> Torch * list float * float.
Variable eval_step : Torch -> list Window -> list float -> list float * float.
Variable sigmoid : float -> float.
Variable shuffle : Torch -> list (Window * float) -> Torch * list (Window * float).
Variable state_dict : Torch -> Params.
Variable load_state_dict : Torch -> Params -> Torch.
Variable to_datetime : string -> option Z.
Variable to_numeric : string -> option float.

Abbreviation run_main args csv :=
  (main new_model train_step eval_step sigmoid shuffle state_dict load_state_dict
     args csv to_datetime to_numeric).

(** C5.  The statistics [main] writes are [fit_standardizer] of the train
    split and of nothing else: a second run whose train split is the same
    writes the same statistics, whatever its validation and test rows
    hold; and a dataset with the same number of rows and the same first
    rows (the rows of the train split) has the same train split, so
    changing the later rows changes no statistic. *)
Theorem stats_from_train_only (args1 args2 : Args) (csv1 csv2 : RawFrame)
    (w1 w2 : World Params) (df1 df2 tr va te : Frame) :
  load_dataset to_datetime to_numeric csv1 (tickers args1) = Ok df1 ->
  load_dataset to_datetime to_numeric csv2 (tickers args2) = Ok df2 ->
  time_split df1 (lit 7 10) (lit 15 100) = Ok (tr, va, te) ->
  scaler_json (run_main args1 csv1 w1).1 = Some (fit_standardizer tr) /\
  (forall va2 te2,
     time_split df2 (lit 7 10) (lit 15 100) = Ok (tr, va2, te2) ->
     scaler_json (run_main args2 csv2 w2).1 = Some (fit_standardizer tr)) /\
  (length df2 = length df1 -> take (length tr) df2 = tr ->
   (exists va2 te2, time_split df2 (lit 7 10) (lit 15 100) = Ok (tr, va2, te2)) /\
   scaler_json (run_main args2 csv2 w2).1 = Some (fit_standardizer tr)).
Proof.
  intros L1 L2 Hs.
  split; [eapply main_scaler; eassumption|].
  split; [intros va2 te2 Hs2; eapply main_scaler; eassumption|].
  intros Hlen Htake.
  destruct (time_split_same_train df1 df2 _ _ tr va te Hs Hlen Htake)
    as (va2 & te2 & Hs2).
  split; [eauto|]. eapply main_scaler; eassumption.
Qed.
End TrainOnly.

Lemma stats_from_train_only_witness :
  let csv1 := [raw_row "a" (Fin 0) (Fin 0); raw_row "bb" (Fin one_u) (Fin one_u);
               raw_row "ccc" (Fin 0) (Fin 0); raw_row "dddd" (Fin 0) (Fin 0)] in
  let csv2 := [raw_row "a" (Fin 0) (Fin 0); raw_row "bb" (Fin one_u) (Fin one_u);
               raw_row "ccc" PInf (Fin one_u); raw_row "dddd" (Fin one_u) (Fin 0)] in
  let df1 := map (loaded toy_datetime no_numeric) csv1 in
  let df2 := map (loaded toy_datetime no_numeric) csv2 in
  let tr := take 2 df1 in
  let w := mkWorld (Params := unit) None None None [] in
  (exists va2 te2, time_split df2 (lit 7 10) (lit 15 100) = Ok (tr, va2, te2)) /\
  scaler_json (toy_main (toy_args 1) csv1 w).1 = Some (fit_standardizer tr) /\
  scaler_json (toy_main (toy_args 1) csv2 w).1 = Some (fit_standardizer tr).
Proof.
  intros csv1 csv2 df1 df2 tr w.
  assert (L1 : load_dataset toy_datetime no_numeric csv1 (tickers (toy_args 1)) = Ok df1)
    by (vm_compute; reflexivity).
  assert (L2 : load_dataset toy_datetime no_numeric csv2 (tickers (toy_args 1)) = Ok df2)
    by (vm_compute; reflexivity).
  assert (Hs : time_split df1 (lit 7 10) (lit 15 100)
               = Ok (tr, drop 2 (take 3 df1), drop 3 df1))
    by (vm_compute; reflexivity).
  destruct (stats_from_train_only toy_new_model toy_train_step toy_eval_step
              toy_sigmoid toy_shuffle toy_state_dict toy_load_state_dict
              toy_datetime no_numeric
              (toy_args 1) (toy_args 1) csv1 csv2 w w df1 df2 tr
              (drop 2 (take 3 df1)) (drop 3 df1) L1 L2 Hs) as (S1 & _ & H).
  destruct (H eq_refl eq_refl) as (E & S2).
  split; [exact E|]. split; [exact S1|exact S2].
Defined.
(** * The scoring program: the sequence length *)

Section ShowLast.
Lemma Ok_inj {A : Type} (a b : A) : Ok a = Ok b -> a = b.
Proof. intros H. injection H as ->. reflexivity. Qed.

Lemma index_from_end {A : Type} (l : list A) (k : nat) x :
  l !! (length l - S k)%nat = Some x -> (S k <= length l)%nat ->
  Py.index l (- Z.of_nat (S k)) = Ok x.
Proof.
  intros Hx Hk. unfold Py.index, Py.len.
  destruct (Z.ltb_spec (- Z.of_nat (S k)) 0); [|lia].
  destruct (Z.ltb_spec (- Z.of_nat (S k) + Z.of_nat (length l)) 0); [lia|].
  replace (Z.to_nat (- Z.of_nat (S k) + Z.of_nat (length l)))
    with (length l - S k)%nat by lia.
  rewrite Hx. reflexivity.
Qed.

(** The loop that shows the last predictions, for [range(-k, 0)]. *)
Lemma show_last (probs : list float) (preds : list Z) (k : nat) (out : list line) :
  length preds = length probs ->
  foldM
    (fun out i =>
       if i + Py.len probs <? 0 then Ok out
       else
         prob ← Py.index probs i;
         pred ← Py.index preds i;
         Ok (out ++ [Prediction prob pred]))
    out (Py.range (- Z.of_nat k) 0)
  = Ok (out ++ map (fun pp : float * Z => Prediction pp.1 pp.2)
                 (drop (length probs - k) (zip probs preds))).
Proof.
  intros Hlen. revert out. induction k as [|k IH]; intros out.
  - rewrite Nat.sub_0_r. rewrite drop_ge by (rewrite length_zip; lia).
    cbn. rewrite app_nil_r. reflexivity.
  - rewrite (range_cons (- Z.of_nat (S k)) 0) by lia.
    replace (- Z.of_nat (S k) + 1) with (- Z.of_nat k) by lia.
    cbn [foldM].
    destruct (Z.ltb_spec (- Z.of_nat (S k) + Py.len probs) 0) as [Hs|Hs];
      unfold Py.len in Hs.
    + cbn [mbind result_bind]. rewrite IH.
      replace (length probs - S k)%nat with 0%nat by lia.
      replace (length probs - k)%nat with 0%nat by lia. reflexivity.
    + assert (Hk : (S k <= length probs)%nat) by lia.
      destruct (lookup_lt_is_Some_2 probs (length probs - S k)%nat) as [x Hx]; [lia|].
      destruct (lookup_lt_is_Some_2 preds (length probs - S k)%nat) as [p Hp]; [lia|].
      rewrite (index_from_end probs k x Hx Hk).
      rewrite <- Hlen in Hp at 1.
      rewrite (index_from_end preds k p); [|rewrite Hlen; rewrite Hlen in Hp; exact Hp|lia].
      cbn [mbind result_bind]. rewrite IH, <- app_assoc. f_equal. f_equal.
      assert (Hz : zip probs preds !! (length probs - S k)%nat = Some (x, p)).
      { apply lookup_zip_with_Some. exists x, p. rewrite Hlen in Hp. auto. }
      rewrite (drop_S _ _ _ Hz).
      replace (S (length probs - S k)) with (length probs - k)%nat by lia.
      reflexivity.
Qed.

Lemma zip_map_r {A B : Type} (f : A -> B) (l : list A) :
  zip l (map f l) = map (fun x => (x, f x)) l.
Proof. induction l as [|x l IH]; [reflexivity|]. cbn. rewrite IH. reflexivity. Qed.
End ShowLast.

Section Predictor.
Context {Torch Params : Type}.
Variable LSTMClassifier : Z -> json -> json -> json -> result Torch.
Variable load_state_dict : Torch -> Params -> result Torch.
Variable forward : Torch -> list Window -> list float.
Variable sigmoid : float -> float.
Variable to_datetime : string -> option Z.
Variable to_numeric : string -> option float.

Abbreviation run_predict args meta_json scaler_json model_pt csv :=
  (Predict.main LSTMClassifier load_state_dict forward sigmoid
     args meta_json scaler_json model_pt csv to_datetime to_numeric).

Abbreviation run_with v tickers meta scaler_json model_pt csv :=
  (predict_with LSTMClassifier load_state_dict forward sigmoid
     v tickers meta scaler_json model_pt csv to_datetime to_numeric).

(** The predictor builds its windows with the length it read by
    [meta.get("seq_len", args.seq_len)]. *)
Lemma main_builds_with (args : Predict.Args) (meta : gmap string json)
    (scaler_json : option Stats) (model_pt : option Params) (csv : RawFrame) :
  run_predict args (Some meta) scaler_json model_pt csv
  = run_with (Predict.seq_len_used args meta) (Predict.tickers args)
      meta scaler_json model_pt csv.
Proof.
  unfold Predict.main, predict_with. cbn [Predict.open mbind result_bind].
  destruct scaler_json as [stats|]; cbn [Predict.open mbind result_bind]; [|reflexivity].
  cbv zeta.
  destruct (load_dataset _ _ _ _) as [df|]; cbn [mbind result_bind]; [|reflexivity].
  destruct (apply_standardizer df stats) as [df'|]; cbn [mbind result_bind]; [|reflexivity].
  destruct (Predict.as_int _) as [n|]; cbn [mbind result_bind]; [|reflexivity].
  destruct (make_sequences df' n) as [[X y]|]; cbn [mbind result_bind]; [|reflexivity].
  destruct (Py.len X =? 0); [reflexivity|].
  destruct (getitem meta "hidden") as [hidden|]; cbn [mbind result_bind]; [|reflexivity].
  destruct (getitem meta "layers") as [layers|]; cbn [mbind result_bind]; [|reflexivity].
  destruct (getitem meta "dropout") as [dropout|]; cbn [mbind result_bind]; [|reflexivity].
  destruct (LSTMClassifier _ _ _ _) as [model0|]; cbn [mbind result_bind]; [|reflexivity].
  destruct model_pt as [p|]; cbn [Predict.open mbind result_bind]; [|reflexivity].
  destruct (load_state_dict model0 p) as [model|]; cbn [mbind result_bind]; [|reflexivity].
  change (-10) with (- Z.of_nat 10).
  rewrite show_last by (rewrite !length_map; reflexivity).
  cbn [mbind result_bind]. f_equal. unfold shown.
  rewrite zip_map_r, <- fmap_drop. change (@fmap list _) with (@map) in *.
  cbn [app]. f_equal. rewrite map_map. reflexivity.
Qed.

(** C10.  When the metadata has an entry [seq_len], the scoring program
    builds its windows with that value: its result (the printed lines or
    the exception) is the one of the scoring run with windows of the
    metadata's length, in which the argument [seq_len] has no part; so
    two runs that differ in the argument [seq_len] only return the same
    result.  The argument is the window length only when the metadata has
    no such entry. *)
Theorem metadata_seq_len_wins (args1 args2 : Predict.Args)
    (meta : gmap string json) (v : json)
    (scaler_json : option Stats) (model_pt : option Params) (csv : RawFrame) :
  meta !! "seq_len" = Some v ->
  Predict.tickers args1 = Predict.tickers args2 ->
  Predict.seq_len_used args1 meta = v /\
  Predict.seq_len_used args2 meta = v /\
  run_predict args1 (Some meta) scaler_json model_pt csv
  = run_with v (Predict.tickers args1) meta scaler_json model_pt csv /\
  run_predict args1 (Some meta) scaler_json model_pt csv
  = run_predict args2 (Some meta) scaler_json model_pt csv /\
  (forall (args : Predict.Args) (meta' : gmap string json),
     meta' !! "seq_len" = None ->
     Predict.seq_len_used args meta' = JInt (Predict.seq_len args) /\
     run_predict args (Some meta') scaler_json model_pt csv
     = run_with (JInt (Predict.seq_len args)) (Predict.tickers args)
         meta' scaler_json model_pt csv).
Proof.
  intros Hv Ht.
  assert (H1 : forall args, Predict.seq_len_used args meta = v).
  { intros args. unfold Predict.seq_len_used, Predict.get_default. rewrite Hv. reflexivity. }
  split; [apply H1|]. split; [apply H1|]. split; [|split].
  - rewrite main_builds_with, H1. reflexivity.
  - rewrite !main_builds_with, !H1, Ht. reflexivity.
  - intros args meta' Hn.
    assert (H2 : Predict.seq_len_used args meta' = JInt (Predict.seq_len args)).
    { unfold Predict.seq_len_used, Predict.get_default. rewrite Hn. reflexivity. }
    split; [exact H2|]. rewrite main_builds_with, H2. reflexivity.
Qed.
End Predictor.

(** Seven rows and a window length of 1 in the metadata: both runs print
    the header and seven predictions, whatever the argument (30 or 2);
    with the entry removed from the metadata the argument decides, and the
    two runs differ. *)
Lemma metadata_seq_len_wins_witness :
  let args1 := Predict.mkArgs 30 None in
  let args2 := Predict.mkArgs 2 None in
  let scaler := Some (uniform_stats (Fin 0) (Fin one_u)) in
  let run meta args :=
    Predict.main flat_model flat_load flat_forward toy_sigmoid args (Some meta)
      scaler (Some tt) week_csv toy_datetime no_numeric in
  (Predict.seq_len_used args1 toy_meta = JInt 1 /\
   Predict.seq_len_used args2 toy_meta = JInt 1 /\
   run toy_meta args1
   = predict_with flat_model flat_load flat_forward toy_sigmoid (JInt 1) None
       toy_meta scaler (Some tt) week_csv toy_datetime no_numeric /\
   run toy_meta args1 = run toy_meta args2 /\
   (forall (args : Predict.Args) (meta' : gmap string json),
      meta' !! "seq_len" = None ->
      Predict.seq_len_used args meta' = JInt (Predict.seq_len args) /\
      run meta' args
      = predict_with flat_model flat_load flat_forward toy_sigmoid
          (JInt (Predict.seq_len args)) (Predict.tickers args)
          meta' scaler (Some tt) week_csv toy_datetime no_numeric)) /\
  run toy_meta args1 = Ok (Header :: replicate 7 (Prediction (Fin 0) 0)) /\
  run (delete "seq_len" toy_meta) args1 = Ok [NoSequences] /\
  run (delete "seq_len" toy_meta) args2 = Ok (Header :: replicate 6 (Prediction (Fin 0) 0)).
Proof.
  intros args1 args2 scaler run. split.
  - apply (metadata_seq_len_wins flat_model flat_load flat_forward toy_sigmoid
             toy_datetime no_numeric args1 args2 toy_meta (JInt 1) scaler (Some tt)
             week_csv).
    + vm_compute. reflexivity.
    + reflexivity.
  - vm_compute. repeat split.
Defined.

(* ================================================================== *)
(** * Further properties: the loader and the split *)
(* ================================================================== *)

Section LoadRows.
Variable to_datetime : string -> option Z.
Variable to_numeric : string -> option float.

(** The loader in terms of the kept rows. *)
Lemma load_dataset_kept (csv : RawFrame) (tickers : option (list string)) :
  load_dataset to_datetime to_numeric csv tickers
  = (df ← mapM (fun r => d ← parse_date to_datetime (date r);
                         Ok (map_row d (fun _ (v : cell) => v) r))
               (kept csv tickers);
     Ok (map (fun r : Row Timestamp cell =>
                map_row (date r) (fun _ v => coerce to_numeric v) r)
           (Pd.sort_values key_leb df))).
Proof. reflexivity. Qed.

Lemma parse_dates_ok (l : RawFrame) :
  (forall r s, r ∈ l -> date r = Some s -> to_datetime s <> None) ->
  mapM (fun r => d ← parse_date to_datetime (date r);
                 Ok (map_row d (fun _ (v : cell) => v) r)) l
  = Ok (map (parsed to_datetime) l).
Proof.
  intros H. pose proof (parse_dates to_datetime l) as HP.
  destruct (mapM _ l) as [df|e]; [rewrite HP; reflexivity|].
  destruct HP as [_ (r & s & Hin & Hd & Hn)]. destruct (H r s Hin Hd Hn).
Qed.

Lemma parse_dates_raise (l : RawFrame) r s :
  r ∈ l -> date r = Some s -> to_datetime s = None ->
  mapM (fun r => d ← parse_date to_datetime (date r);
                 Ok (map_row d (fun _ (v : cell) => v) r)) l
  = Raise ValueError.
Proof.
  intros Hin Hd Hn. induction l as [|x l IH]; [inversion Hin|].
  simpl mapM. apply elem_of_cons in Hin as [<-|Hin].
  - rewrite Hd. simpl. rewrite Hn. reflexivity.
  - rewrite (IH Hin). destruct (parse_date to_datetime (date x)) as [d|e] eqn:E.
    + reflexivity.
    + simpl. unfold parse_date in E. destruct (date x) as [s'|]; [|discriminate].
      destruct (to_datetime s'); [discriminate|]. injection E as <-. reflexivity.
Qed.

Lemma kept_rows (csv : RawFrame) (tickers : option (list string)) :
  Forall (fun r => is_nan (y_up r) = false /\
                   match tickers with
                   | Some (t :: ts) => isin (ticker r) (t :: ts) = true
                   | _ => True
                   end) (kept csv tickers) /\
  (length (kept csv tickers) <= length csv)%nat.
Proof.
  unfold kept. split.
  - apply Forall_forall. intros r Hr.
    destruct tickers as [[|t ts]|].
    + apply list_elem_of_filter in Hr as [Hn _]. split; [|exact I].
      destruct (is_nan (y_up r)); [destruct Hn|reflexivity].
    + apply list_elem_of_filter in Hr as [Hi Hr].
      apply list_elem_of_filter in Hr as [Hn _]. split.
      * destruct (is_nan (y_up r)); [destruct Hn|reflexivity].
      * destruct (isin (ticker r) (t :: ts)); [reflexivity|destruct Hi].
    + apply list_elem_of_filter in Hr as [Hn _]. split; [|exact I].
      destruct (is_nan (y_up r)); [destruct Hn|reflexivity].
  - destruct tickers as [[|t ts]|]; try apply length_filter.
    etransitivity; apply length_filter.
Qed.

(** X1.  [load_dataset] succeeds exactly when the date of every kept row
    parses; the rows that the label filter or the ticker filter drops are
    never parsed.  The frame it returns has one row per kept row; each
    has a label, and a ticker of the list when a non-empty list of
    tickers is given. *)
Theorem load_dataset_rows (csv : RawFrame) (tickers : option (list string)) :
  ((exists df, load_dataset to_datetime to_numeric csv tickers = Ok df) <->
   (forall r s, r ∈ kept csv tickers -> date r = Some s -> to_datetime s <> None)) /\
  match load_dataset to_datetime to_numeric csv tickers with
  | Ok df =>
      length df = length (kept csv tickers) /\
      (length df <= length csv)%nat /\
      Forall (fun r => is_nan (y_up r) = false /\
                       match tickers with
                       | Some (t :: ts) => isin (ticker r) (t :: ts) = true
                       | _ => True
                       end) df
  | Raise e => e = ValueError
  end.
Proof.
  rewrite load_dataset_kept. split.
  - split.
    + intros [df Hdf] r s Hin Hd Hn.
      rewrite (parse_dates_raise _ r s Hin Hd Hn) in Hdf. discriminate.
    + intros H. rewrite (parse_dates_ok _ H). eexists. reflexivity.
  - pose proof (parse_dates to_datetime (kept csv tickers)) as HP.
    destruct (mapM _ (kept csv tickers)) as [df|e]; [|exact (proj1 HP)].
    subst df. cbn [mbind result_bind].
    destruct (kept_rows csv tickers) as [HF HL].
    assert (Hperm : Permutation
              (Pd.sort_values key_leb (map (parsed to_datetime) (kept csv tickers)))
              (map (parsed to_datetime) (kept csv tickers)))
      by apply sort_values_perm.
    split; [|split].
    + rewrite length_map, (Permutation_length Hperm), length_map. reflexivity.
    + rewrite length_map, (Permutation_length Hperm), length_map. exact HL.
    + apply Forall_fmap. rewrite Hperm. apply Forall_fmap.
      eapply Forall_impl; [exact HF|]. intros r Hr. exact Hr.
Qed.
End LoadRows.

Section SplitOrder.
Variable to_datetime : string -> option Z.
Variable to_numeric : string -> option float.

Lemma load_dataset_is_sorted (csv : RawFrame) (tickers : option (list string)) df :
  load_dataset to_datetime to_numeric csv tickers = Ok df ->
  StronglySorted (fun r1 r2 => key_leb r1 r2 = true) df.
Proof.
  unfold load_dataset.
  destruct (mapM _ _) as [l|e]; cbn [mbind result_bind]; [|discriminate].
  intros H. injection H as <-.
  apply (StronglySorted_map (fun r1 r2 : Row Timestamp cell => key_leb r1 r2 = true)).
  - intros a b H. exact H.
  - apply sort_values_sorted; [apply key_leb_total|apply key_leb_trans].
Qed.

Lemma sorted_app_le {A : Type} (R : A -> A -> Prop) (a b : list A) :
  StronglySorted R (a ++ b) -> forall x y, x ∈ a -> y ∈ b -> R x y.
Proof.
  induction a as [|h a IH]; intros Hs x y Hx Hy; [inversion Hx|].
  simpl in Hs. apply StronglySorted_inv in Hs as [Hs Hh].
  apply elem_of_cons in Hx as [->|Hx].
  - rewrite List.Forall_forall in Hh. apply Hh. apply in_or_app. right.
    apply list_elem_of_In. exact Hy.
  - apply IH; assumption.
Qed.

Lemma sorted_app_r {A : Type} (R : A -> A -> Prop) (a b : list A) :
  StronglySorted R (a ++ b) -> StronglySorted R b.
Proof.
  induction a as [|h a IH]; intros Hs; [exact Hs|].
  simpl in Hs. apply StronglySorted_inv in Hs as [Hs _]. apply IH, Hs.
Qed.

(** The fractions of [main] on the grid. *)
Lemma main_fractions :
  lit 7 10 = Fin (grid (lit 7 10)) /\ lit 15 100 = Fin (grid (lit 15 100)) /\
  is_binary64 (Fin (grid (lit 7 10))) /\
  0 < grid (lit 7 10) < one_u /\ 0 < grid (lit 15 100) < one_u /\
  grid (lit 7 10) + grid (lit 15 100) < one_u.
Proof. vm_compute. repeat split; reflexivity. Qed.

Lemma main_split_parts {A : Type} (df : list A) tr va te :
  Py.len df < 2 ^ 63 ->
  time_split df (lit 7 10) (lit 15 100) = Ok (tr, va, te) ->
  exists cut1 cut2 : nat,
    (cut1 <= cut2)%nat /\
    tr = take cut1 df /\ va = drop cut1 (take cut2 df) /\ te = drop cut2 df /\
    tr ++ va ++ te = df.
Proof.
  intros Hlen Hs.
  destruct main_fractions as (E7 & E15 & Hb & H7 & H15 & Hsum).
  destruct (time_split_wellformed df _ _ Hlen Hb H7 H15 Hsum)
    as (c1 & c2 & _ & _ & Hts & Hle & _ & Happ & _).
  rewrite <- E7, <- E15, Hs in Hts. injection Hts as -> -> ->.
  exists c1, c2. repeat split; [exact Hle|exact Happ].
Qed.

(** X2.  [main] splits the loaded frame by position in its (ticker, date)
    order: every row of the train split precedes every row of the
    validation and test splits in that order, and every validation row
    precedes every test row; the three splits together are the frame. *)
Theorem split_follows_key_order (csv : RawFrame) (tickers : option (list string))
    (df tr va te : Frame) :
  load_dataset to_datetime to_numeric csv tickers = Ok df ->
  Py.len df < 2 ^ 63 ->
  time_split df (lit 7 10) (lit 15 100) = Ok (tr, va, te) ->
  tr ++ va ++ te = df /\
  (forall r1 r2, r1 ∈ tr -> r2 ∈ va ++ te -> key_leb r1 r2 = true) /\
  (forall r1 r2, r1 ∈ va -> r2 ∈ te -> key_leb r1 r2 = true).
Proof.
  intros Hl Hlen Hs.
  apply load_dataset_is_sorted in Hl.
  destruct (main_split_parts df tr va te Hlen Hs) as (c1 & c2 & _ & _ & _ & _ & Happ).
  rewrite <- Happ in Hl.
  split; [exact Happ|]. split.
  - apply (sorted_app_le _ _ _ Hl).
  - apply (sorted_app_le _ _ _ (sorted_app_r _ _ _ Hl)).
Qed.
End SplitOrder.

Lemma split_follows_key_order_witness :
  let csv := [raw_row "dddd" (Fin 0) (Fin 0); raw_row "bb" (Fin 0) (Fin one_u);
              raw_row "a" (Fin 0) (Fin 0); raw_row "ccc" (Fin 0) (Fin 0)] in
  let df := map (loaded toy_datetime no_numeric)
              [raw_row "a" (Fin 0) (Fin 0); raw_row "bb" (Fin 0) (Fin one_u);
               raw_row "ccc" (Fin 0) (Fin 0); raw_row "dddd" (Fin 0) (Fin 0)] in
  let tr := take 2 df in
  let va := drop 2 (take 3 df) in
  let te := drop 3 df in
  tr ++ va ++ te = df /\
  (forall r1 r2, r1 ∈ tr -> r2 ∈ va ++ te -> key_leb r1 r2 = true) /\
  (forall r1 r2, r1 ∈ va -> r2 ∈ te -> key_leb r1 r2 = true).
Proof.
  intros csv df tr va te.
  apply (split_follows_key_order toy_datetime no_numeric csv None df tr va te).
  - vm_compute. reflexivity.
  - reflexivity.
  - vm_compute. reflexivity.
Defined.

(* ================================================================== *)
(** * Further properties: the standardizer *)
(* ================================================================== *)

Section FitEntries.

Lemma fold_insert_other (f : Feature -> gmap string float) (init : Stats) k :
  (forall c, k <> name c) ->
  fold_left (fun (s : Stats) c => <[name c := f c]> s) FEATURES init !! k = init !! k.
Proof.
  intros Hk. unfold FEATURES. cbn [fold_left].
  repeat (rewrite lookup_insert_ne;
          [|match goal with |- name ?c <> _ => intros E; apply (Hk c); symmetry; exact E end]).
  reflexivity.
Qed.

Lemma fgtb_true_inv sd y :
  fgtb sd (Fin y) = true -> 0 <= y -> is_nan sd = false /\ feqb sd (Fin 0) = false.
Proof.
  unfold fgtb, fltb. destruct sd as [z| | |]; try discriminate; intros H Hy;
    (split; [reflexivity|]); try reflexivity.
  apply Z.ltb_lt in H. unfold feqb. apply Z.eqb_neq. lia.
Qed.

Lemma tiny : lit 1 (10 ^ 12) = Fin (grid (lit 1 (10 ^ 12))) /\ 0 <= grid (lit 1 (10 ^ 12)).
Proof. vm_compute. split; [reflexivity|discriminate]. Qed.

Lemma one_gt_tiny : fgtb (lit 1 1) (lit 1 (10 ^ 12)) = true.
Proof. vm_compute. reflexivity. Qed.

Lemma fitted_std_gt (vs : list float) :
  exists mu sd, fitted vs = {[ "mean" := mu; "std" := sd ]} /\
                fgtb sd (lit 1 (10 ^ 12)) = true.
Proof.
  unfold fitted. eexists _, _. split; [reflexivity|].
  destruct (fgtb (std_of vs) (lit 1 (10 ^ 12))) eqn:E; [exact E|exact one_gt_tiny].
Qed.

(** X3.  [fit_standardizer] records an entry for each of the ten features
    and for nothing else; the deviation of every entry is above 1e-12, so
    it is never zero and never missing, whatever the train split holds. *)
Theorem fit_standardizer_entries (train_df : Frame) :
  (forall c, exists mu sd,
     fit_standardizer train_df !! name c = Some {[ "mean" := mu; "std" := sd ]} /\
     fgtb sd (lit 1 (10 ^ 12)) = true /\
     is_nan sd = false /\ feqb sd (Fin 0) = false) /\
  (forall k, (forall c, k <> name c) -> fit_standardizer train_df !! k = None).
Proof.
  split.
  - intros c. rewrite fit_standardizer_lookup.
    destruct (fitted_std_gt (finite_values (column c train_df))) as (mu & sd & -> & H).
    exists mu, sd. split; [reflexivity|]. split; [exact H|].
    destruct tiny as [Et Ht]. rewrite Et in H. exact (fgtb_true_inv _ _ H Ht).
  - intros k Hk. unfold fit_standardizer.
    rewrite (fold_insert_other
      (fun c => let x := inf_to_nan (column c train_df) in
                {[ "mean" := Pd.nanmean x;
                   "std" := if fgtb (Pd.nanstd x) (lit 1 (10 ^ 12)) then Pd.nanstd x
                            else lit 1 1 ]}) ∅ k Hk).
    apply lookup_empty.
Qed.
End FitEntries.

Section NoFiniteValue.

Lemma get_map_row {D D' V V' : Type} (d : D') (f : Feature -> V -> V')
    (r : Row D V) c :
  get c (map_row d f r) = f c (get c r).
Proof. destruct c; reflexivity. Qed.

Lemma mean_of_nil : mean_of [] = NaN.
Proof. vm_compute. reflexivity. Qed.

Lemma std_of_nil : std_of [] = NaN.
Proof. vm_compute. reflexivity. Qed.

Lemma fsub_nan v : fsub v NaN = NaN.
Proof. destruct v; reflexivity. Qed.

Lemma fdiv_nan s : fdiv NaN s = NaN.
Proof. destruct s; reflexivity. Qed.

(** X4.  A feature without a finite value in the train split (an empty
    train split, or a column of blanks and infinities) gets the mean NaN
    and the deviation 1.0, and [apply_standardizer] with these statistics
    sets the feature to 0.0 in every row of every frame. *)
Theorem fit_no_finite_value (train_df df : Frame) (c : Feature) :
  finite_values (column c train_df) = [] ->
  fit_standardizer train_df !! name c = Some {[ "mean" := NaN; "std" := lit 1 1 ]} /\
  exists out : Frame,
    apply_standardizer df (fit_standardizer train_df) = Ok out /\
    length out = length df /\
    Forall (fun r => get c r = Fin 0) out.
Proof.
  intros Hnil. split.
  - rewrite fit_standardizer_lookup, Hnil. unfold fitted.
    rewrite mean_of_nil, std_of_nil. reflexivity.
  - eexists. split; [apply apply_standardizer_map, holds_fit|].
    split; [apply length_map|].
    apply Forall_fmap, Forall_forall. intros r _.
    unfold compose, standardized. rewrite get_map_row.
    unfold fitted_mean. rewrite Hnil, mean_of_nil, fsub_nan, fdiv_nan. reflexivity.
Qed.
End NoFiniteValue.

Lemma fit_no_finite_value_witness :
  let train_df := [score_row 1 NaN; score_row 2 PInf] in
  let df := [score_row 3 (lit 5 1)] in
  fit_standardizer train_df !! name Score
    = Some {[ "mean" := NaN; "std" := lit 1 1 ]} /\
  exists out : Frame,
    apply_standardizer df (fit_standardizer train_df) = Ok out /\
    length out = length df /\
    Forall (fun r => get Score r = Fin 0) out.
Proof.
  intros train_df df.
  apply (fit_no_finite_value train_df df Score). reflexivity.
Defined.

Section ApplyErrors.

Lemma apply_step_entry (stats : Stats) (out : Frame) c :
  (e ← getitem stats (name c);
   mu ← getitem e "mean";
   e' ← getitem stats (name c);
   sd ← getitem e' "std";
   Ok (set_column c (fun v => clean (fdiv (fsub v mu) sd)) out))
  = (ms ← entry stats c;
     Ok (set_column c (fun v => clean (fdiv (fsub v ms.1) ms.2)) out)).
Proof.
  unfold entry, getitem.
  destruct (stats !! name c) as [e|]; [|reflexivity]. cbn [mbind result_bind].
  destruct (e !! "mean") as [mu|]; [|reflexivity]. cbn [mbind result_bind].
  destruct (e !! "std") as [sd|]; reflexivity.
Qed.

(** The loop of [apply_standardizer] over a list of features: it reads
    the entries in order and rewrites one column for each. *)
Lemma apply_loop (stats : Stats) (l : list Feature) (out : Frame) :
  foldM
    (fun out c =>
       e ← getitem stats (name c);
       mu ← getitem e "mean";
       e' ← getitem stats (name c);
       sd ← getitem e' "std";
       Ok (set_column c (fun v => clean (fdiv (fsub v mu) sd)) out))
    out l
  = (mss ← mapM (entry stats) l;
     Ok (fold_left
           (fun out (cm : Feature * (float * float)) =>
              set_column cm.1 (fun v => clean (fdiv (fsub v cm.2.1) cm.2.2)) out)
           (zip l mss) out)).
Proof.
  revert out. induction l as [|c l IH]; intros out; [reflexivity|].
  cbn [foldM]. rewrite apply_step_entry. cbn [mapM].
  destruct (entry stats c) as [ms|e]; [|reflexivity]. cbn [mbind result_bind].
  rewrite IH. destruct (mapM (entry stats) l) as [mss|e]; reflexivity.
Qed.

Lemma set_columns_app (cms : list (Feature * (float * float))) (a b : Frame) :
  fold_left
    (fun out (cm : Feature * (float * float)) =>
       set_column cm.1 (fun v => clean (fdiv (fsub v cm.2.1) cm.2.2)) out)
    cms (a ++ b)
  = fold_left
      (fun out (cm : Feature * (float * float)) =>
         set_column cm.1 (fun v => clean (fdiv (fsub v cm.2.1) cm.2.2)) out)
      cms a
    ++ fold_left
      (fun out (cm : Feature * (float * float)) =>
         set_column cm.1 (fun v => clean (fdiv (fsub v cm.2.1) cm.2.2)) out)
      cms b.
Proof.
  revert a b. induction cms as [|cm cms IH]; intros a b; [reflexivity|].
  cbn [fold_left]. unfold set_column at 2. rewrite map_app. apply IH.
Qed.

Lemma entry_ok (stats : Stats) c mu sd :
  entry stats c = Ok (mu, sd) ->
  exists e, stats !! name c = Some e /\ e !! "mean" = Some mu /\ e !! "std" = Some sd.
Proof.
  unfold entry, getitem.
  destruct (stats !! name c) as [e|] eqn:E1; [|discriminate]. cbn [mbind result_bind].
  destruct (e !! "mean") as [mu'|] eqn:E2; [|discriminate]. cbn [mbind result_bind].
  destruct (e !! "std") as [sd'|] eqn:E3; [|discriminate]. cbn [mbind result_bind].
  intros H. injection H as -> ->. exists e. auto.
Qed.



Lemma mapM_entry_ok (stats : Stats) l mss c :
  mapM (entry stats) l = Ok mss -> c ∈ l -> exists ms, entry stats c = Ok ms.
Proof.
  revert mss. induction l as [|c' l IH]; intros mss H Hin; [inversion Hin|].
  cbn [mapM] in H.
  destruct (entry stats c') as [ms|e'] eqn:Ec; cbn [mbind result_bind] in H; [|discriminate].
  destruct (mapM (entry stats) l) as [mss'|e'']; cbn [mbind result_bind] in H; [|discriminate].
  apply elem_of_cons in Hin as [->|Hin]; [eauto|]. eapply IH; [reflexivity|exact Hin].
Qed.

Lemma elem_of_FEATURES c : c ∈ FEATURES.
Proof. unfold FEATURES. destruct c; repeat constructor. Qed.


(** X6.  [apply_standardizer] works row by row: applied to two frames one
    after the other it gives the rows it gives on each, so standardizing
    and splitting commute. *)
Theorem apply_standardizer_app (a b : Frame) (stats : Stats) :
  apply_standardizer (a ++ b) stats
  = (a' ← apply_standardizer a stats;
     b' ← apply_standardizer b stats;
     Ok (a' ++ b')).
Proof.
  unfold apply_standardizer. rewrite !apply_loop.
  destruct (mapM (entry stats) FEATURES) as [mss|e]; cbn [mbind result_bind];
    [|reflexivity].
  rewrite set_columns_app. reflexivity.
Qed.
End ApplyErrors.

(* ================================================================== *)
(** * Further properties: the sequences *)
(* ================================================================== *)

Section SequenceShape.

Lemma foldM_inv {A B : Type} (P : B -> Prop) (f : B -> A -> result B) l acc r :
  P acc -> (forall acc x acc', P acc -> f acc x = Ok acc' -> P acc') ->
  foldM f acc l = Ok r -> P r.
Proof.
  intros H0 Hstep. revert acc H0. induction l as [|x l IH]; intros acc H0 H.
  - injection H as <-. exact H0.
  - cbn [foldM] in H. destruct (f acc x) as [acc'|e] eqn:E; [|discriminate].
    cbn [mbind result_bind] in H. eapply IH; [|exact H]. eapply Hstep; eassumption.
Qed.

Lemma stack_ok {A : Type} (xs X : list (list A)) : Pd.stack xs = Ok X -> X = xs.
Proof.
  unfold Pd.stack. destruct xs as [|x xs]; [discriminate|].
  destruct (forallb _ _); [|discriminate]. intros H. injection H as <-. reflexivity.
Qed.

(** Whatever the window length, the loops of [make_sequences] append one
    window and one label at a time. *)
Lemma make_sequences_lengths (df : Frame) (S : Z) X y :
  make_sequences df S = Ok (X, y) -> length X = length y.
Proof.
  unfold make_sequences.
  match goal with
  | |- context [foldM ?f ?a (groupby_ticker df)] =>
      destruct (foldM f a (groupby_ticker df)) as [[X_all y_all]|e] eqn:E
  end; cbn [mbind result_bind]; [|discriminate].
  assert (HL : length X_all = length y_all).
  { refine (foldM_inv (fun acc : list Window * list float => length acc.1 = length acc.2)
              _ _ ([], []) _ eq_refl _ E).
    intros [Xa ya] [tkr g] acc' Hacc Hf.
    refine (foldM_inv (fun acc : list Window * list float => length acc.1 = length acc.2)
              _ _ (Xa, ya) _ Hacc _ Hf).
    intros [Xb yb] t acc'' Hb Ht. cbv zeta in Ht.
    destruct (Py.index (labels_of g) t) as [v|]; [|discriminate].
    cbn [mbind result_bind] in Ht. injection Ht as <-. cbn [fst snd] in *.
    rewrite !length_app, Hb. reflexivity. }
  destruct X_all as [|x X_all].
  - destruct (S <? 0); cbn [mbind result_bind]; [discriminate|].
    intros H. injection H as <- <-. exact HL.
  - destruct (Pd.stack (x :: X_all)) as [X'|] eqn:Es; cbn [mbind result_bind];
      [|discriminate].
    intros H. injection H as <- <-. apply stack_ok in Es. subst X'. exact HL.
Qed.

Lemma feats_of_rows (g : Frame) row : row ∈ feats_of g -> length row = 10%nat.
Proof.
  unfold feats_of. intros H. apply list_elem_of_fmap in H as (r & -> & _).
  reflexivity.
Qed.

Lemma group_window_shape (g : Frame) (S : Z) w :
  0 < S -> w ∈ (group_sequences g S).*1 ->
  length w = Z.to_nat S /\ Forall (fun row => length row = 10%nat) w.
Proof.
  intros HS H. apply list_elem_of_fmap in H as ([w' y'] & -> & H).
  apply list_elem_of_lookup in H as [i Hi].
  destruct (group_sequences_lookup g S i w' y' HS Hi) as (Hw & Hlen & _).
  split; [exact Hlen|]. cbn [fst]. rewrite Hw. apply Forall_forall. intros row Hrow.
  apply (feats_of_rows g).
  apply elem_of_take in Hrow as (j & Hx & _).
  rewrite lookup_drop in Hx. eapply list_elem_of_lookup_2, Hx.
Qed.

Lemma elem_of_concat_fst {A B : Type} (ls : list (list (A * B))) x :
  x ∈ (concat ls).*1 -> exists l, l ∈ ls /\ x ∈ l.*1.
Proof.
  induction ls as [|l ls IH]; simpl; [intros H; inversion H|].
  rewrite fmap_app. intros H. apply elem_of_app in H as [H|H].
  - exists l. split; [apply list_elem_of_here|exact H].
  - destruct (IH H) as (l' & Hl & Hx). exists l'.
    split; [apply list_elem_of_further, Hl|exact Hx].
Qed.

(** X7.  The two arrays [make_sequences] returns have the same length,
    whatever the window length; for a positive window length [S] every
    window has [S] rows of ten values. *)
Theorem make_sequences_shape (df : Frame) (S : Z) (X : list Window) (y : list float) :
  make_sequences df S = Ok (X, y) ->
  length X = length y /\
  (0 < S ->
   Forall (fun w => length w = Z.to_nat S /\
                    Forall (fun row => length row = 10%nat) w) X).
Proof.
  intros H. split; [exact (make_sequences_lengths df S X y H)|].
  intros HS. rewrite (make_sequences_positive df S HS) in H. injection H as <- _.
  apply Forall_forall. intros w Hw.
  apply elem_of_concat_fst in Hw as (l & Hl & Hw).
  apply list_elem_of_fmap in Hl as ([k g] & -> & _).
  exact (group_window_shape g S w HS Hw).
Qed.
End SequenceShape.

Lemma make_sequences_shape_witness :
  let df := [score_row 1 (Fin 0); score_row 2 (Fin 0); score_row 3 (Fin 0)] in
  let X := [ [replicate 10 (Fin 0); replicate 10 (Fin 0)];
             [replicate 10 (Fin 0); replicate 10 (Fin 0)] ] in
  let y := [Fin 0; Fin 0] in
  length X = length y /\
  (0 < 2 ->
   Forall (fun w => length w = Z.to_nat 2 /\
                    Forall (fun row => length row = 10%nat) w) X).
Proof.
  intros df X y. apply (make_sequences_shape df 2 X y).
  vm_compute. reflexivity.
Defined.

Section NoSequence.

Lemma groupby_keys {D V : Type} (df : list (Row D V)) (r : Row D V) k :
  r ∈ df -> ticker r = Some k ->
  (k, filter (fun r => bool_decide (ticker r = Some k)) df) ∈ groupby_ticker df.
Proof.
  intros Hr Hk. unfold groupby_ticker.
  apply list_elem_of_fmap. exists k. split; [reflexivity|].
  rewrite (sort_values_perm String.leb). apply elem_of_remove_dups.
  apply list_elem_of_omap. exists r. auto.
Qed.

Lemma groupby_groups {D V : Type} (df : list (Row D V)) (g : string * list (Row D V)) :
  g ∈ groupby_ticker df ->
  g.2 = filter (fun r => bool_decide (ticker r = Some g.1)) df.
Proof.
  unfold groupby_ticker. intros H. apply list_elem_of_fmap in H as (k & -> & _).
  reflexivity.
Qed.

Lemma concat_nil {A : Type} (ls : list (list A)) :
  concat ls = [] <-> Forall (fun l => l = []) ls.
Proof.
  induction ls as [|l ls IH]; simpl.
  - split; [constructor|reflexivity].
  - split.
    + intros H. apply app_eq_nil in H as [-> H]. constructor; [reflexivity|].
      apply IH, H.
    + intros H. apply Forall_cons in H as [-> H]. apply IH, H.
Qed.

Lemma group_sequences_nil (g : Frame) (S : Z) :
  group_sequences g S = [] <-> Py.len g < S.
Proof.
  pose proof (length_group_sequences g S) as HL. unfold Py.len in *.
  split.
  - intros H. rewrite H in HL. simpl in HL. lia.
  - intros H. apply length_zero_iff_nil. lia.
Qed.

(** X8.  For a positive window length [S], [make_sequences] returns no
    sequence exactly when every ticker has fewer than [S] rows in the
    frame (rows with a blank ticker count for no ticker). *)
Theorem make_sequences_none_iff (df : Frame) (S : Z) :
  0 < S ->
  exists X y,
    make_sequences df S = Ok (X, y) /\
    (X = [] <->
     forall k : string,
       Py.len (filter (fun r => bool_decide (ticker r = Some k)) df) < S).
Proof.
  intros HS. rewrite (make_sequences_positive df S HS). eexists _, _.
  split; [reflexivity|].
  transitivity (concat (map (fun g : string * Frame => group_sequences g.2 S)
                          (groupby_ticker df)) = []).
  { split; [apply fmap_nil_inv|intros ->; reflexivity]. }
  rewrite concat_nil, Forall_fmap, Forall_forall.
  split.
  - intros H k.
    remember (filter (fun r => bool_decide (ticker r = Some k)) df) as l eqn:E.
    destruct l as [|r l].
    + unfold Py.len. simpl. lia.
    + assert (Hr : r ∈ filter (fun r => bool_decide (ticker r = Some k)) df)
        by (rewrite <- E; apply list_elem_of_here).
      apply list_elem_of_filter in Hr as [Hk Hr].
      apply bool_decide_unpack in Hk.
      specialize (H _ (groupby_keys df r k Hr Hk)). unfold compose in H. cbn [snd] in H.
      apply group_sequences_nil in H. rewrite E. exact H.
  - intros H g Hg. unfold compose. apply group_sequences_nil.
    pose proof (groupby_groups df g Hg) as Eg.
    destruct g as [k l]. cbn [fst snd] in *. subst l. exact (H k).
Qed.

Lemma omap_ticker_filter {D V : Type} (df : list (Row D V)) :
  omap ticker (filter (fun r => bool_decide (is_Some (ticker r))) df) = omap ticker df.
Proof.
  induction df as [|r df IH]; [reflexivity|].
  rewrite filter_cons. destruct (ticker r) as [k|] eqn:E.
  - rewrite decide_True by (apply bool_decide_pack; eauto).
    simpl. rewrite E. simpl. f_equal. exact IH.
  - rewrite decide_False
      by (intros H; apply bool_decide_unpack in H; destruct H; discriminate).
    simpl. rewrite E. exact IH.
Qed.

Lemma filter_ticker_filter {D V : Type} (df : list (Row D V)) k :
  filter (fun r => bool_decide (ticker r = Some k))
    (filter (fun r => bool_decide (is_Some (ticker r))) df)
  = filter (fun r => bool_decide (ticker r = Some k)) df.
Proof.
  induction df as [|r df IH]; [reflexivity|].
  rewrite (filter_cons (fun r => bool_decide (is_Some (ticker r)))).
  destruct (decide (bool_decide (is_Some (ticker r)))) as [Hs|Hs].
  - rewrite !filter_cons, IH. reflexivity.
  - rewrite IH, filter_cons. rewrite decide_False; [reflexivity|].
    intros H. apply bool_decide_unpack in H. apply Hs, bool_decide_pack.
    rewrite H. eauto.
Qed.

Lemma groupby_named {D V : Type} (df : list (Row D V)) :
  groupby_ticker (filter (fun r => bool_decide (is_Some (ticker r))) df)
  = groupby_ticker df.
Proof.
  unfold groupby_ticker. rewrite omap_ticker_filter.
  apply map_ext. intros k. rewrite filter_ticker_filter. reflexivity.
Qed.

(** X9.  A row with a blank ticker is in no group, so it is in no
    window and gives no label: [make_sequences] returns what it returns on
    the frame without these rows, for every window length. *)
Theorem make_sequences_blank_ticker (df : Frame) (S : Z) :
  make_sequences df S
  = make_sequences (filter (fun r => bool_decide (is_Some (ticker r))) df) S.
Proof.
  unfold make_sequences, Frame. rewrite groupby_named. reflexivity.
Qed.
End NoSequence.

Lemma make_sequences_none_iff_witness :
  let df := [score_row 1 (Fin 0); score_row 2 (Fin 0)] in
  exists X y,
    make_sequences df 3 = Ok (X, y) /\
    (X = [] <->
     forall k : string,
       Py.len (filter (fun r => bool_decide (ticker r = Some k)) df) < 3).
Proof.
  intros df. apply (make_sequences_none_iff df 3). reflexivity.
Defined.

(* ================================================================== *)
(** * Further properties: the training program *)
(* ================================================================== *)

Section Batches.

Lemma chunks_concat {A : Type} (fuel n : nat) (l : list A) :
  (0 < n)%nat -> (length l <= fuel)%nat -> concat (chunks fuel n l) = l.
Proof.
  intros Hn. revert l. induction fuel as [|fuel IH]; intros l Hl.
  - destruct l; [reflexivity|simpl in Hl; lia].
  - destruct l as [|x l]; [reflexivity|].
    cbn [chunks concat]. rewrite IH.
    + apply take_drop.
    + rewrite length_drop. simpl in *. lia.
Qed.

Lemma count_correct_le sigmoid (logits yb : list float) :
  0 <= count_correct (preds_of sigmoid logits) yb <= Py.len yb.
Proof.
  unfold count_correct, Py.len. split; [lia|].
  apply inj_le. etransitivity; [apply length_filter|].
  rewrite length_zip. lia.
Qed.

Lemma lit_1 : lit 1 1 = Fin one_u.
Proof. vm_compute. reflexivity. Qed.

Lemma fleb_fin (a b : Z) : a <= b -> fleb (Fin a) (Fin b) = true.
Proof.
  intros H. unfold fleb. cbn [fltb feqb]. apply orb_true_iff.
  destruct (Z.eq_dec a b) as [->|Hne]; [right; apply Z.eqb_refl|left; apply Z.ltb_lt; lia].
Qed.

(** [correct / total] for counts [0 <= correct <= total]. *)
Lemma accuracy_bounds (c t : Z) :
  0 <= c <= t ->
  match Py.div_int_int c t with
  | Ok a => 0 < t /\ fleb (Fin 0) a = true /\ fleb a (lit 1 1) = true
  | Raise e => e = ZeroDivisionError /\ t = 0
  end.
Proof.
  intros Hc. unfold Py.div_int_int.
  destruct (Z.eqb_spec t 0) as [->|Ht]; [auto|].
  assert (Hpos : 0 < t) by lia.
  rewrite Z.sgn_pos, Z.abs_eq, Z.mul_1_r by lia.
  pose proof one_u_pos as Hu.
  destruct (round64_fin (c * one_u) t 1074) as [-> Hr].
  - apply Z.mul_nonneg_nonneg; lia.
  - exact Hpos.
  - lia.
  - change (2 ^ 1074) with one_u. apply Z.mul_le_mono_nonneg_r; lia.
  - change (2 ^ 1074) with one_u in Hr. split; [exact Hpos|].
    rewrite lit_1. split; apply fleb_fin; lia.
Qed.

Lemma mean_loss_raises (x : float) (t : Z) e :
  Py.div_float_int x t = Raise e -> e = ZeroDivisionError \/ e = OverflowError.
Proof.
  unfold Py.div_float_int, Py.float_of_int.
  destruct (t =? 0); [intros H; injection H as <-; auto|].
  destruct (of_Z t); cbn [mbind result_bind]; intros H; inversion H; auto.
Qed.

Lemma mean_loss_ok (x : float) (t : Z) :
  0 < t < 2 ^ 63 -> exists l, Py.div_float_int x t = Ok l.
Proof.
  intros Ht. unfold Py.div_float_int, Py.float_of_int.
  destruct (Z.eqb_spec t 0); [lia|].
  destruct (of_Z_len t) as (nf & -> & _); [lia|].
  cbn [mbind result_bind]. eauto.
Qed.

Context {Torch : Type}.
Variable train_step : Torch -> list Window -> list float -> Torch * list float * float.
Variable eval_step : Torch -> list Window -> list float -> list float * float.
Variable sigmoid : float -> float.
Variable shuffle : Torch -> list (Window * float) -> Torch * list (Window * float).

(** The counters of [evaluate] after the batches [bs]. *)
Lemma evaluate_counts (model : Torch) (bs : list (list (Window * float)))
    (t0 c0 : Z) (l0 : float) :
  exists c l,
    fold_left
      (fun '(total, correct, loss_sum) b =>
         let xb := b.*1 in
         let yb := b.*2 in
         let '(logits, loss) := eval_step model xb yb in
         let preds := preds_of sigmoid logits in
         (total + Py.len yb, correct + count_correct preds yb,
          fadd loss_sum (fmul loss (of_Z (Py.len yb)))))
      bs (t0, c0, l0)
    = (t0 + Py.len (concat bs), c, l) /\
    c0 <= c /\ c - c0 <= Py.len (concat bs).
Proof.
  revert t0 c0 l0. induction bs as [|b bs IH]; intros t0 c0 l0.
  - exists c0, l0. unfold Py.len. simpl. split; [f_equal; f_equal; lia|lia].
  - cbn [fold_left]. cbv zeta.
    destruct (eval_step model b.*1 b.*2) as [logits loss]. cbv beta iota zeta.
    destruct (IH (t0 + Py.len b.*2) (c0 + count_correct (preds_of sigmoid logits) b.*2)
                (fadd l0 (fmul loss (of_Z (Py.len b.*2))))) as (c & l & E & H1 & H2).
    pose proof (count_correct_le sigmoid logits b.*2) as Hc.
    exists c, l. split.
    + etransitivity; [exact E|]. unfold Py.len. cbn [concat].
      rewrite length_app, length_fmap. f_equal. f_equal. lia.
    + unfold Py.len in *. cbn [concat]. rewrite length_app.
      rewrite length_fmap in *. lia.
Qed.

(** The counters of [train_one] after the batches [bs]. *)
Lemma train_counts (model : Torch) (bs : list (list (Window * float)))
    (t0 c0 : Z) (l0 : float) :
  exists m c l,
    fold_left
      (fun '(model, total, correct, loss_sum) b =>
         let xb := b.*1 in
         let yb := b.*2 in
         let '(model, logits, loss) := train_step model xb yb in
         let preds := preds_of sigmoid logits in
         (model, total + Py.len yb, correct + count_correct preds yb,
          fadd loss_sum (fmul loss (of_Z (Py.len yb)))))
      bs (model, t0, c0, l0)
    = (m, t0 + Py.len (concat bs), c, l) /\
    c0 <= c /\ c - c0 <= Py.len (concat bs).
Proof.
  revert model t0 c0 l0. induction bs as [|b bs IH]; intros model t0 c0 l0.
  - exists model, c0, l0. unfold Py.len. simpl. split; [f_equal; f_equal; f_equal; lia|lia].
  - cbn [fold_left]. cbv zeta.
    destruct (train_step model b.*1 b.*2) as [[model' logits] loss]. cbv beta iota zeta.
    destruct (IH model' (t0 + Py.len b.*2)
                (c0 + count_correct (preds_of sigmoid logits) b.*2)
                (fadd l0 (fmul loss (of_Z (Py.len b.*2))))) as (m & c & l & E & H1 & H2).
    pose proof (count_correct_le sigmoid logits b.*2) as Hc.
    exists m, c, l. split.
    + etransitivity; [exact E|]. unfold Py.len. cbn [concat].
      rewrite length_app, length_fmap. f_equal. f_equal. f_equal. lia.
    + unfold Py.len in *. cbn [concat]. rewrite length_app.
      rewrite length_fmap in *. lia.
Qed.

(** X10.  [evaluate] on a loader without shuffling raises
    [ZeroDivisionError] when the dataset is empty; on a non-empty dataset
    it returns, the model is unchanged, and the accuracy is between 0 and
    1. *)
Theorem evaluate_accuracy (model : Torch) (X : list Window) (y : list float) (b : Z) :
  0 < b -> Py.len (zip X y) < 2 ^ 63 ->
  exists loader,
    DataLoader X y b false = Ok loader /\
    match evaluate eval_step sigmoid shuffle model loader with
    | Ok (model', (loss, acc)) =>
        zip X y <> [] /\ model' = model /\
        fleb (Fin 0) acc = true /\ fleb acc (lit 1 1) = true
    | Raise e => e = ZeroDivisionError /\ zip X y = []
    end.
Proof.
  intros Hb Hlen. unfold DataLoader.
  destruct (Z.leb_spec b 0); [lia|]. eexists. split; [reflexivity|].
  unfold evaluate, iterate, shuffled, dataset, batch_size. cbv beta iota.
  destruct (evaluate_counts model
              (chunks (length (zip X y)) (Z.to_nat b) (zip X y)) 0 0 (Fin 0))
    as (c & l & E & H1 & H2).
  cbv beta zeta in E. rewrite E. clear E.
  rewrite chunks_concat in * by lia. rewrite Z.add_0_l.
  destruct (zip X y) as [|xy d] eqn:Ez.
  - unfold Py.div_float_int, Py.len. cbn [length Z.of_nat Z.eqb mbind result_bind].
    split; reflexivity.
  - destruct (mean_loss_ok l (Py.len (xy :: d))) as [ml ->].
    { unfold Py.len in *. simpl length in *. lia. }
    cbn [mbind result_bind].
    pose proof (accuracy_bounds c (Py.len (xy :: d))) as Ha.
    destruct (Py.div_int_int c (Py.len (xy :: d))) as [a|e]; cbn [mbind result_bind].
    + destruct Ha as (_ & Ha1 & Ha2); [lia|]. repeat split; [discriminate|assumption..].
    + destruct Ha as [_ Ha]; [lia|]. unfold Py.len in Ha. simpl in Ha. lia.
Qed.

Lemma train_one_bounds (model : Torch) (loader : Loader) :
  match train_one train_step sigmoid shuffle model loader with
  | Ok (model', (loss, acc)) => fleb (Fin 0) acc = true /\ fleb acc (lit 1 1) = true
  | Raise e => e = ZeroDivisionError \/ e = OverflowError
  end.
Proof.
  unfold train_one. destruct (iterate _ shuffle model loader) as [m bs]. cbv beta iota.
  destruct (train_counts m bs 0 0 (Fin 0)) as (m' & c & l & E & H1 & H2).
  cbv beta zeta in E. rewrite E. clear E.
  rewrite Z.add_0_l.
  destruct (Py.div_float_int l (Py.len (concat bs))) as [ml|e] eqn:El;
    cbn [mbind result_bind]; [|exact (mean_loss_raises _ _ _ El)].
  pose proof (accuracy_bounds c (Py.len (concat bs))) as Ha.
  destruct (Py.div_int_int c (Py.len (concat bs))) as [a|e]; cbn [mbind result_bind].
  - destruct Ha as (_ & Ha1 & Ha2); [lia|]. auto.
  - destruct Ha as [-> _]; [lia|]. auto.
Qed.

Lemma evaluate_bounds (model : Torch) (loader : Loader) :
  match evaluate eval_step sigmoid shuffle model loader with
  | Ok (model', (loss, acc)) => fleb (Fin 0) acc = true /\ fleb acc (lit 1 1) = true
  | Raise e => e = ZeroDivisionError \/ e = OverflowError
  end.
Proof.
  unfold evaluate. destruct (iterate _ shuffle model loader) as [m bs]. cbv beta iota.
  destruct (evaluate_counts m bs 0 0 (Fin 0)) as (c & l & E & H1 & H2).
  cbv beta zeta in E. rewrite E. clear E.
  rewrite Z.add_0_l.
  destruct (Py.div_float_int l (Py.len (concat bs))) as [ml|e] eqn:El;
    cbn [mbind result_bind]; [|exact (mean_loss_raises _ _ _ El)].
  pose proof (accuracy_bounds c (Py.len (concat bs))) as Ha.
  destruct (Py.div_int_int c (Py.len (concat bs))) as [a|e]; cbn [mbind result_bind].
  - destruct Ha as (_ & Ha1 & Ha2); [lia|]. auto.
  - destruct Ha as [-> _]; [lia|]. auto.
Qed.

(** Without an item to visit, [evaluate] divides by zero. *)
Lemma evaluate_empty (model : Torch) (n : nat) :
  evaluate eval_step sigmoid shuffle model (mkLoader [] n false)
  = Raise ZeroDivisionError.
Proof. reflexivity. Qed.

(** X11.  The accuracy [train_one] returns is between 0 and 1; it raises
    only [ZeroDivisionError] (no item was visited) or [OverflowError]. *)
Theorem train_one_accuracy (model : Torch) (loader : Loader) :
  match train_one train_step sigmoid shuffle model loader with
  | Ok (model', (loss, acc)) => fleb (Fin 0) acc = true /\ fleb acc (lit 1 1) = true
  | Raise e => e = ZeroDivisionError \/ e = OverflowError
  end.
Proof. exact (train_one_bounds model loader). Qed.
End Batches.

Lemma evaluate_accuracy_witness :
  let X : list Window := [[[Fin 0]]] in
  let y := [Fin 0] in
  exists loader,
    DataLoader X y 1 false = Ok loader /\
    match evaluate toy_eval_step toy_sigmoid toy_shuffle tt loader with
    | Ok (model', (loss, acc)) =>
        zip X y <> [] /\ model' = tt /\
        fleb (Fin 0) acc = true /\ fleb acc (lit 1 1) = true
    | Raise e => e = ZeroDivisionError /\ zip X y = []
    end.
Proof.
  intros X y.
  apply (evaluate_accuracy toy_eval_step toy_sigmoid toy_shuffle tt X y 1);
    reflexivity.
Defined.

Section MainTail.
Context {Torch Params : Type}.
Variable new_model : Z -> Z -> Z -> float -> float -> Torch.
Variable train_step : Torch -> list Window -> list float -> Torch * list float * float.
Variable eval_step : Torch -> list Window -> list float -> list float * float.
Variable sigmoid : float -> float.
Variable shuffle : Torch -> list (Window * float) -> Torch * list (Window * float).
Variable state_dict : Torch -> Params.
Variable load_state_dict : Torch -> Params -> Torch.
Variable to_datetime : string -> option Z.
Variable to_numeric : string -> option float.

Abbreviation run_main args csv :=
  (main new_model train_step eval_step sigmoid shuffle state_dict load_state_dict
     args csv to_datetime to_numeric).
Abbreviation run_tail args Xtr ytr Xva yva Xte yte :=
  (train_and_test new_model train_step eval_step sigmoid shuffle state_dict
     load_state_dict args Xtr ytr Xva yva Xte yte).

(** [main] with enough sequences: the statistics are written, then the
    loaders are built and the model is trained and tested. *)
Lemma main_tail (args : Args) (csv : RawFrame) (w : World Params)
    stats Xtr ytr Xva yva Xte yte :
  sequences args csv to_datetime to_numeric
    = Ok (stats, (Xtr, ytr), (Xva, yva), (Xte, yte)) ->
  (Py.len Xtr =? 0) || (Py.len Xva =? 0) = false ->
  run_main args csv w
  = run_tail args Xtr ytr Xva yva Xte yte
      (mkWorld (Some stats) (model_pt w) (meta_json w) (stdout w)).
Proof.
  unfold main, sequences. intros H Hne.
  rewrite bind_lift.
  destruct (load_dataset _ _ _ _) as [df|e]; cbn [mbind result_bind] in *; [|discriminate].
  rewrite bind_lift.
  destruct (time_split df _ _) as [[[df_train df_val] df_test]|e];
    cbn [mbind result_bind] in *; [|discriminate].
  rewrite bind_save_stats. rewrite bind_lift.
  destruct (apply_standardizer df_train _) as [tr'|e]; cbn [mbind result_bind] in *;
    [|discriminate].
  rewrite bind_lift.
  destruct (apply_standardizer df_val _) as [va'|e]; cbn [mbind result_bind] in *;
    [|discriminate].
  rewrite bind_lift.
  destruct (apply_standardizer df_test _) as [te'|e]; cbn [mbind result_bind] in *;
    [|discriminate].
  rewrite bind_lift.
  destruct (make_sequences tr' _) as [[Xtr' ytr']|e]; cbn [mbind result_bind] in *;
    [|discriminate].
  rewrite bind_lift.
  destruct (make_sequences va' _) as [[Xva' yva']|e]; cbn [mbind result_bind] in *;
    [|discriminate].
  rewrite bind_lift.
  destruct (make_sequences te' _) as [[Xte' yte']|e]; cbn [mbind result_bind] in *;
    [|discriminate].
  injection H as <- <- <- <- <- <- <-. rewrite Hne. reflexivity.
Qed.
End MainTail.

Section Loop.
Context {Torch Params : Type}.
Variable state_dict : Torch -> Params.
Variables train eval : Torch -> result (Torch * (float * float)).

Lemma loop_train_raises epoch es m e best left args_patience (w : World Params) :
  train m = Raise e ->
  training_loop state_dict train eval args_patience (epoch :: es) m best left w
  = (w, Raise e).
Proof.
  intros Ht. cbn [training_loop]. unfold bind at 1, lift at 1. rewrite Ht. reflexivity.
Qed.

Lemma loop_eval_raises epoch es m m1 tl ta e best left args_patience (w : World Params) :
  train m = Ok (m1, (tl, ta)) -> eval m1 = Raise e ->
  training_loop state_dict train eval args_patience (epoch :: es) m best left w
  = (w, Raise e).
Proof.
  intros Ht He. cbn [training_loop]. unfold bind at 1, lift at 1. rewrite Ht.
  unfold bind at 1, lift at 1. rewrite He. reflexivity.
Qed.

Lemma epochs_of_cons e a b c d (l : list line) :
  epochs_of (EpochLine e a b c d :: l) = e :: epochs_of l.
Proof. reflexivity. Qed.

(** What a run of the loop leaves: its lines, the files, its result. *)
Lemma training_loop_run args_patience es m best left (w : World Params) :
  let run := training_loop state_dict train eval args_patience es m best left w in
  exists els stop : list line,
    stdout run.1 = stdout w ++ els ++ stop /\
    forallb is_epoch_line els = true /\
    epochs_of els = take (length els) es /\
    (stop = [] \/ (stop = [EarlyStopping] /\ exists m', run.2 = Ok m')) /\
    scaler_json run.1 = scaler_json w /\
    meta_json run.1 = meta_json w /\
    (model_pt run.1 = model_pt w \/ exists m', model_pt run.1 = Some (state_dict m')) /\
    (forall e, run.2 = Raise e -> exists m', train m' = Raise e \/ eval m' = Raise e).
Proof.
  cbv zeta. revert m best left w.
  induction es as [|epoch es IH]; intros m best left w.
  - exists [], []. cbn. rewrite app_nil_r. repeat split; auto. discriminate.
  - destruct (train m) as [[m1 [tl ta]]|e] eqn:Ht.
    2:{ rewrite (loop_train_raises _ _ _ _ _ _ _ _ Ht). exists [], []. cbn.
        rewrite app_nil_r. repeat split; auto.
        intros e' H. injection H as <-. eauto. }
    destruct (eval m1) as [[m1' [vl va]]|e] eqn:He.
    2:{ rewrite (loop_eval_raises _ _ _ _ _ _ _ _ _ _ _ Ht He). exists [], []. cbn.
        rewrite app_nil_r. repeat split; auto.
        intros e' H. injection H as <-. eauto. }
    destruct (fgtb va (fadd best (lit 1 (10 ^ 4)))) eqn:Hi.
    + rewrite (loop_improves _ _ _ _ _ _ _ _ _ _ _ _ _ _ _ _ Ht He Hi).
      destruct (IH m1' va args_patience
                  (mkWorld (scaler_json w) (Some (state_dict m1')) (meta_json w)
                     (stdout w ++ [EpochLine epoch tl ta vl va])))
        as (els & stop & Hout & Hall & Hep & Hstop & Hsc & Hme & Hmo & Hr).
      cbn [stdout scaler_json meta_json model_pt] in *.
      exists (EpochLine epoch tl ta vl va :: els), stop.
      split; [rewrite Hout, <- app_assoc; reflexivity|].
      split; [cbn; exact Hall|].
      split; [rewrite epochs_of_cons, Hep; reflexivity|].
      split; [exact Hstop|]. split; [exact Hsc|]. split; [exact Hme|].
      split; [|exact Hr].
      right. destruct Hmo as [->|Hmo]; eauto.
    + destruct (Z_le_gt_dec (left - 1) 0) as [Hl|Hl].
      * rewrite (loop_stops _ _ _ _ _ _ _ _ _ _ _ _ _ _ _ _ Ht He Hi Hl).
        cbn [fst snd stdout scaler_json meta_json model_pt].
        exists [EpochLine epoch tl ta vl va], [EarlyStopping].
        repeat split; eauto. discriminate.
      * rewrite (loop_waits _ _ _ _ _ _ _ _ _ _ _ _ _ _ _ _ Ht He Hi) by lia.
        destruct (IH m1' best (left - 1)
                    (mkWorld (scaler_json w) (model_pt w) (meta_json w)
                       (stdout w ++ [EpochLine epoch tl ta vl va])))
          as (els & stop & Hout & Hall & Hep & Hstop & Hsc & Hme & Hmo & Hr).
        cbn [stdout scaler_json meta_json model_pt] in *.
        exists (EpochLine epoch tl ta vl va :: els), stop.
        split; [rewrite Hout, <- app_assoc; reflexivity|].
        split; [cbn; exact Hall|].
        split; [rewrite epochs_of_cons, Hep; reflexivity|].
        split; [exact Hstop|]. split; [exact Hsc|]. split; [exact Hme|].
        split; [exact Hmo|exact Hr].
Qed.

(** X12.  Whatever the trainer does, the loop prints one line for each
    epoch it runs, for the epochs in order from the first, then at most
    one line of early stopping, after which it returns; it touches
    neither the statistics nor the metadata; the model file is either
    left alone or holds the state of a model; and when the loop raises,
    the exception is one [train_one] or [evaluate] raised. *)
Theorem training_loop_output args_patience es m best left (w : World Params) :
  let run := training_loop state_dict train eval args_patience es m best left w in
  exists els stop : list line,
    stdout run.1 = stdout w ++ els ++ stop /\
    forallb is_epoch_line els = true /\
    epochs_of els = take (length els) es /\
    (stop = [] \/ (stop = [EarlyStopping] /\ exists m', run.2 = Ok m')) /\
    scaler_json run.1 = scaler_json w /\
    meta_json run.1 = meta_json w /\
    (model_pt run.1 = model_pt w \/ exists m', model_pt run.1 = Some (state_dict m')) /\
    (forall e, run.2 = Raise e -> exists m', train m' = Raise e \/ eval m' = Raise e).
Proof. exact (training_loop_run args_patience es m best left w). Qed.

Lemma epochs_of_app (a b : list line) : epochs_of (a ++ b) = epochs_of a ++ epochs_of b.
Proof. unfold epochs_of. apply omap_app. Qed.

(** X13.  When [train_one] and [evaluate] return in every epoch and no
    validation accuracy exceeds the best one by more than 1e-4, the loop
    runs max(1, patience_left) epochs, prints the line of early stopping
    and returns without writing the model file: if there was none,
    [torch.load] then raises [FileNotFoundError]. *)
Theorem no_improvement_no_checkpoint args_patience es m best left (w : World Params) :
  (forall m, exists m' l a, train m = Ok (m', (l, a))) ->
  (forall m, exists m' l a, eval m = Ok (m', (l, a)) /\
                            fgtb a (fadd best (lit 1 (10 ^ 4))) = false) ->
  (Z.to_nat (Z.max 1 left) <= length es)%nat ->
  let run := training_loop state_dict train eval args_patience es m best left w in
  (exists m', run.2 = Ok m') /\
  model_pt run.1 = model_pt w /\
  epochs_of (stdout run.1) = epochs_of (stdout w) ++ take (Z.to_nat (Z.max 1 left)) es /\
  last (stdout run.1) = Some EarlyStopping /\
  (model_pt w = None -> (torch_load run.1).2 = Raise FileNotFoundError).
Proof.
  intros Htrain Heval. cbv zeta. revert m left w.
  induction es as [|epoch es IH]; intros m left w Hn; [simpl in Hn; lia|].
  destruct (Htrain m) as (m1 & tl & ta & Ht).
  destruct (Heval m1) as (m1' & vl & va & He & Hi).
  destruct (Z_le_gt_dec (left - 1) 0) as [Hl|Hl].
  - rewrite (loop_stops _ _ _ _ _ _ _ _ _ _ _ _ _ _ _ _ Ht He Hi Hl).
    cbn [fst snd stdout model_pt].
    replace (Z.to_nat (Z.max 1 left)) with 1%nat by lia.
    split; [eauto|]. split; [reflexivity|]. split.
    + rewrite epochs_of_app. reflexivity.
    + split.
      * rewrite last_app. reflexivity.
      * intros Hnone. unfold torch_load. cbn [fst snd model_pt]. rewrite Hnone.
        reflexivity.
  - rewrite (loop_waits _ _ _ _ _ _ _ _ _ _ _ _ _ _ _ _ Ht He Hi) by lia.
    destruct (IH m1' (left - 1)
                (mkWorld (scaler_json w) (model_pt w) (meta_json w)
                   (stdout w ++ [EpochLine epoch tl ta vl va])))
      as (Hok & Hmo & Hep & Hlast & Hload).
    { simpl in Hn. lia. }
    cbn [stdout model_pt] in *.
    split; [exact Hok|]. split; [exact Hmo|]. split.
    + rewrite Hep, epochs_of_app, <- app_assoc.
      replace (Z.to_nat (Z.max 1 left)) with (S (Z.to_nat (Z.max 1 (left - 1)))) by lia.
      reflexivity.
    + split; [exact Hlast|]. intros Hnone. unfold torch_load in *.
      cbn [fst snd] in *. rewrite Hmo, Hnone. reflexivity.
Qed.
End Loop.

Lemma no_improvement_no_checkpoint_witness :
  let run :=
    training_loop (fun m : nat => m) scripted_train (scripted_eval [])
      2 (Py.range 1 (30 + 1)) 0%nat (Fin 0) 2 (mkWorld None None None []) in
  (exists m', run.2 = Ok m') /\
  model_pt run.1 = model_pt (mkWorld (Params := nat) None None None []) /\
  epochs_of (stdout run.1)
    = epochs_of (stdout (mkWorld (Params := nat) None None None []))
      ++ take (Z.to_nat (Z.max 1 2)) (Py.range 1 (30 + 1)) /\
  last (stdout run.1) = Some EarlyStopping /\
  (model_pt (mkWorld (Params := nat) None None None []) = None ->
   (torch_load run.1).2 = Raise FileNotFoundError).
Proof.
  apply (no_improvement_no_checkpoint (fun m : nat => m) scripted_train
           (scripted_eval []) 2 (Py.range 1 (30 + 1)) 0%nat (Fin 0) 2
           (mkWorld None None None [])).
  - intros m. exists (S m), (Fin 0), (Fin 0). reflexivity.
  - intros m. exists m, (Fin 0), NaN. split; [|reflexivity].
    unfold scripted_eval. rewrite lookup_nil. reflexivity.
  - vm_compute. lia.
Defined.

Section MainRuns.
Context {Torch Params : Type}.
Variable new_model : Z -> Z -> Z -> float -> float -> Torch.
Variable train_step : Torch -> list Window -> list float -> Torch * list float * float.
Variable eval_step : Torch -> list Window -> list float -> list float * float.
Variable sigmoid : float -> float.
Variable shuffle : Torch -> list (Window * float) -> Torch * list (Window * float).
Variable state_dict : Torch -> Params.
Variable load_state_dict : Torch -> Params -> Torch.
Variable to_datetime : string -> option Z.
Variable to_numeric : string -> option float.

Abbreviation run_main args csv :=
  (main new_model train_step eval_step sigmoid shuffle state_dict load_state_dict
     args csv to_datetime to_numeric).
Abbreviation run_tail args Xtr ytr Xva yva Xte yte :=
  (train_and_test new_model train_step eval_step sigmoid shuffle state_dict
     load_state_dict args Xtr ytr Xva yva Xte yte).
Abbreviation model0 args :=
  (new_model (Py.len FEATURES) (hidden args) (layers args) (dropout args) (lr args)).

Lemma DataLoader_ok (X : list Window) (y : list float) (b : Z) (s : bool) :
  0 < b -> DataLoader X y b s = Ok (mkLoader (zip X y) (Z.to_nat b) s).
Proof. intros Hb. unfold DataLoader. destruct (Z.leb_spec b 0); [lia|reflexivity]. Qed.

Lemma DataLoader_raises (X : list Window) (y : list float) (b : Z) (s : bool) e :
  DataLoader X y b s = Raise e -> e = ValueError.
Proof. unfold DataLoader. destruct (b <=? 0); intros H; inversion H; reflexivity. Qed.


(** The end of [main], once the best model is loaded. *)
Lemma test_and_meta (args : Args) (model : Torch) (te_dl : Loader) (w : World Params) :
  bind (lift (evaluate eval_step sigmoid shuffle model te_dl))
    (fun r => let '(model, (te_loss, te_acc)) := r in
              bind (print (TestLine te_loss te_acc))
                (fun _ => dump_meta (meta_of args te_acc))) w
  = match evaluate eval_step sigmoid shuffle model te_dl with
    | Ok (_, (te_loss, te_acc)) =>
        (mkWorld (scaler_json w) (model_pt w) (Some (meta_of args te_acc))
           (stdout w ++ [TestLine te_loss te_acc]), Ok tt)
    | Raise e => (w, Raise e)
    end.
Proof.
  rewrite bind_lift.
  destruct (evaluate eval_step sigmoid shuffle model te_dl) as [[m [l a]]|e]; reflexivity.
Qed.



Lemma sequences_inv (args : Args) (csv : RawFrame) stats tr_s va_s te_s :
  sequences args csv to_datetime to_numeric = Ok (stats, tr_s, va_s, te_s) ->
  exists df tr va te,
    load_dataset to_datetime to_numeric csv (tickers args) = Ok df /\
    time_split df (lit 7 10) (lit 15 100) = Ok (tr, va, te) /\
    stats = fit_standardizer tr.
Proof.
  unfold sequences.
  destruct (load_dataset _ _ _ _) as [df|e] eqn:El; cbn [mbind result_bind];
    [|discriminate].
  destruct (time_split df _ _) as [[[tr va] te]|e] eqn:Es; cbn [mbind result_bind];
    [|discriminate].
  intros H. exists df, tr, va, te. split; [reflexivity|]. split; [exact Es|].
  destruct (apply_standardizer tr _) as [tr'|]; cbn [mbind result_bind] in H;
    [|discriminate].
  destruct (apply_standardizer va _) as [va'|]; cbn [mbind result_bind] in H;
    [|discriminate].
  destruct (apply_standardizer te _) as [te'|]; cbn [mbind result_bind] in H;
    [|discriminate].
  destruct (make_sequences tr' _); cbn [mbind result_bind] in H; [|discriminate].
  destruct (make_sequences va' _); cbn [mbind result_bind] in H; [|discriminate].
  destruct (make_sequences te' _); cbn [mbind result_bind] in H; [|discriminate].
  injection H as <- _ _ _. reflexivity.
Qed.

(** What the part of [main] after the sequences leaves. *)
Lemma train_and_test_run (args : Args) Xtr ytr Xva yva Xte yte (w : World Params) :
  let run := run_tail args Xtr ytr Xva yva Xte yte w in
  scaler_json run.1 = scaler_json w /\
  match run.2 with
  | Ok _ =>
      0 < batch args /\ zip Xte yte <> [] /\
      exists p te_loss te_acc,
        model_pt run.1 = Some p /\
        meta_json run.1 = Some (meta_of args te_acc) /\
        last (stdout run.1) = Some (TestLine te_loss te_acc) /\
        fleb (Fin 0) te_acc = true /\ fleb te_acc (lit 1 1) = true
  | Raise e =>
      meta_json run.1 = meta_json w /\
      (e = ValueError \/ e = ZeroDivisionError \/ e = OverflowError \/
       e = FileNotFoundError) /\
      (0 < batch args -> zip Xte yte = [] ->
       forall w2 model p,
         training_loop state_dict
           (fun m => train_one train_step sigmoid shuffle m
                       (mkLoader (zip Xtr ytr) (Z.to_nat (batch args)) true))
           (fun m => evaluate eval_step sigmoid shuffle m
                       (mkLoader (zip Xva yva) (Z.to_nat (batch args)) false))
           (patience args) (Py.range 1 (epochs args + 1))
           (model0 args) (Fin 0) (patience args) w = (w2, Ok model) ->
         model_pt w2 = Some p -> run = (w2, Raise ZeroDivisionError))
  end.
Proof.
  cbv zeta.
  remember (run_tail args Xtr ytr Xva yva Xte yte w) as run eqn:Er.
  unfold train_and_test in Er.
  destruct (Z_lt_le_dec 0 (batch args)) as [Hb|Hb].
  2:{ unfold DataLoader in Er. destruct (Z.leb_spec (batch args) 0); [|lia].
      rewrite bind_lift in Er. subst run. cbn [fst snd]. split; [reflexivity|].
      split; [reflexivity|]. split; [auto|]. intros; lia. }
  rewrite !DataLoader_ok in Er by exact Hb. rewrite !bind_lift in Er. cbv zeta in Er.
  unfold bind at 1 in Er.
  match type of Er with
  | context [training_loop ?x1 ?x2 ?x3 ?x4 ?x5 ?x6 ?x7 ?x8 ?x9] =>
      pose proof (training_loop_run x1 x2 x3 x4 x5 x6 x7 x8 x9) as HR;
      destruct (training_loop x1 x2 x3 x4 x5 x6 x7 x8 x9) as [w2 [model|e]] eqn:EL
  end; cbv zeta in HR; cbn [fst snd] in HR;
    destruct HR as (els & stop & Hout & _ & _ & _ & Hsc & Hme & _ & Hr).
  2:{ subst run. cbn [fst snd].
      split; [exact Hsc|]. split; [exact Hme|]. split.
      - destruct (Hr e eq_refl) as [m' [H|H]].
        + pose proof (train_one_bounds train_step sigmoid shuffle m'
                        (mkLoader (zip Xtr ytr) (Z.to_nat (batch args)) true)) as HB.
          rewrite H in HB. tauto.
        + pose proof (evaluate_bounds eval_step sigmoid shuffle m'
                        (mkLoader (zip Xva yva) (Z.to_nat (batch args)) false)) as HB.
          rewrite H in HB. tauto.
      - intros _ _ w2' model' p H. discriminate. }
  unfold bind at 1, torch_load at 1 in Er.
  destruct (model_pt w2) as [p|] eqn:Ep.
  2:{ subst run. cbn [fst snd]. split; [exact Hsc|]. split; [exact Hme|]. split; [auto|].
      intros _ _ w2' model' p H. injection H as <- <-. rewrite Ep. discriminate. }
  rewrite test_and_meta in Er.
  pose proof (evaluate_bounds eval_step sigmoid shuffle (load_state_dict model p)
                (mkLoader (zip Xte yte) (Z.to_nat (batch args)) false)) as HB.
  destruct (zip Xte yte) as [|xy d] eqn:Ez.
  - rewrite evaluate_empty in Er. subst run. cbn [fst snd].
    split; [exact Hsc|]. split; [exact Hme|].
    split; [auto|]. intros _ _ w2' model' p' H. injection H as <- <-. reflexivity.
  - destruct (evaluate _ _ _ _ _) as [[m [l a]]|e]; subst run; cbn [fst snd scaler_json].
    + split; [exact Hsc|]. split; [exact Hb|]. split; [discriminate|].
      exists p, l, a. cbn [model_pt meta_json stdout]. split; [exact Ep|].
      split; [reflexivity|]. split; [apply last_snoc|exact HB].
    + split; [exact Hsc|]. split; [exact Hme|]. split; [tauto|].
      intros _ H. discriminate.
Qed.


Lemma meta_of_lookups (args : Args) (te_acc : float) :
  meta_of args te_acc !! "seq_len" = Some (JInt (seq_len args)) /\
  meta_of args te_acc !! "hidden" = Some (JInt (hidden args)) /\
  meta_of args te_acc !! "layers" = Some (JInt (layers args)) /\
  meta_of args te_acc !! "dropout" = Some (JFloat (dropout args)).
Proof.
  unfold meta_of. repeat split;
    repeat (rewrite lookup_insert_ne by discriminate); apply lookup_insert_eq.
Qed.

(** X16.  When [main] returns, the output directory holds the three
    files the predictor opens: the statistics fitted on the train split,
    a model file, and the metadata with the arguments of the run and a
    test accuracy between 0 and 1, which is that of the last line
    printed.  The predictor then uses the window length of the training
    run, whatever its own argument, and finds the keys it reads. *)
Theorem main_success (args : Args) (csv : RawFrame) (w : World Params) :
  (run_main args csv w).2 = Ok tt ->
  let run := run_main args csv w in
  exists df tr va te p te_loss te_acc,
    load_dataset to_datetime to_numeric csv (tickers args) = Ok df /\
    time_split df (lit 7 10) (lit 15 100) = Ok (tr, va, te) /\
    scaler_json run.1 = Some (fit_standardizer tr) /\
    model_pt run.1 = Some p /\
    meta_json run.1 = Some (meta_of args te_acc) /\
    last (stdout run.1) = Some (TestLine te_loss te_acc) /\
    fleb (Fin 0) te_acc = true /\ fleb te_acc (lit 1 1) = true /\
    (forall pargs : Predict.Args,
       Predict.seq_len_used pargs (meta_of args te_acc) = JInt (seq_len args)) /\
    getitem (meta_of args te_acc) "hidden" = Ok (JInt (hidden args)) /\
    getitem (meta_of args te_acc) "layers" = Ok (JInt (layers args)) /\
    getitem (meta_of args te_acc) "dropout" = Ok (JFloat (dropout args)).
Proof.
  intros Hok. cbv zeta.
  pose proof (main_cases new_model train_step eval_step sigmoid shuffle state_dict
                load_state_dict to_datetime to_numeric args csv w) as HC.
  destruct (sequences args csv to_datetime to_numeric)
    as [[[[stats [Xtr ytr]] [Xva yva]] [Xte yte]]|e0] eqn:Hs.
  2:{ destruct HC as [HC _]. rewrite HC in Hok. discriminate. }
  destruct ((Py.len Xtr =? 0) || (Py.len Xva =? 0)) eqn:Hne.
  { rewrite HC in Hok. discriminate. }
  clear HC.
  destruct (sequences_inv _ _ _ _ _ _ Hs) as (df & tr & va & te & Hl & Hsp & ->).
  rewrite (main_tail _ _ _ _ _ _ _ _ _ _ _ _ _ _ _ _ _ _ _ Hs Hne) in *.
  pose proof (train_and_test_run args Xtr ytr Xva yva Xte yte
                (mkWorld (Some (fit_standardizer tr)) (model_pt w) (meta_json w)
                   (stdout w))) as HT.
  cbv zeta in HT. destruct HT as [Hsc HT]. rewrite Hok in HT.
  destruct HT as (_ & _ & p & l & a & Hp & Hm & Hlast & Ha).
  destruct (meta_of_lookups args a) as (M1 & M2 & M3 & M4).
  exists df, tr, va, te, p, l, a.
  split; [exact Hl|]. split; [exact Hsp|]. split; [exact Hsc|].
  split; [exact Hp|]. split; [exact Hm|]. split; [exact Hlast|].
  split; [exact (proj1 Ha)|]. split; [exact (proj2 Ha)|].
  split.
  - intros pargs. unfold Predict.seq_len_used, Predict.get_default. rewrite M1.
    reflexivity.
  - unfold getitem. rewrite M2, M3, M4. auto.
Qed.
End MainRuns.




Lemma main_success_witness :
  let args := toy_args_epochs 1 2 in
  let run := toy_main args week_csv (mkWorld (Params := unit) None None None []) in
  exists df tr va te p te_loss te_acc,
    load_dataset toy_datetime no_numeric week_csv (tickers args) = Ok df /\
    time_split df (lit 7 10) (lit 15 100) = Ok (tr, va, te) /\
    scaler_json run.1 = Some (fit_standardizer tr) /\
    model_pt run.1 = Some p /\
    meta_json run.1 = Some (meta_of args te_acc) /\
    last (stdout run.1) = Some (TestLine te_loss te_acc) /\
    fleb (Fin 0) te_acc = true /\ fleb te_acc (lit 1 1) = true /\
    (forall pargs : Predict.Args,
       Predict.seq_len_used pargs (meta_of args te_acc) = JInt (seq_len args)) /\
    getitem (meta_of args te_acc) "hidden" = Ok (JInt (hidden args)) /\
    getitem (meta_of args te_acc) "layers" = Ok (JInt (layers args)) /\
    getitem (meta_of args te_acc) "dropout" = Ok (JFloat (dropout args)).
Proof.
  intros args run.
  apply (main_success toy_new_model toy_train_step toy_eval_step toy_sigmoid
           toy_shuffle toy_state_dict toy_load_state_dict toy_datetime no_numeric
           args week_csv (mkWorld None None None [])).
  vm_compute. reflexivity.
Defined.

(* ================================================================== *)
(** * Further properties: the list of tickers *)
(* ================================================================== *)

Section Tickers.
Import Str.












Lemma split_one sep s : mem sep s = false -> split sep s = [s].
Proof.
  induction s as [|a s IH]; [reflexivity|]. cbn [mem split].
  intros H. apply orb_false_iff in H as [H1 H2].
  rewrite H1, (IH H2). reflexivity.
Qed.

Lemma split_app sep s rest :
  mem sep s = false -> split sep (String.append s (String sep rest)) = s :: split sep rest.
Proof.
  induction s as [|a s IH].
  - intros _. simpl. rewrite Ascii.eqb_refl. reflexivity.
  - cbn [mem]. intros H. apply orb_false_iff in H as [H1 H2].
    simpl. rewrite H1. simpl in IH. rewrite (IH H2). reflexivity.
Qed.

Lemma split_join sep (toks : list string) :
  toks <> [] -> Forall (fun t => mem sep t = false) toks ->
  split sep (join sep toks) = toks.
Proof.
  induction toks as [|x toks IH]; [intros H; destruct H; reflexivity|].
  intros _ HF. apply Forall_cons in HF as [Hx HF].
  destruct toks as [|y toks].
  - cbn [join]. apply split_one, Hx.
  - change (join sep (x :: y :: toks))
      with (String.append x (String sep (join sep (y :: toks)))).
    rewrite (split_app _ _ _ Hx), IH; [reflexivity|discriminate|exact HF].
Qed.

Lemma strip_nil : strip "" = "".
Proof. reflexivity. Qed.

Lemma join_nonempty sep x (toks : list string) : x <> "" -> join sep (x :: toks) <> "".
Proof.
  intros Hx. destruct x as [|a x]; [destruct Hx; reflexivity|].
  destruct toks; simpl; discriminate.
Qed.

Lemma strip_names (toks names : list string) :
  Forall2 (fun tok name => strip tok = name /\ name <> "" /\ mem "," tok = false)
    toks names ->
  map strip (filter (fun t => strip t <> "") toks) = names /\
  Forall (fun t => mem "," t = false) toks.
Proof.
  induction 1 as [|tok name toks names (Hs & Hn & Hm) _ [IH1 IH2]];
    [split; [reflexivity|constructor]|].
  split; [|constructor; assumption].
  rewrite filter_cons. rewrite decide_True by (rewrite Hs; exact Hn).
  cbn [map]. rewrite Hs, IH1. reflexivity.
Qed.

(** X18.  Names joined with commas, each with any white space around it,
    parse back to the names: for tokens without a comma whose stripped
    texts are the non-empty names, the parsed list of the joined tokens
    is the list of names. *)
Theorem parse_tickers_join (toks names : list string) :
  toks <> [] ->
  Forall2 (fun tok name => strip tok = name /\ name <> "" /\ mem "," tok = false)
    toks names ->
  parse_tickers (join "," toks) = Some names.
Proof.
  intros Hne HF. destruct (strip_names toks names HF) as [Hnames Hcomma].
  unfold parse_tickers.
  destruct toks as [|x toks]; [destruct Hne; reflexivity|].
  rewrite decide_False.
  - rewrite (split_join "," (x :: toks) Hne Hcomma), Hnames. reflexivity.
  - apply join_nonempty. inversion HF as [|? name ? ? (Hs & Hn & _)]; subst.
    intros ->. apply Hn. reflexivity.
Qed.

Lemma lstrip_spaces s : all isspace s = true -> lstrip s = "".
Proof.
  induction s as [|a s IH]; [reflexivity|]. cbn [all lstrip].
  intros H. apply andb_true_iff in H as [-> H]. apply IH, H.
Qed.

Lemma split_blank s :
  all (fun c => Ascii.eqb c "," || isspace c) s = true ->
  Forall (fun t => all isspace t = true) (split "," s).
Proof.
  induction s as [|a s IH]; [intros _; repeat constructor|]. cbn [all split].
  intros H. apply andb_true_iff in H as [Ha H]. specialize (IH H).
  destruct (Ascii.eqb a ",") eqn:Ea; [constructor; [reflexivity|exact IH]|].
  cbn [orb] in Ha.
  destruct (split "," s) as [|h t]; [repeat constructor; cbn [all]; rewrite Ha; reflexivity|].
  apply Forall_cons in IH as [Hh Ht]. constructor; [|exact Ht].
  cbn [all]. rewrite Ha, Hh. reflexivity.
Qed.

Lemma parse_blank s :
  all (fun c => Ascii.eqb c "," || isspace c) s = true ->
  parse_tickers s = None \/ parse_tickers s = Some [].
Proof.
  intros H. unfold parse_tickers. destruct (decide (s = "")); [left; reflexivity|].
  right. f_equal. apply split_blank in H.
  induction (split "," s) as [|t l IH]; [reflexivity|].
  apply Forall_cons in H as [Ht Hl]. rewrite filter_cons.
  rewrite decide_False; [exact (IH Hl)|].
  intros Hn. apply Hn. unfold strip. rewrite (lstrip_spaces t Ht). reflexivity.
Qed.

(** X19.  A [--tickers] argument of commas and white space only selects
    every ticker: the loader returns what it returns without a list. *)
Theorem blank_tickers_keep_all (to_datetime : string -> option Z)
    (to_numeric : string -> option float) (csv : RawFrame) (tickers : string) :
  all (fun c => Ascii.eqb c "," || isspace c) tickers = true ->
  load_dataset to_datetime to_numeric csv (parse_tickers tickers)
  = load_dataset to_datetime to_numeric csv None.
Proof.
  intros H. destruct (parse_blank tickers H) as [-> | ->]; reflexivity.
Qed.
End Tickers.

Lemma parse_tickers_join_witness :
  parse_tickers (Str.join "," [" AAA"; "BBB "]) = Some ["AAA"; "BBB"].
Proof.
  apply (parse_tickers_join [" AAA"; "BBB "] ["AAA"; "BBB"]); [discriminate|].
  repeat constructor; discriminate.
Defined.

Lemma blank_tickers_keep_all_witness :
  load_dataset toy_datetime no_numeric week_csv (parse_tickers " , ,")
  = load_dataset toy_datetime no_numeric week_csv None.
Proof.
  apply (blank_tickers_keep_all toy_datetime no_numeric week_csv " , ,").
  reflexivity.
Defined.

(* ================================================================== *)
(** * Further properties: the predictor *)
(* ================================================================== *)

Section Predictor.
Context {Torch Params : Type}.
Variable LSTMClassifier : Z -> json -> json -> json -> result Torch.
Variable load_state_dict : Torch -> Params -> result Torch.
Variable forward : Torch -> list Window -> list float.
Variable sigmoid : float -> float.
Variable to_datetime : string -> option Z.
Variable to_numeric : string -> option float.

Abbreviation run_predict args meta_json scaler_json model_pt csv :=
  (Predict.main LSTMClassifier load_state_dict forward sigmoid
     args meta_json scaler_json model_pt csv to_datetime to_numeric).

End Predictor.

Section Unlabelled.
Context {Torch Params : Type}.
Variable LSTMClassifier : Z -> json -> json -> json -> result Torch.
Variable load_state_dict : Torch -> Params -> result Torch.
Variable forward : Torch -> list Window -> list float.
Variable sigmoid : float -> float.
Variable to_datetime : string -> option Z.
Variable to_numeric : string -> option float.

Lemma kept_unlabelled (csv : RawFrame) tickers :
  Forall (fun r => is_nan (y_up r) = true) csv -> kept csv tickers = [].
Proof.
  intros H. unfold kept, RawFrame in *.
  assert (E : filter (fun r : Row (option string) cell => negb (is_nan (y_up r))) csv = []).
  { induction H as [|r l Hr _ IH]; [reflexivity|].
    rewrite filter_cons, Hr. cbn. exact IH. }
  rewrite E. destruct tickers as [[|t ts]|]; reflexivity.
Qed.

Lemma make_sequences_nil (n : Z) : 0 <= n -> make_sequences [] n = Ok ([], []).
Proof.
  intros Hn. unfold make_sequences. cbn [groupby_ticker foldM mbind result_bind].
  change (groupby_ticker (@nil (Row Timestamp float))) with (@nil (string * Frame)).
  cbn [foldM mbind result_bind].
  destruct (Z.ltb_spec n 0); [lia|]. reflexivity.
Qed.

(** X21.  The predictor needs labels too: on a source where no row has
    a label the loader keeps nothing, and the predictor prints that there
    is nothing to score, provided the statistics are complete and the
    window length is a non-negative integer.  It reads neither the model
    file nor the other metadata. *)
Theorem predict_unlabelled (args : Predict.Args) (meta : gmap string json)
    (stats : Stats) (mean std : Feature -> float) (n : Z)
    (model_pt : option Params) (csv : RawFrame) :
  holds stats mean std ->
  Predict.as_int (Predict.seq_len_used args meta) = Ok n -> 0 <= n ->
  Forall (fun r => is_nan (y_up r) = true) csv ->
  Predict.main LSTMClassifier load_state_dict forward sigmoid
    args (Some meta) (Some stats) model_pt csv to_datetime to_numeric
  = Ok [NoSequences].
Proof.
  intros Hh Hn Hpos Hcsv. unfold Predict.main.
  cbn [Predict.open mbind result_bind]. cbv zeta.
  rewrite load_dataset_kept, (kept_unlabelled csv _ Hcsv).
  cbn [mapM mret result_ret mbind result_bind Pd.sort_values foldr map].
  rewrite (apply_standardizer_map [] stats mean std Hh).
  cbn [map mbind result_bind]. rewrite Hn. cbn [mbind result_bind].
  rewrite (make_sequences_nil n Hpos). reflexivity.
Qed.
End Unlabelled.

Lemma ok_or_eq {A : Type} (d : A) (r : result A) : is_ok r = true -> r = Ok (ok_or d r).
Proof. destruct r; [reflexivity|discriminate]. Qed.


Lemma predict_unlabelled_witness :
  Predict.main flat_model flat_load flat_forward toy_sigmoid
    (Predict.mkArgs 30 None) (Some ∅) (Some (uniform_stats (Fin 0) (Fin one_u)))
    (None : option unit) [raw_row_of (Some "AAA") "a" NaN] toy_datetime no_numeric
  = Ok [NoSequences].
Proof.
  apply (predict_unlabelled flat_model flat_load flat_forward toy_sigmoid
           toy_datetime no_numeric (Predict.mkArgs 30 None) ∅
           (uniform_stats (Fin 0) (Fin one_u)) (fun _ => Fin 0) (fun _ => Fin one_u) 30
           None [raw_row_of (Some "AAA") "a" NaN]).
  - apply holds_uniform_stats.
  - reflexivity.
  - lia.
  - repeat constructor.
Defined.

(* ================================================================== *)
(** * Further properties: from the loader to the sequences *)
(* ================================================================== *)

Section Chronological.
Variable to_datetime : string -> option Z.
Variable to_numeric : string -> option float.

Lemma apply_ok_holds (df out : Frame) (stats : Stats) :
  apply_standardizer df stats = Ok out -> exists mean std, holds stats mean std.
Proof.
  unfold apply_standardizer. rewrite apply_loop.
  destruct (mapM (entry stats) FEATURES) as [mss|e] eqn:E; cbn [mbind result_bind];
    [|discriminate].
  intros _.
  exists (fun c => match entry stats c with Ok ms => ms.1 | Raise _ => NaN end),
         (fun c => match entry stats c with Ok ms => ms.2 | Raise _ => NaN end).
  intros c. destruct (mapM_entry_ok stats FEATURES mss c E (elem_of_FEATURES c))
    as [[mu sd] Hms].
  rewrite Hms. apply entry_ok, Hms.
Qed.

Lemma apply_ok_map (df out : Frame) (stats : Stats) :
  apply_standardizer df stats = Ok out ->
  exists mean std, out = map (standardized mean std) df.
Proof.
  intros H. destruct (apply_ok_holds df out stats H) as (mean & std & Hh).
  rewrite (apply_standardizer_map df stats mean std Hh) in H.
  exists mean, std. apply Ok_inj in H. symmetry. exact H.
Qed.

Lemma StronglySorted_filter_bool {A : Type} (R : A -> A -> Prop) (p : A -> bool)
    (l : list A) :
  StronglySorted R l -> StronglySorted R (filter (fun x => p x) l).
Proof.
  induction 1 as [|x l Hs IH Hx]; [constructor|].
  rewrite filter_cons. destruct (decide (p x)); [|exact IH].
  constructor; [exact IH|].
  rewrite List.Forall_forall in *. intros y Hy. apply Hx.
  apply list_elem_of_In in Hy. apply list_elem_of_filter in Hy as [_ Hy].
  apply list_elem_of_In. exact Hy.
Qed.

Lemma key_leb_same_ticker {V : Type} (r1 r2 : Row Timestamp V) :
  ticker r1 = ticker r2 -> key_leb r1 r2 = true ->
  Pd.na_last_leb Z.leb (date r1) (date r2) = true.
Proof. unfold key_leb. intros E. rewrite decide_True by exact E. auto. Qed.

Lemma StronglySorted_sublist {A : Type} (R : A -> A -> Prop) (l1 l2 : list A) :
  l1 `sublist_of` l2 -> StronglySorted R l2 -> StronglySorted R l1.
Proof.
  induction 1 as [|x l1 l2 Hsub IH|x l1 l2 Hsub IH]; intros Hs.
  - constructor.
  - apply StronglySorted_inv in Hs as [Hs Hx]. constructor; [exact (IH Hs)|].
    apply List.Forall_forall. intros y Hy. rewrite List.Forall_forall in Hx.
    apply Hx. apply list_elem_of_In. eapply elem_of_sublist; [|exact Hsub].
    apply list_elem_of_In. exact Hy.
  - apply StronglySorted_inv in Hs as [Hs _]. exact (IH Hs).
Qed.

Lemma sorted_group {V : Type} (l : list (Row Timestamp V)) (k : string) :
  Forall (fun r => ticker r = Some k) l ->
  StronglySorted (fun r1 r2 => key_leb r1 r2 = true) l ->
  StronglySorted (fun r1 r2 => Pd.na_last_leb Z.leb (date r1) (date r2) = true) l.
Proof.
  intros Hk Hf. revert Hk.
  induction Hf as [|x l Hf IH Hx]; intros Hk; [constructor|].
  apply Forall_cons in Hk as [Hxk Hk]. constructor; [exact (IH Hk)|].
  apply List.Forall_forall. intros y Hy. rewrite List.Forall_forall in Hx.
  apply key_leb_same_ticker; [|apply Hx, Hy].
  rewrite Hxk. symmetry. rewrite Forall_forall in Hk. apply Hk.
  apply list_elem_of_In. exact Hy.
Qed.

(** X22.  The windows are chronological: in the frame the loader
    returns and in every part of it that keeps its order (a split of
    [time_split], the whole frame), standardized or not, every group of
    [groupby] holds the rows of one ticker in ascending order of the date
    (rows without a date last), so a window, which is a run of
    consecutive rows of a group, goes forward in time. *)
Theorem groups_chronological (csv : RawFrame) (tickers : option (list string))
    (df part part' : Frame) (stats : Stats) :
  load_dataset to_datetime to_numeric csv tickers = Ok df ->
  part `sublist_of` df ->
  apply_standardizer part stats = Ok part' ->
  Forall
    (fun g : string * Frame =>
       Forall (fun r => ticker r = Some g.1) g.2 /\
       StronglySorted
         (fun r1 r2 => Pd.na_last_leb Z.leb (date r1) (date r2) = true) g.2)
    (groupby_ticker part ++ groupby_ticker part').
Proof.
  intros Hl Hsub Ha. apply load_dataset_is_sorted in Hl.
  apply (StronglySorted_sublist _ _ _ Hsub) in Hl.
  assert (Hs' : StronglySorted (fun r1 r2 => key_leb r1 r2 = true) part').
  { destruct (apply_ok_map part part' stats Ha) as (mean & std & ->).
    apply (StronglySorted_map (fun r1 r2 : Row Timestamp float => key_leb r1 r2 = true));
      [|exact Hl].
    intros a b H. exact H. }
  assert (G : forall d : Frame,
            StronglySorted (fun r1 r2 => key_leb r1 r2 = true) d ->
            Forall
              (fun g : string * Frame =>
                 Forall (fun r => ticker r = Some g.1) g.2 /\
                 StronglySorted
                   (fun r1 r2 => Pd.na_last_leb Z.leb (date r1) (date r2) = true) g.2)
              (groupby_ticker d)).
  { intros d Hd. apply Forall_forall. intros g Hg.
    pose proof (groupby_groups d g Hg) as Eg. destruct g as [k l]. cbn [fst snd] in *.
    subst l.
    assert (Hk : Forall (fun r : Row Timestamp float => ticker r = Some k)
                   (filter (fun r => bool_decide (ticker r = Some k)) d)).
    { apply Forall_forall. intros r Hr. apply list_elem_of_filter in Hr as [Hr _].
      apply bool_decide_unpack in Hr. exact Hr. }
    split; [exact Hk|].
    pose proof (StronglySorted_filter_bool _
                  (fun r : Row Timestamp float => bool_decide (ticker r = Some k)) d Hd)
      as Hf.
    exact (sorted_group _ k Hk Hf). }
  apply Forall_app. split; [apply G, Hl|apply G, Hs'].
Qed.
End Chronological.

Lemma groups_chronological_witness :
  let csv := [raw_row "ccc" (Fin 0) (Fin 0); raw_row "a" (Fin 0) (Fin 0);
              raw_row "bb" (Fin 0) (Fin 0)] in
  let stats := uniform_stats (Fin 0) (Fin one_u) in
  let df := ok_or [] (load_dataset toy_datetime no_numeric csv None) in
  let part := take 2 df in
  let part' := ok_or [] (apply_standardizer part stats) in
  Forall
    (fun g : string * Frame =>
       Forall (fun r => ticker r = Some g.1) g.2 /\
       StronglySorted
         (fun r1 r2 => Pd.na_last_leb Z.leb (date r1) (date r2) = true) g.2)
    (groupby_ticker part ++ groupby_ticker part').
Proof.
  intros csv stats df part part'.
  apply (groups_chronological toy_datetime no_numeric csv None df part part' stats).
  - apply ok_or_eq. vm_compute. reflexivity.
  - apply sublist_take.
  - apply ok_or_eq. vm_compute. reflexivity.
Defined.

Section NoNaN.
Variable to_datetime : string -> option Z.
Variable to_numeric : string -> option float.

Lemma load_dataset_labels (csv : RawFrame) (tickers : option (list string)) df :
  load_dataset to_datetime to_numeric csv tickers = Ok df ->
  Forall (fun r => is_nan (y_up r) = false) df.
Proof.
  rewrite load_dataset_kept.
  pose proof (parse_dates to_datetime (kept csv tickers)) as HP.
  destruct (mapM _ (kept csv tickers)) as [l|e]; cbn [mbind result_bind]; [|discriminate].
  subst l. intros H. apply Ok_inj in H. subst df.
  destruct (kept_rows csv tickers) as [HF _].
  apply Forall_fmap. rewrite (sort_values_perm key_leb). apply Forall_fmap.
  eapply Forall_impl; [exact HF|]. intros r [Hr _]. exact Hr.
Qed.

Lemma to_float32_not_nan (x : float) : is_nan x = false -> is_nan (to_float32 x) = false.
Proof.
  destruct x as [a| | |]; try (intros; reflexivity); [|discriminate].
  intros _. unfold to_float32, round32, round_to. cbv zeta.
  destruct (_ <=? _); [destruct (_ <? _)|]; reflexivity.
Qed.

Lemma slice_subseteq {A : Type} (l : list A) lo hi : Py.slice l lo hi ⊆ l.
Proof.
  unfold Py.slice. cbv zeta. etransitivity; [apply subseteq_take|apply subseteq_drop].
Qed.

Lemma index_elem_of {A : Type} (l : list A) i x : Py.index l i = Ok x -> x ∈ l.
Proof.
  unfold Py.index. destruct (_ <? 0); [discriminate|].
  destruct (l !! _) as [y|] eqn:E; [|discriminate].
  intros H. apply Ok_inj in H. subst y. eapply list_elem_of_lookup_2, E.
Qed.

Lemma foldM_inv_elem {A B : Type} (P : B -> Prop) (f : B -> A -> result B) l acc r :
  P acc -> (forall acc x acc', x ∈ l -> P acc -> f acc x = Ok acc' -> P acc') ->
  foldM f acc l = Ok r -> P r.
Proof.
  intros H0 Hstep. revert acc H0. induction l as [|x l IH]; intros acc H0 H.
  - apply Ok_inj in H. subst r. exact H0.
  - cbn [foldM] in H. destruct (f acc x) as [acc'|e] eqn:E; [|discriminate].
    cbn [mbind result_bind] in H. eapply IH; [| |exact H].
    + intros a y a' Hy. apply Hstep. apply list_elem_of_further, Hy.
    + eapply Hstep; [apply list_elem_of_here|exact H0|exact E].
Qed.

(** What [make_sequences] returns is made of the cells of the frame. *)
Lemma make_sequences_cells (P : float -> Prop) (df : Frame) (S : Z) X y :
  Forall (fun r => (forall c, P (to_float32 (get c r))) /\ P (to_float32 (y_up r))) df ->
  make_sequences df S = Ok (X, y) ->
  Forall (Forall (Forall P)) X /\ Forall P y.
Proof.
  intros Hdf. unfold make_sequences.
  match goal with
  | |- context [foldM ?f ?a (groupby_ticker df)] =>
      destruct (foldM f a (groupby_ticker df)) as [[X_all y_all]|e] eqn:E
  end; cbn [mbind result_bind]; [|discriminate].
  assert (HL : Forall (Forall (Forall P)) X_all /\ Forall P y_all).
  { refine (foldM_inv_elem
              (fun acc : list Window * list float =>
                 Forall (Forall (Forall P)) acc.1 /\ Forall P acc.2)
              _ _ ([], []) _ _ _ E); [split; constructor|].
    intros [Xa ya] [k g] acc' Hin Hacc Hf.
    assert (Hg : g ⊆ df).
    { pose proof (groupby_groups df (k, g) Hin) as Eg. cbn [fst snd] in Eg. subst g.
      intros r Hr. apply list_elem_of_filter in Hr as [_ Hr]. exact Hr. }
    refine (foldM_inv
              (fun acc : list Window * list float =>
                 Forall (Forall (Forall P)) acc.1 /\ Forall P acc.2)
              _ _ (Xa, ya) _ Hacc _ Hf).
    intros [Xb yb] t acc'' [HX Hy] Ht. cbv zeta in Ht.
    destruct (Py.index (labels_of g) t) as [v|] eqn:Ev; [|discriminate].
    cbn [mbind result_bind] in Ht. apply Ok_inj in Ht. subst acc''. cbn [fst snd] in *.
    split.
    + apply Forall_app. split; [exact HX|]. constructor; [|constructor].
      apply Forall_forall. intros row Hrow. apply slice_subseteq in Hrow.
      unfold feats_of in Hrow. apply list_elem_of_fmap in Hrow as (r & -> & Hr).
      apply Forall_fmap, Forall_forall. intros c _. unfold compose.
      rewrite Forall_forall in Hdf. apply (Hdf r (Hg r Hr)).
    + apply Forall_app. split; [exact Hy|]. constructor; [|constructor].
      apply index_elem_of in Ev. unfold labels_of in Ev.
      apply list_elem_of_fmap in Ev as (r & -> & Hr).
      rewrite Forall_forall in Hdf. apply (Hdf r (Hg r Hr)). }
  destruct HL as [HX Hy]. destruct X_all as [|x X_all].
  - destruct (S <? 0); cbn [mbind result_bind]; [discriminate|].
    intros H. apply Ok_inj in H. injection H as <- <-. split; [constructor|exact Hy].
  - destruct (Pd.stack (x :: X_all)) as [X'|] eqn:Es; cbn [mbind result_bind];
      [|discriminate].
    intros H. apply Ok_inj in H. injection H as <- <-. apply stack_ok in Es. subst X'.
    split; assumption.
Qed.

(** X23.  The model never sees a missing value: for the frame the
    loader returns, or a part of it, standardized with any complete
    statistics, no window of [make_sequences] holds a NaN and no label is
    NaN, whatever the window length. *)
Theorem sequences_have_no_nan (csv : RawFrame) (tickers : option (list string))
    (df part part' : Frame) (stats : Stats) (S : Z) (X : list Window) (y : list float) :
  load_dataset to_datetime to_numeric csv tickers = Ok df ->
  part `sublist_of` df ->
  apply_standardizer part stats = Ok part' ->
  make_sequences part' S = Ok (X, y) ->
  Forall (Forall (Forall (fun v => is_nan v = false))) X /\
  Forall (fun v => is_nan v = false) y.
Proof.
  intros Hl Hsub Ha Hm.
  apply (make_sequences_cells (fun v => is_nan v = false) part' S X y); [|exact Hm].
  destruct (apply_ok_map part part' stats Ha) as (mean & std & ->).
  apply Forall_fmap, Forall_forall. intros r Hr. unfold compose.
  split.
  - intros c. apply to_float32_not_nan. unfold standardized. rewrite get_map_row.
    apply zero_if_bad_finite.
  - apply to_float32_not_nan.
    pose proof (load_dataset_labels csv tickers df Hl) as HL.
    rewrite Forall_forall in HL. apply (HL r).
    eapply elem_of_sublist; [exact Hr|exact Hsub].
Qed.
End NoNaN.

Lemma sequences_have_no_nan_witness :
  let csv := [raw_row "ccc" NaN (Fin 0); raw_row "a" (Fin 0) (Fin 0);
              raw_row "bb" PInf (Fin 0)] in
  let stats := uniform_stats (Fin 0) (Fin one_u) in
  let df := ok_or [] (load_dataset toy_datetime no_numeric csv None) in
  let part' := ok_or [] (apply_standardizer df stats) in
  let s := ok_or ([], []) (make_sequences part' 2) in
  Forall (Forall (Forall (fun v => is_nan v = false))) s.1 /\
  Forall (fun v => is_nan v = false) s.2.
Proof.
  intros csv stats df part' s.
  apply (sequences_have_no_nan toy_datetime no_numeric csv None df df part' stats 2
           s.1 s.2).
  - apply ok_or_eq. vm_compute. reflexivity.
  - reflexivity.
  - apply ok_or_eq. vm_compute. reflexivity.
  - transitivity (Ok s); [apply ok_or_eq; vm_compute; reflexivity|].
    destruct s; reflexivity.
Defined.

(* ================================================================== *)
(** * Further properties: the sizes of the splits *)
(* ================================================================== *)

Section SplitSizes.

(** The product of a row count and a fraction, rounded, then truncated:
    bounds for a product that lies between two binary64 numbers. *)
Lemma floor_fmul (N t m : Z) :
  0 <= N <= 2 ^ 40 -> 0 <= t <= one_u -> 0 <= m <= N ->
  (m - 1) * one_u <= N * t ->
  256 * (N * t) <= (256 * m + 255) * one_u ->
  exists z, fmul (of_Z N) (Fin t) = Fin z /\ 0 <= z /\
            m - 1 <= z / one_u <= m.
Proof.
  intros HN Ht Hm Hlo Hhi. pose proof one_u_pos as Hu.
  assert (H40 : 2 ^ 40 <= 2 ^ 53) by (apply Z.pow_le_mono_r; lia).
  rewrite of_Z_exact by lia. cbn [fmul].
  replace (N * one_u * t) with (N * t * one_u) by ring.
  assert (HNt : 0 <= N * t) by (apply Z.mul_nonneg_nonneg; lia).
  assert (Hs : round64 (N * t * one_u) one_u = round64 (N * t) 1).
  { rewrite <- (round64_scale (N * t) 1 one_u) by lia. rewrite Z.mul_1_l. reflexivity. }
  rewrite Hs.
  assert (K : N * t <= 1 * 2 ^ 1137).
  { replace 1137 with (63 + 1074) by lia. rewrite Z.pow_add_r by lia. fold one_u.
    rewrite Z.mul_1_l. apply Z.mul_le_mono_nonneg; lia. }
  destruct (round64_fin (N * t) 1 1137 HNt ltac:(lia) ltac:(lia) K) as [E [Hz _]].
  rewrite E. eexists. split; [reflexivity|]. split; [exact Hz|].
  assert (E8 : one_u = 256 * 2 ^ 1066).
  { unfold one_u. replace 1074 with (8 + 1066) by lia. rewrite Z.pow_add_r by lia.
    reflexivity. }
  assert (Hp : 0 < 2 ^ 1066) by (apply Z.pow_pos_nonneg; lia).
  split.
  - destruct (Z.eq_dec m 0) as [->|Hm0].
    + pose proof (Z.div_pos _ _ Hz Hu). lia.
    + apply Z.div_le_lower_bound; [exact Hu|].
      rewrite Z.mul_comm.
      assert (Ex : round_mag 53 0 ((m - 1) * 2 ^ 1074) 1 = (m - 1) * 2 ^ 1074)
        by (apply round_mag_53; lia).
      fold one_u in Ex. rewrite <- Ex.
      apply round_mag_mono; lia.
  - assert (Hlt : round_mag 53 0 (N * t) 1 < (m + 1) * one_u).
    { assert (Ex : round_mag 53 0 ((256 * m + 255) * 2 ^ 1066) 1
                   = (256 * m + 255) * 2 ^ 1066)
        by (apply round_mag_53; lia).
      assert (Hle : round_mag 53 0 (N * t) 1
                    <= round_mag 53 0 ((256 * m + 255) * 2 ^ 1066) 1).
      { rewrite E8 in Hhi. apply round_mag_mono; lia. }
      rewrite Ex in Hle. rewrite E8. nia. }
    assert (round_mag 53 0 (N * t) 1 / one_u < m + 1)
      by (apply Z.div_lt_upper_bound; [exact Hu|lia]).
    lia.
Qed.

(** The two fractions of [main] are just below 7/10 and 85/100. *)
Lemma fraction_errors :
  let t := grid (lit 7 10) in
  let s := grid (fadd (lit 7 10) (lit 15 100)) in
  fadd (Fin t) (Fin (grid (lit 15 100))) = Fin s /\
  (0 <= t /\ t <= one_u) /\ (0 <= s /\ s <= one_u) /\
  (0 <= 7 * one_u - 10 * t /\ 2 ^ 40 * (7 * one_u - 10 * t) <= 2 ^ 1064) /\
  (0 <= 85 * one_u - 100 * s /\ 2 ^ 40 * (85 * one_u - 100 * s) <= 2 ^ 1068).
Proof. vm_compute. repeat split; discriminate. Qed.

(** The product of the row count and a fraction just below [p/q]. *)
Lemma floor_fraction (N t p q : Z) :
  0 <= N <= 2 ^ 40 -> 0 <= t <= one_u -> 0 < p <= q -> q <= 100 ->
  0 <= p * one_u - q * t -> 2 ^ 40 * (p * one_u - q * t) <= 2 ^ 1068 ->
  exists z, fmul (of_Z N) (Fin t) = Fin z /\
            p * N / q - 1 <= z / one_u <= p * N / q.
Proof.
  intros HN Ht Hp Hq Hd0 Hd. pose proof one_u_pos as Hu.
  set (m := p * N / q).
  assert (Hm1 : q * m <= p * N) by (apply Z.mul_div_le; lia).
  assert (Hm2 : p * N < q * m + q).
  { pose proof (Z.mod_pos_bound (p * N) q ltac:(lia)) as Hmod.
    pose proof (Z.div_mod (p * N) q ltac:(lia)) as Hdm. fold m in Hdm. lia. }
  assert (Hm0 : 0 <= m) by (apply Z.div_pos; nia).
  assert (HmN : m <= N) by nia.
  assert (EU : one_u = 64 * 2 ^ 1068).
  { unfold one_u. replace 1074 with (6 + 1068) by lia. rewrite Z.pow_add_r by lia.
    reflexivity. }
  assert (HP : 0 < 2 ^ 1068) by (apply Z.pow_pos_nonneg; lia).
  set (d := p * one_u - q * t) in *.
  assert (HNd : N * d <= 2 ^ 1068).
  { etransitivity; [|exact Hd]. apply Z.mul_le_mono_nonneg_r; lia. }
  assert (HNd0 : 0 <= N * d) by (apply Z.mul_nonneg_nonneg; lia).
  assert (End : N * d = p * (N * one_u) - q * (N * t)) by (unfold d; ring).
  assert (HmU : q * (m * one_u) <= p * (N * one_u)).
  { replace (q * (m * one_u)) with (q * m * one_u) by ring.
    replace (p * (N * one_u)) with (p * N * one_u) by ring.
    apply Z.mul_le_mono_nonneg_r; lia. }
  assert (HmU2 : p * (N * one_u) <= (q * m + q - 1) * one_u).
  { replace (p * (N * one_u)) with (p * N * one_u) by ring.
    apply Z.mul_le_mono_nonneg_r; lia. }
  destruct (floor_fmul N t m HN Ht ltac:(lia)) as (z & Hz & _ & Hb).
  - assert (q * ((m - 1) * one_u) <= q * (N * t)); [|nia].
    replace (q * ((m - 1) * one_u)) with (q * (m * one_u) - q * one_u) by ring.
    assert (2 ^ 1068 <= q * one_u) by nia. lia.
  - assert (q * (256 * (N * t)) <= q * ((256 * m + 255) * one_u)); [|nia].
    replace (q * (256 * (N * t))) with (256 * (q * (N * t))) by ring.
    replace (q * ((256 * m + 255) * one_u))
      with (256 * ((q * m) * one_u) + 255 * (q * one_u)) by ring.
    replace ((q * m + q - 1) * one_u) with ((q * m) * one_u + q * one_u - one_u)
      in HmU2 by ring.
    assert (q * one_u <= 256 * one_u) by nia. lia.
  - exists z. split; [exact Hz|exact Hb].
Qed.

(** X24.  The sizes of the splits of [main], for up to 2^40 rows: the
    train split holds floor(7N/10) rows or one fewer, the train and the
    validation split together floor(85N/100) rows or one fewer (the two
    fractions are binary64 numbers just below 0.7 and 0.85), and the three
    splits together all N rows. *)
Theorem main_split_sizes {A : Type} (df tr va te : list A) :
  Py.len df <= 2 ^ 40 ->
  time_split df (lit 7 10) (lit 15 100) = Ok (tr, va, te) ->
  let N := Py.len df in
  (7 * N / 10 - 1 <= Py.len tr /\ Py.len tr <= 7 * N / 10) /\
  (85 * N / 100 - 1 <= Py.len tr + Py.len va /\
   Py.len tr + Py.len va <= 85 * N / 100) /\
  Py.len tr + Py.len va + Py.len te = N.
Proof.
  intros HN Hs. cbv zeta.
  assert (H63 : Py.len df < 2 ^ 63).
  { assert (2 ^ 40 < 2 ^ 63) by (apply Z.pow_lt_mono_r; lia). lia. }
  assert (H53 : Py.len df <= 2 ^ 53).
  { assert (2 ^ 40 <= 2 ^ 53) by (apply Z.pow_le_mono_r; lia). lia. }
  destruct main_fractions as (E7 & E15 & Hb & H7 & H15 & Hsum).
  destruct (time_split_wellformed df _ _ H63 Hb H7 H15 Hsum)
    as (c1 & c2 & F1 & F2 & Hts & Hle & Hc2 & _ & _).
  specialize (Hc2 H53).
  rewrite <- E7, <- E15, Hs in Hts. apply Ok_inj in Hts.
  injection Hts as -> -> ->.
  destruct fraction_errors as (Es & Ht & Hs' & [D7 D7'] & [D85 D85']).
  assert (HN0 : 0 <= Py.len df <= 2 ^ 40) by (unfold Py.len in *; lia).
  assert (D7'' : 2 ^ 40 * (7 * one_u - 10 * grid (lit 7 10)) <= 2 ^ 1068).
  { etransitivity; [exact D7'|]. apply Z.pow_le_mono_r; lia. }
  destruct (floor_fraction (Py.len df) (grid (lit 7 10)) 7 10 HN0 Ht
              ltac:(lia) ltac:(lia) D7 D7'') as (z1 & Ez1 & B1).
  destruct (floor_fraction (Py.len df) (grid (fadd (lit 7 10) (lit 15 100))) 85 100
              HN0 Hs' ltac:(lia) ltac:(lia) D85 D85') as (z2 & Ez2 & B2).
  rewrite Ez1 in F1. rewrite Es, Ez2 in F2. cbn [floor] in F1, F2.
  apply (inj Some) in F1. apply (inj Some) in F2.
  unfold Py.len in *. rewrite !length_take, !length_drop, !length_take.
  rewrite F1 in B1. rewrite F2 in B2. lia.
Qed.
End SplitSizes.

Lemma main_split_sizes_witness :
  let df := seq 0 90 in
  let N := Py.len df in
  let tr := take 62 df in
  let va := drop 62 (take 76 df) in
  let te := drop 76 df in
  (7 * N / 10 - 1 <= Py.len tr /\ Py.len tr <= 7 * N / 10) /\
  (85 * N / 100 - 1 <= Py.len tr + Py.len va /\
   Py.len tr + Py.len va <= 85 * N / 100) /\
  Py.len tr + Py.len va + Py.len te = N.
Proof.
  intros df N tr va te.
  apply (main_split_sizes df tr va te).
  - vm_compute. discriminate.
  - vm_compute. reflexivity.
Defined.

(** Ninety rows: the train split holds 62 rows, one fewer than
    floor(0.7 * 90) = 63, since 90 * 0.7 is 62.99999999999999 in binary64. *)
Example split_of_90_rows :
  time_split (seq 0 90) (lit 7 10) (lit 15 100)
  = Ok (seq 0 62, seq 62 14, seq 76 14).
Proof. vm_compute. reflexivity. Qed.
